(** * Tex3DS decompression: a shallow embedding of
      [source/tex3ds/buffer.c], [include/tex3ds/buffer.h],
      [source/tex3ds/decompress.c] and the readers of [tex3ds.c], with the
      properties of the streaming buffer, the scatter-gather iterator, the
      decoders and the head of a texture file. *)

From Stdlib Require Import ZArith List Bool Lia.
From Stdlib Require QArith.
Import ListNotations.
Open Scope Z_scope.

(** ** Machine integers

    [size_t] on the target (ARM11, 32 bit) is a 32-bit unsigned integer.
    Values are kept in [Z]; every operation that can leave the range is
    written with [wrap]. *)

Definition size_bits : Z := 32.
Definition SIZE_MAX : Z := 2 ^ size_bits - 1.
Definition wrap (z : Z) : Z := z mod 2 ^ size_bits.

(** [uint8_t] truncation, as in [flags <<= 1]. *)
Definition wrap8 (z : Z) : Z := z mod 256.

Definition len {A : Type} (l : list A) : Z := Z.of_nat (length l).

(** ** Outcomes

    A C function of these files either returns, or leaves defined
    behaviour.  The second case is kept apart and classified. *)

Inductive fault : Type :=
| AssertFailed      (* an [assert] does not hold *)
| IovOutOfBounds    (* [iov[i]] evaluated with [i] outside [0, cnt) *)
| OutputOverrun     (* access outside the bytes of an output region *)
| BufferOverrun     (* access outside [buffer->data] *)
| TreeOutOfBounds   (* access outside the 512-byte Huffman table *)
| OutOfFuel.        (* the loop bound of the model was too small *)

Inductive res (A : Type) : Type :=
| Ok (a : A)
| Err (f : fault).
Arguments Ok {A} a.
Arguments Err {A} f.

Definition rbind {A B : Type} (r : res A) (k : A -> res B) : res B :=
  match r with
  | Ok a => k a
  | Err f => Err f
  end.

Definition assert (b : bool) : res unit :=
  if b then Ok tt else Err AssertFailed.

Declare Scope res_scope.
Delimit Scope res_scope with res.
Notation "x <- c1 ;; c2" := (rbind c1 (fun x => c2))
  (at level 61, c1 at next level, right associativity) : res_scope.
Notation "c1 ;;; c2" := (rbind c1 (fun _ => c2))
  (at level 61, right associativity) : res_scope.

(** ** The I/O vector

    [Tex3DS_IOVec] is a pointer [data] and a [size].  A region is modelled
    by the list of the bytes its [data] points to; its [size] field is the
    length of that list.  The regions of one vector are disjoint, so the
    bytes behind [iov[0..cnt)] are a list of regions, and the table of
    [size] fields, which is all the iterator arithmetic reads, is
    [iov_of]. *)

Definition region : Type := list Z.
Definition memory : Type := list region.

Definition iov_of (m : memory) : list Z := map (@len Z) m.

(** [iov[i].size]; evaluating it for [i] outside the array is out of
    bounds. *)
Definition iov_at (iov : list Z) (i : Z) : res Z :=
  if (0 <=? i) && (i <? len iov)
  then Ok (nth (Z.to_nat i) iov 0)
  else Err IovOutOfBounds.

(** The iterator; its [iov] and [cnt] fields never change and are passed
    along as the size table. *)
Record iov_iter : Type := mk_iter { it_num : Z; it_pos : Z }.

Definition iov_begin : iov_iter := {| it_num := 0; it_pos := 0 |}.

(** [iov_size]: the sum of the sizes, with its overflow assertion. *)
Fixpoint iov_size_from (iov : list Z) (size : Z) : res Z :=
  match iov with
  | [] => Ok size
  | sz :: rest =>
      (assert (SIZE_MAX - size >=? sz) ;;;
       iov_size_from rest (size + sz))%res
  end.

Definition iov_size (iov : list Z) : res Z := iov_size_from iov 0.

(** The two assertions that open [iov_addr], [iov_increment], [iov_read],
    [iov_memmove] and [iov_memset]. *)
Definition iov_check (iov : list Z) (it : iov_iter) : res Z :=
  (assert (it_num it <? len iov) ;;;
   sz <- iov_at iov (it_num it) ;;
   assert (it_pos it <? sz) ;;;
   Ok sz)%res.

(** [iov_addr]: the address is the pair of a region and an offset. *)
Definition iov_addr (iov : list Z) (it : iov_iter) : res (Z * Z) :=
  (iov_check iov it ;;; Ok (it_num it, it_pos it))%res.

Definition iov_increment (iov : list Z) (it : iov_iter) : res iov_iter :=
  (sz <- iov_check iov it ;;
   let pos := it_pos it + 1 in
   if pos =? sz
   then Ok {| it_num := it_num it + 1; it_pos := 0 |}
   else Ok {| it_num := it_num it; it_pos := pos |})%res.

(** [iov_add]: the [while(true)] loop.  Every round that does not return
    increments [num], so [cnt + 1] rounds are enough. *)
Fixpoint iov_add_loop (fuel : nat) (iov : list Z) (it : iov_iter) (size : Z)
  : res iov_iter :=
  match fuel with
  | O => Err OutOfFuel
  | S fuel' =>
      (assert (it_num it <=? len iov) ;;;
       sz <- iov_at iov (it_num it) ;;
       assert (sz >? it_pos it) ;;;
       if sz - it_pos it >? size
       then Ok {| it_num := it_num it; it_pos := it_pos it + size |}
       else iov_add_loop fuel' iov
              {| it_num := it_num it + 1; it_pos := 0 |}
              (size - (sz - it_pos it)))%res
  end.

Definition iov_add (iov : list Z) (it : iov_iter) (size : Z) : res iov_iter :=
  iov_add_loop (S (length iov)) iov it size.

(** [iov_sub]: every round that does not return decrements [num]. *)
Fixpoint iov_sub_loop (fuel : nat) (iov : list Z) (it : iov_iter) (size : Z)
  : res iov_iter :=
  match fuel with
  | O => Err OutOfFuel
  | S fuel' =>
      if it_pos it >=? size
      then Ok {| it_num := it_num it; it_pos := it_pos it - size |}
      else
        (assert (it_num it >? 0) ;;;
         sz <- iov_at iov (it_num it - 1) ;;
         iov_sub_loop fuel' iov
           {| it_num := it_num it - 1; it_pos := sz |}
           (size - it_pos it))%res
  end.

Definition iov_sub (iov : list Z) (it : iov_iter) (size : Z) : res iov_iter :=
  iov_sub_loop (S (Z.to_nat (it_num it))) iov it size.

(** ** Bytes behind the regions

    An address is a region and an offset in it ([iov_addr] returns
    [iov[num].data + pos]); pointer arithmetic moves the offset. *)

Definition addr : Type := (Z * Z)%type.

Definition addr_add (a : addr) (k : Z) : addr := (fst a, snd a + k).

Definition load (m : memory) (a : addr) : res Z :=
  if (0 <=? fst a) && (0 <=? snd a)
  then match nth_error m (Z.to_nat (fst a)) with
       | Some r => match nth_error r (Z.to_nat (snd a)) with
                   | Some v => Ok v
                   | None => Err OutputOverrun
                   end
       | None => Err OutputOverrun
       end
  else Err OutputOverrun.

(** Overwrite [bs] at offset [off] of a list. *)
Definition splice (r : list Z) (off : Z) (bs : list Z) : list Z :=
  firstn (Z.to_nat off) r ++ bs ++ skipn (Z.to_nat off + length bs) r.

Definition poke (r : region) (off : Z) (bs : list Z) : res region :=
  if (0 <=? off) && (off + len bs <=? len r)
  then Ok (splice r off bs)
  else Err OutputOverrun.

(** Store the bytes [bs] from address [a] on, inside one region. *)
Definition store_bytes (m : memory) (a : addr) (bs : list Z) : res memory :=
  if 0 <=? fst a
  then match nth_error m (Z.to_nat (fst a)) with
       | Some r =>
           (r' <- poke r (snd a) bs ;;
            Ok (firstn (Z.to_nat (fst a)) m ++ r'
                  :: skipn (S (Z.to_nat (fst a))) m))%res
       | None => Err OutputOverrun
       end
  else Err OutputOverrun.

Definition store (m : memory) (a : addr) (v : Z) : res memory :=
  store_bytes m a [v].

(** The byte loop of [iov_memmove],
    [while(bytes-- > 0) *outbuf++ = *inbuf++;].  Each byte is loaded after
    the stores before it.  The test decrements [bytes] also when it fails,
    so the loop leaves [bytes] at [0 - 1], wrapped; the value is returned
    with the memory. *)
Fixpoint copy_loop (fuel : nat) (m : memory) (outbuf inbuf : addr) (bytes : Z)
  : res (memory * Z) :=
  let test := bytes >? 0 in
  let bytes := wrap (bytes - 1) in
  if test
  then match fuel with
       | O => Err OutOfFuel
       | S fuel' =>
           (v <- load m inbuf ;;
            m' <- store m outbuf v ;;
            copy_loop fuel' m' (addr_add outbuf 1) (addr_add inbuf 1) bytes)%res
       end
  else Ok (m, bytes).

(** ** The streaming buffer ([types.h], [buffer.c], [buffer.h]) *)

Record Tex3DS_Buffer : Type := mk_buffer {
  b_data  : list Z;  (* the bytes [data] points to *)
  b_limit : Z;       (* max buffer size *)
  b_size  : Z;       (* current buffer size *)
  b_pos   : Z;       (* buffer position *)
  b_total : Z        (* total bytes consumed *)
}.

(** [memcpy(dest, data + pos, n)] reads [n] bytes of [data] from [pos]. *)
Definition slice (l : list Z) (pos n : Z) : res (list Z) :=
  if (0 <=? pos) && (0 <=? n) && (pos + n <=? len l)
  then Ok (firstn (Z.to_nat n) (skipn (Z.to_nat pos) l))
  else Err BufferOverrun.

Section Tex3DS.

(** The pull source: [callback(userdata, buffer, size)] returns its
    [ssize_t] result and leaves new contents in the block [buffer] points
    to and a new state behind [userdata]. *)
Variable U : Type.
Variable callback : U -> list Z -> Z -> Z * list Z * U.

Record world : Type := mk_world {
  w_buf  : Tex3DS_Buffer;
  w_user : U;
  w_out  : memory
}.

(** State is kept when a fault occurs: the world of a result is the one
    the program had reached. *)
Definition M (A : Type) : Type := world -> res A * world.

Definition ret {A : Type} (a : A) : M A := fun w => (Ok a, w).

Definition bind {A B : Type} (c : M A) (k : A -> M B) : M B :=
  fun w => match c w with
           | (Ok a, w') => k a w'
           | (Err f, w') => (Err f, w')
           end.

Definition lift {A : Type} (r : res A) : M A := fun w => (r, w).

Definition raise {A : Type} (f : fault) : M A := fun w => (Err f, w).

Notation "x <- c1 ;; c2" := (bind c1 (fun x => c2))
  (at level 61, c1 at next level, right associativity).
Notation "' pat <- c1 ;; c2" := (bind c1 (fun x => match x with pat => c2 end))
  (at level 61, pat pattern, c1 at next level, right associativity).

Definition get_out : M memory := fun w => (Ok (w_out w), w).
Definition put_out (m : memory) : M unit :=
  fun w => (Ok tt, {| w_buf := w_buf w; w_user := w_user w; w_out := m |}).

(** *** [Tex3DS_BufferRead]

    The bytes the call has copied to [dest] so far are accumulated in
    [dest]; they are returned with the result, since a failing call has
    already copied the resident bytes.  Every round that does not return
    takes at least one byte off [size] once the buffer has been filled,
    so [size + 1] rounds are enough. *)
Fixpoint BufferRead_loop (fuel : nat) (buffer : Tex3DS_Buffer) (userdata : U)
         (dest : list Z) (size : Z)
  : res (bool * list Z) * Tex3DS_Buffer * U :=
  if negb (size >? 0) then (Ok (true, dest), buffer, userdata) else
  match fuel with
  | O => (Err OutOfFuel, buffer, userdata)
  | S fuel' =>
      let avail := wrap (b_size buffer - b_pos buffer) in
      if size <=? avail then
        (* entire request is in our buffer *)
        match slice (b_data buffer) (b_pos buffer) size with
        | Err f => (Err f, buffer, userdata)
        | Ok bs =>
            (Ok (true, dest ++ bs),
             {| b_data := b_data buffer; b_limit := b_limit buffer;
                b_size := b_size buffer;
                b_pos := wrap (b_pos buffer + size);
                b_total := b_total buffer |},
             userdata)
        end
      else
        (* copy partial data *)
        match (if negb (b_pos buffer =? b_size buffer)
               then slice (b_data buffer) (b_pos buffer) avail
               else Ok []) with
        | Err f => (Err f, buffer, userdata)
        | Ok bs =>
            let dest := dest ++ bs in
            let size := if negb (b_pos buffer =? b_size buffer)
                        then wrap (size - avail) else size in
            (* fetch some more data *)
            let '(rc, data, userdata) :=
              callback userdata (b_data buffer) (b_limit buffer) in
            let buffer :=
              {| b_data := data; b_limit := b_limit buffer;
                 b_size := 0; b_pos := 0; b_total := b_total buffer |} in
            if rc <=? 0 then (Ok (false, dest), buffer, userdata)
            else
              BufferRead_loop fuel'
                {| b_data := data; b_limit := b_limit buffer;
                   b_size := wrap rc; b_pos := 0;
                   b_total := b_total buffer |}
                userdata dest size
        end
  end.

Definition Tex3DS_BufferRead (size : Z) : M (bool * list Z) :=
  fun w =>
    let '(r, buffer, userdata) :=
      BufferRead_loop (S (Z.to_nat size)) (w_buf w) (w_user w) [] size in
    (r, {| w_buf := buffer; w_user := userdata; w_out := w_out w |}).

(** *** [Tex3DS_BufferGet] *)
Definition Tex3DS_BufferGet : M (bool * list Z) :=
  fun w =>
    let buffer := w_buf w in
    if b_pos buffer <? b_size buffer then
      (* fast-path; just read the byte if we have it *)
      match slice (b_data buffer) (b_pos buffer) 1 with
      | Err f => (Err f, w)
      | Ok bs =>
          (Ok (true, bs),
           {| w_buf := {| b_data := b_data buffer; b_limit := b_limit buffer;
                          b_size := b_size buffer;
                          b_pos := wrap (b_pos buffer + 1);
                          b_total := wrap (b_total buffer + 1) |};
              w_user := w_user w; w_out := w_out w |})
      end
    else
      (* grab the byte with read-ahead *)
      Tex3DS_BufferRead 1 w.

(** [Tex3DS_BufferGet(buffer, &var, ...)] with a local variable as
    destination: the value of the variable when the call succeeds. *)
Definition get_var : M (option Z) :=
  '(ok, bs) <- Tex3DS_BufferGet ;;
  ret (if ok : bool then Some (last bs 0) else None).

(** A call whose destination is an address in the output regions: the
    bytes copied are stored there, also when the call fails. *)
Definition to_out (a : addr) (c : M (bool * list Z)) : M bool :=
  '(ok, bs) <- c ;;
  m <- get_out ;;
  m' <- lift (store_bytes m a bs) ;;
  _ <- put_out m' ;;
  ret ok.

(** *** Copies through the iterator

    The [while(size > 0)] loops below take at least one byte off [size]
    in every round, so [size] rounds are enough. *)

Definition min_bytes (a b : Z) : Z := if b <? a then b else a.

Fixpoint iov_read_loop (fuel : nat) (iov : list Z) (out : iov_iter) (size : Z)
  : M (bool * iov_iter) :=
  if negb (size >? 0) then ret (true, out) else
  match fuel with
  | O => raise OutOfFuel
  | S fuel' =>
      sz <- lift (iov_check iov out) ;;
      let bytes := min_bytes (sz - it_pos out) size in
      a <- lift (iov_addr iov out) ;;
      ok <- to_out a (Tex3DS_BufferRead bytes) ;;
      if negb ok then ret (false, out) else
      let size := size - bytes in
      out <- lift (iov_add iov out bytes) ;;
      iov_read_loop fuel' iov out size
  end.

Definition iov_read (iov : list Z) (out : iov_iter) (size : Z)
  : M (bool * iov_iter) :=
  iov_read_loop (Z.to_nat size) iov out size.

Fixpoint iov_memmove_loop (fuel : nat) (iov : list Z) (out in_ : iov_iter)
         (size : Z) : M (iov_iter * iov_iter) :=
  if negb (size >? 0) then ret (out, in_) else
  match fuel with
  | O => raise OutOfFuel
  | S fuel' =>
      osz <- lift (iov_check iov out) ;;
      isz <- lift (iov_check iov in_) ;;
      outbuf <- lift (iov_addr iov out) ;;
      inbuf <- lift (iov_addr iov in_) ;;
      let bytes :=
        if osz - it_pos out <? isz - it_pos in_
        then osz - it_pos out
        else isz - it_pos in_ in
      let bytes := min_bytes bytes size in
      let size := size - bytes in
      m <- get_out ;;
      '(m', bytes) <- lift (copy_loop (Z.to_nat bytes) m outbuf inbuf bytes) ;;
      _ <- put_out m' ;;
      out <- lift (iov_add iov out bytes) ;;
      in_ <- lift (iov_add iov in_ bytes) ;;
      iov_memmove_loop fuel' iov out in_ size
  end.

Definition iov_memmove (iov : list Z) (out in_ : iov_iter) (size : Z)
  : M (iov_iter * iov_iter) :=
  iov_memmove_loop (Z.to_nat size) iov out in_ size.

Fixpoint iov_memset_loop (fuel : nat) (iov : list Z) (out : iov_iter)
         (val : Z) (size : Z) : M iov_iter :=
  if negb (size >? 0) then ret out else
  match fuel with
  | O => raise OutOfFuel
  | S fuel' =>
      sz <- lift (iov_check iov out) ;;
      let bytes := min_bytes (sz - it_pos out) size in
      a <- lift (iov_addr iov out) ;;
      m <- get_out ;;
      m' <- lift (store_bytes m a (repeat val (Z.to_nat bytes))) ;;
      _ <- put_out m' ;;
      let size := size - bytes in
      out <- lift (iov_add iov out bytes) ;;
      iov_memset_loop fuel' iov out val size
  end.

Definition iov_memset (iov : list Z) (out : iov_iter) (val : Z) (size : Z)
  : M iov_iter :=
  iov_memset_loop (Z.to_nat size) iov out val size.

(** *** LZSS/LZ10 *)

Definition truthy (z : Z) : bool := negb (z =? 0).

Fixpoint lzss_loop (fuel : nat) (iov : list Z) (out : iov_iter)
         (flags mask : Z) (size : Z) : M bool :=
  if negb (size >? 0) then ret true else
  match fuel with
  | O => raise OutOfFuel
  | S fuel' =>
      fm <- (if mask =? 0
             then (* read in the flags data *)
               g <- get_var ;;
               ret (option_map (fun f => (f, 128)) g)
             else ret (Some (flags, mask))) ;;
      match fm with
      | None => ret false
      | Some (flags, mask) =>
          if truthy (Z.land flags mask) then
            (* compressed block *)
            d0 <- get_var ;;
            match d0 with
            | None => ret false
            | Some d0 =>
            d1 <- get_var ;;
            match d1 with
            | None => ret false
            | Some d1 =>
                let len_ := Z.shiftr (Z.land d0 240) 4 + 3 in
                let disp := Z.land d0 15 in
                let disp := Z.lor (Z.shiftl disp 8) d1 in
                let len_ := if len_ >? size then size else len_ in
                let size := size - len_ in
                in_ <- lift (iov_sub iov out (disp + 1)) ;;
                '(out, _) <- iov_memmove iov out in_ size ;;
                lzss_loop fuel' iov out flags (Z.shiftr mask 1) size
            end
            end
          else
            (* uncompressed block *)
            a <- lift (iov_addr iov out) ;;
            ok <- to_out a Tex3DS_BufferGet ;;
            if negb ok then ret false else
            let size := size - 1 in
            out <- lift (iov_increment iov out) ;;
            lzss_loop fuel' iov out flags (Z.shiftr mask 1) size
      end
  end.

Definition lzss_decode (iov : list Z) (size : Z) : M bool :=
  lzss_loop (Z.to_nat size) iov iov_begin 0 0 size.

(** *** LZ11

    [lz11_block] is the head of a compressed block, from the declaration
    of [displen] to the assignment of [disp]: it reads the two, three or
    four bytes of [displen] and gives [len] and [disp].  [None] is
    [return false]. *)
Definition lz11_block : M (option (Z * Z)) :=
  d0 <- get_var ;;
  match d0 with
  | None => ret None
  | Some d0 =>
      match Z.shiftr d0 4 with
      | 0 => (* extended block *)
          d1 <- get_var ;;
          match d1 with
          | None => ret None
          | Some d1 =>
          d2 <- get_var ;;
          match d2 with
          | None => ret None
          | Some d2 =>
              let displen := [d0; d1; d2] in
              let pos := 0%nat in
              let len_ := Z.shiftl (nth pos displen 0) 4 in
              let pos := S pos in
              let len_ := Z.lor len_ (Z.shiftr (nth pos displen 0) 4) in
              let len_ := len_ + 17 in
              let disp := Z.shiftl (Z.land (nth pos displen 0) 15) 8 in
              let pos := S pos in
              let disp := Z.lor disp (nth pos displen 0) in
              ret (Some (len_, disp))
          end
          end
      | 1 => (* extra extended block *)
          d1 <- get_var ;;
          match d1 with
          | None => ret None
          | Some d1 =>
          d2 <- get_var ;;
          match d2 with
          | None => ret None
          | Some d2 =>
          d3 <- get_var ;;
          match d3 with
          | None => ret None
          | Some d3 =>
              let displen := [d0; d1; d2; d3] in
              let pos := 0%nat in
              let len_ := Z.shiftl (Z.land (nth pos displen 0) 15) 12 in
              let pos := S pos in
              let len_ := Z.lor len_ (Z.shiftl (nth pos displen 0) 4) in
              let pos := S pos in
              let len_ := Z.lor len_ (Z.shiftr (nth pos displen 0) 4) in
              let len_ := len_ + 273 in
              let disp := Z.shiftl (Z.land (nth pos displen 0) 15) 8 in
              let pos := S pos in
              let disp := Z.lor disp (nth pos displen 0) in
              ret (Some (len_, disp))
          end
          end
          end
      | _ => (* normal block *)
          d1 <- get_var ;;
          match d1 with
          | None => ret None
          | Some d1 =>
              let displen := [d0; d1] in
              let pos := 0%nat in
              let len_ := Z.shiftr (nth pos displen 0) 4 + 1 in
              let disp := Z.shiftl (Z.land (nth pos displen 0) 15) 8 in
              let pos := S pos in
              let disp := Z.lor disp (nth pos displen 0) in
              ret (Some (len_, disp))
          end
      end
  end.

(** The [for(i = 0; i < 8 && size > 0; i++, flags <<= 1)] loop; [rounds]
    is [8 - i].  [None] is [return false]. *)
Fixpoint lz11_for (rounds : nat) (iov : list Z) (out : iov_iter)
         (flags : Z) (size : Z) : M (option (iov_iter * Z)) :=
  match rounds with
  | O => ret (Some (out, size))
  | S rounds' =>
      if negb (size >? 0) then ret (Some (out, size)) else
      if truthy (Z.land flags 128) then
        (* compressed block *)
        b <- lz11_block ;;
        match b with
        | None => ret None
        | Some (len_, disp) =>
            let len_ := if len_ >? size then size else len_ in
            let size := size - len_ in
            in_ <- lift (iov_sub iov out (disp + 1)) ;;
            '(out, _) <- iov_memmove iov out in_ size ;;
            lz11_for rounds' iov out (wrap8 (Z.shiftl flags 1)) size
        end
      else
        (* uncompressed block *)
        a <- lift (iov_addr iov out) ;;
        ok <- to_out a Tex3DS_BufferGet ;;
        if negb ok then ret None else
        let size := size - 1 in
        out <- lift (iov_increment iov out) ;;
        lz11_for rounds' iov out (wrap8 (Z.shiftl flags 1)) size
  end.

Fixpoint lz11_loop (fuel : nat) (iov : list Z) (out : iov_iter) (size : Z)
  : M bool :=
  if negb (size >? 0) then ret true else
  match fuel with
  | O => raise OutOfFuel
  | S fuel' =>
      flags <- get_var ;;
      match flags with
      | None => ret false
      | Some flags =>
          r <- lz11_for 8 iov out flags size ;;
          match r with
          | None => ret false
          | Some (out, size) => lz11_loop fuel' iov out size
          end
      end
  end.

Definition lz11_decode (iov : list Z) (size : Z) : M bool :=
  lz11_loop (Z.to_nat size) iov iov_begin size.

(** *** Run-length encoding *)

(** One round of the [while(size > 0)] loop of [rle_decode]: the new
    iterator and the new [size], or [None] for [return false]. *)
Definition rle_step (iov : list Z) (out : iov_iter) (size : Z)
  : M (option (iov_iter * Z)) :=
  (* read in the data header *)
  byte <- get_var ;;
  match byte with
  | None => ret None
  | Some byte =>
      if truthy (Z.land byte 128) then
        (* compressed block *)
        let len_ := Z.land byte 127 + 3 in
        let len_ := if len_ >? size then size else len_ in
        let size := size - len_ in
        byte <- get_var ;;
        match byte with
        | None => ret None
        | Some byte =>
            out <- iov_memset iov out byte len_ ;;
            ret (Some (out, size))
        end
      else
        (* uncompressed block *)
        let len_ := Z.land byte 127 + 1 in
        let len_ := if len_ >? size then size else len_ in
        let size := size - len_ in
        '(ok, out) <- iov_read iov out len_ ;;
        if negb ok then ret None
        else ret (Some (out, size))
  end.

Fixpoint rle_loop (fuel : nat) (iov : list Z) (out : iov_iter) (size : Z)
  : M bool :=
  if negb (size >? 0) then ret true else
  match fuel with
  | O => raise OutOfFuel
  | S fuel' =>
      r <- rle_step iov out size ;;
      match r with
      | None => ret false
      | Some (out, size) => rle_loop fuel' iov out size
      end
  end.

Definition rle_decode (iov : list Z) (size : Z) : M bool :=
  rle_loop (Z.to_nat size) iov iov_begin size.

(** *** Huffman

    [malloc(512)] gives a null pointer ([None]) or a block of 512 bytes
    of indeterminate content, which the caller of the model supplies.
    The decode loop has no bound of its own (a table can send the walk
    in circles for as long as the source delivers), so the model takes
    its number of rounds as an argument. *)

Definition wrap32 (z : Z) : Z := z mod 2 ^ 32.

Definition tree_at (tree : list Z) (i : Z) : res Z :=
  if (0 <=? i) && (i <? 512)
  then match nth_error tree (Z.to_nat i) with
       | Some v => Ok v
       | None => Err TreeOutOfBounds
       end
  else Err TreeOutOfBounds.

Definition tree_write (tree : list Z) (off : Z) (bs : list Z)
  : res (list Z) :=
  if (0 <=? off) && (off + len bs <=? len tree)
  then Ok (splice tree off bs)
  else Err TreeOutOfBounds.

(** The four [Tex3DS_BufferGet] calls that refill the bit window;
    [None] is a failed call. *)
Definition huff_word : M (option Z) :=
  b0 <- get_var ;;
  match b0 with
  | None => ret None
  | Some b0 =>
  b1 <- get_var ;;
  match b1 with
  | None => ret None
  | Some b1 =>
  b2 <- get_var ;;
  match b2 with
  | None => ret None
  | Some b2 =>
  b3 <- get_var ;;
  match b3 with
  | None => ret None
  | Some b3 =>
      ret (Some (wrap32 (Z.lor (Z.lor (Z.lor (Z.shiftl b0 0) (Z.shiftl b1 8))
                                      (Z.shiftl b2 16))
                               (Z.shiftl b3 24))))
  end
  end
  end
  end.

(** Store one decoded byte and step the iterator. *)
Definition emit (iov : list Z) (out : iov_iter) (v : Z) : M iov_iter :=
  a <- lift (iov_addr iov out) ;;
  m <- get_out ;;
  m' <- lift (store m a v) ;;
  _ <- put_out m' ;;
  lift (iov_increment iov out).

Fixpoint huff_loop (fuel : nat) (tree : list Z) (iov : list Z)
         (out : iov_iter) (word mask : Z) (node : Z) (size : Z) : M bool :=
  if negb (size >? 0) then ret true else
  match fuel with
  | O => raise OutOfFuel
  | S fuel' =>
      wm <- (if mask =? 0
             then (* we exhausted 32 bits *)
               w <- huff_word ;;
               ret (option_map (fun w => (w, 2147483648)) w)
             else ret (Some (word, mask))) ;;
      match wm with
      | None => ret false
      | Some (word, mask) =>
          let dataMask := Z.shiftl 1 8 - 1 in
          (* read the current node's offset value *)
          t <- lift (tree_at tree node) ;;
          let offset := Z.land t 31 in
          let child := Z.land node (wrap (Z.lnot 1)) + offset * 2 + 2 in
          if truthy (Z.land word mask) then
            (* we read a 1: point to the "right" child *)
            let child := child + 1 in
            if truthy (Z.land t 64) then
              c <- lift (tree_at tree child) ;;
              out <- emit iov out (Z.land c dataMask) ;;
              huff_loop fuel' tree iov out word (Z.shiftr mask 1) 1 (size - 1)
            else
              huff_loop fuel' tree iov out word (Z.shiftr mask 1) child size
          else
            (* we read a 0 *)
            if truthy (Z.land t 128) then
              c <- lift (tree_at tree child) ;;
              out <- emit iov out (Z.land c dataMask) ;;
              huff_loop fuel' tree iov out word (Z.shiftr mask 1) 1 (size - 1)
            else
              huff_loop fuel' tree iov out word (Z.shiftr mask 1) child size
      end
  end.

(** The two reads that fill the table; [None] is [return false]. *)
Definition huff_tree (malloc512 : option (list Z)) : M (option (list Z)) :=
  match malloc512 with
  | None => ret None
  | Some tree =>
      (* get tree size *)
      '(ok, bs) <- Tex3DS_BufferRead 1 ;;
      tree <- lift (tree_write tree 0 bs) ;;
      if negb ok then ret None else
      t0 <- lift (tree_at tree 0) ;;
      (* read tree *)
      '(ok, bs) <- Tex3DS_BufferRead ((t0 + 1) * 2 - 1) ;;
      tree <- lift (tree_write tree 1 bs) ;;
      if negb ok then ret None else
      ret (Some tree)
  end.

Definition huff_decode (malloc512 : option (list Z)) (fuel : nat)
           (iov : list Z) (size : Z) : M bool :=
  tree <- huff_tree malloc512 ;;
  match tree with
  | None => ret false
  | Some tree => huff_loop fuel tree iov iov_begin 0 0 1 size
  end.

(** *** The dispatcher

    [dispatch] is the [switch(type)] at the end of [Tex3DS_DecompressV]
    with the [return false] after it. *)
Definition dispatch (malloc512 : option (list Z)) (fuel : nat)
           (iov : list Z) (type : Z) (size : Z) : M bool :=
  match type with
  | 0 =>
      '(ok, _) <- iov_read iov iov_begin size ;;
      ret ok
  | 16 => lzss_decode iov size
  | 17 => lz11_decode iov size
  | 40 => huff_decode malloc512 fuel iov size
  | 48 => rle_decode iov size
  | _ => ret false
  end.

(** The memory behind [iov] is the output part of the world; [iovcnt] is
    the number of its regions. *)
Definition Tex3DS_DecompressV (malloc512 : option (list Z)) (fuel : nat)
  : M bool :=
  m <- get_out ;;
  let iov := iov_of m in
  let iovcnt := len iov in
  if iovcnt =? 0 then ret false else
  '(ok, header) <- Tex3DS_BufferRead 4 ;;
  if negb ok then ret false else
  let type := nth 0 header 0 in
  let size := Z.lor (Z.lor (Z.shiftl (nth 1 header 0) 0)
                           (Z.shiftl (nth 2 header 0) 8))
                    (Z.shiftl (nth 3 header 0) 16) in
  ts <- (if truthy (Z.land type 128) then
           let type := wrap8 (Z.land type (Z.lnot 128)) in
           '(ok, header4) <- Tex3DS_BufferRead 4 ;;
           if negb ok then ret None else
           let size := Z.lor size (wrap (Z.shiftl (nth 0 header4 0) 24)) in
           ret (Some (type, size))
         else ret (Some (type, size))) ;;
  match ts with
  | None => ret false
  | Some (type, size) =>
      iovsize <- lift (iov_size iov) ;;
      let size := if iovsize <? size then iovsize else size in
      dispatch malloc512 fuel iov type size
  end.

(** [Tex3DS_Decompress] calls [Tex3DS_DecompressV] with the single region
    [output] of [outsize] bytes, which is a world whose output part has
    one region. *)
Definition Tex3DS_Decompress (malloc512 : option (list Z)) (fuel : nat)
           (buffer : Tex3DS_Buffer) (output : region) (userdata : U)
  : res bool * world :=
  Tex3DS_DecompressV malloc512 fuel
    {| w_buf := buffer; w_user := userdata; w_out := [output] |}.

End Tex3DS.

Arguments mk_world {U} _ _ _.
Arguments w_buf {U} _.
Arguments w_user {U} _.
Arguments w_out {U} _.
Arguments Tex3DS_BufferRead {U} callback size _.
Arguments Tex3DS_BufferGet {U} callback _.
Arguments get_var {U} callback _.
Arguments to_out {U} a c _.
Arguments iov_read {U} callback iov out size _.
Arguments iov_memmove {U} iov out in_ size _.
Arguments iov_memset {U} iov out val size _.
Arguments emit {U} iov out v _.
Arguments lzss_decode {U} callback iov size _.
Arguments lz11_block {U} callback _.
Arguments lz11_decode {U} callback iov size _.
Arguments huff_word {U} callback _.
Arguments huff_tree {U} callback malloc512 _.
Arguments huff_loop {U} callback fuel tree iov out word mask node size _.
Arguments huff_decode {U} callback malloc512 fuel iov size _.
Arguments rle_step {U} callback iov out size _.
Arguments rle_loop {U} callback fuel iov out size _.
Arguments rle_decode {U} callback iov size _.
Arguments dispatch {U} callback malloc512 fuel iov type size _.
Arguments Tex3DS_DecompressV {U} callback malloc512 fuel _.
Arguments Tex3DS_Decompress {U} callback malloc512 fuel buffer output userdata.

(** ** A pull source: [callback_fd]

    [callback_fd] is [read(fd, buffer, size)].  The state behind the
    descriptor is the unread rest of the file and, for the calls to come,
    how much each of them is willing to deliver: a call takes the head [q]
    of the schedule, fails with [-1] when [q] is negative and otherwise
    delivers the next [min(size, q, rest)] bytes; once the schedule is used
    up, calls deliver [min(size, rest)] bytes.  At the end of the file the
    result is [0]. *)

Record fd_state : Type := mk_fd {
  fd_file  : list Z;
  fd_sched : list Z
}.

Definition fd_deliver (file : list Z) (sched : list Z) (buffer : list Z)
           (k : Z) : Z * list Z * fd_state :=
  (k,
   splice buffer 0 (firstn (Z.to_nat k) file),
   {| fd_file := skipn (Z.to_nat k) file; fd_sched := sched |}).

Definition callback_fd (userdata : fd_state) (buffer : list Z) (size : Z)
  : Z * list Z * fd_state :=
  match fd_sched userdata with
  | [] =>
      fd_deliver (fd_file userdata) [] buffer
        (Z.min size (len (fd_file userdata)))
  | q :: sched =>
      if q <? 0
      then (-1, buffer, {| fd_file := fd_file userdata; fd_sched := sched |})
      else fd_deliver (fd_file userdata) sched buffer
             (Z.min (Z.min size q) (len (fd_file userdata)))
  end.

(** [Tex3DS_BufferInit] followed by nothing else: an empty buffer over a
    fresh block of [size] bytes.  [total] is not assigned by
    [Tex3DS_BufferInit]; the caller's value stays. *)
Definition Tex3DS_BufferInit (block : list Z) (size : Z) (total : Z)
  : Tex3DS_Buffer :=
  {| b_data := block; b_limit := size; b_size := 0; b_pos := 0;
     b_total := total |}.

(** A world that reads [file] through a fresh buffer of [limit] bytes. *)
Definition fd_world (limit : Z) (file sched : list Z) (out : memory)
  : world fd_state :=
  {| w_buf := Tex3DS_BufferInit (repeat 0 (Z.to_nat limit)) limit 0;
     w_user := {| fd_file := file; fd_sched := sched |};
     w_out := out |}.

Definition run {A : Type} (r : res A * world fd_state) : res A * memory :=
  (fst r, w_out (snd r)).


(** ** Readers of [tex3ds.c]

    [decode_u8], [decode_u16] and [decode_u32] read a value byte by byte
    with [Tex3DS_BufferGet]; [None] is [return false].  The value is
    assigned to a [uint8_t], [uint16_t] or [uint32_t]; the shift of a
    byte by 24 is taken with the bits the target gives it. *)

Definition wrap16 (z : Z) : Z := z mod 2 ^ 16.

Definition decode_u8 {U : Type} (callback : U -> list Z -> Z -> Z * list Z * U)
  : M U (option Z) :=
  get_var callback.

Definition decode_u16 {U : Type} (callback : U -> list Z -> Z -> Z * list Z * U)
  : M U (option Z) :=
  bind U (get_var callback) (fun in0 =>
  match in0 with
  | None => ret U None
  | Some in0 =>
  bind U (get_var callback) (fun in1 =>
  match in1 with
  | None => ret U None
  | Some in1 => ret U (Some (wrap16 (Z.lor in0 (Z.shiftl in1 8))))
  end)
  end).

Definition decode_u32 {U : Type} (callback : U -> list Z -> Z -> Z * list Z * U)
  : M U (option Z) :=
  bind U (get_var callback) (fun in0 =>
  match in0 with
  | None => ret U None
  | Some in0 =>
  bind U (get_var callback) (fun in1 =>
  match in1 with
  | None => ret U None
  | Some in1 =>
  bind U (get_var callback) (fun in2 =>
  match in2 with
  | None => ret U None
  | Some in2 =>
  bind U (get_var callback) (fun in3 =>
  match in3 with
  | None => ret U None
  | Some in3 =>
      ret U (Some (wrap32 (Z.lor (Z.lor (Z.lor in0 (Z.shiftl in1 8))
                                        (Z.shiftl in2 16))
                                 (Z.shiftl in3 24))))
  end)
  end)
  end)
  end).

(** [decode_float] divides a 16-bit value by [1024.0f]; the quotient is
    exact in a [float] and is kept as a rational. *)
Definition decode_float {U : Type}
           (callback : U -> list Z -> Z -> Z * list Z * U)
  : M U (option QArith_base.Q) :=
  bind U (decode_u16 callback) (fun value =>
  match value with
  | None => ret U None
  | Some value => ret U (Some (QArith_base.Qmake value 1024))
  end).

Record Tex3DS_SubTexture : Type := mk_subtexture {
  st_width : Z;
  st_height : Z;
  st_left : QArith_base.Q;
  st_top : QArith_base.Q;
  st_right : QArith_base.Q;
  st_bottom : QArith_base.Q
}.

Definition decode_subtexture {U : Type}
           (callback : U -> list Z -> Z -> Z * list Z * U)
  : M U (option Tex3DS_SubTexture) :=
  bind U (decode_u16 callback) (fun width =>
  match width with
  | None => ret U None
  | Some width =>
  bind U (decode_u16 callback) (fun height =>
  match height with
  | None => ret U None
  | Some height =>
  bind U (decode_float callback) (fun left_ =>
  match left_ with
  | None => ret U None
  | Some left_ =>
  bind U (decode_float callback) (fun top =>
  match top with
  | None => ret U None
  | Some top =>
  bind U (decode_float callback) (fun right_ =>
  match right_ with
  | None => ret U None
  | Some right_ =>
  bind U (decode_float callback) (fun bottom =>
  match bottom with
  | None => ret U None
  | Some bottom =>
      ret U (Some {| st_width := width; st_height := height;
                     st_left := left_; st_top := top;
                     st_right := right_; st_bottom := bottom |})
  end)
  end)
  end)
  end)
  end)
  end).

Record Tex3DS_Texture_s : Type := mk_texture {
  t_numSubTextures : Z;
  t_width : Z;
  t_height : Z;
  t_format : Z;
  t_mipmapLevels : Z;
  t_subTextures : list Tex3DS_SubTexture
}.

(** The head of [texture_import], up to the end of the loop that reads the
    sub-textures: [None] is [return NULL]; the value is the texture with
    [texture_params].  [subtextures_loop] is the
    [for(i = 0; i < numSubTextures; ++i)] loop, [texture_fields] the part
    behind the [malloc], whose success is [malloc_ok]. *)
Fixpoint subtextures_loop {U : Type}
         (callback : U -> list Z -> Z -> Z * list Z * U) (k : nat)
  : M U (option (list Tex3DS_SubTexture)) :=
  match k with
  | O => ret U (Some [])
  | S k' =>
      bind U (decode_subtexture callback) (fun subtex =>
      match subtex with
      | None => ret U None
      | Some subtex =>
          bind U (subtextures_loop callback k') (fun more =>
          match more with
          | None => ret U None
          | Some more => ret U (Some (subtex :: more))
          end)
      end)
  end.

Definition texture_fields {U : Type}
           (callback : U -> list Z -> Z -> Z * list Z * U)
           (numSubTextures : Z)
  : M U (option (Tex3DS_Texture_s * Z)) :=
  (* get texture parameters *)
  bind U (decode_u8 callback) (fun texture_params =>
  match texture_params with
  | None => ret U None
  | Some texture_params =>
  (* decode width and height *)
  let width :=
    wrap16 (Z.shiftl 1 (Z.land (Z.shiftr texture_params 0) 7 + 3)) in
  let height :=
    wrap16 (Z.shiftl 1 (Z.land (Z.shiftr texture_params 3) 7 + 3)) in
  (* get texture format and mipmap levels *)
  bind U (decode_u8 callback) (fun format =>
  match format with
  | None => ret U None
  | Some format =>
  bind U (decode_u8 callback) (fun mipmapLevels =>
  match mipmapLevels with
  | None => ret U None
  | Some mipmapLevels =>
  (* get subtextures *)
  bind U (subtextures_loop callback (Z.to_nat numSubTextures))
    (fun subTextures =>
  match subTextures with
  | None => ret U None
  | Some subTextures =>
      ret U (Some ({| t_numSubTextures := numSubTextures;
                      t_width := width; t_height := height;
                      t_format := format; t_mipmapLevels := mipmapLevels;
                      t_subTextures := subTextures |}, texture_params))
  end)
  end)
  end)
  end).

Definition texture_header {U : Type}
           (callback : U -> list Z -> Z -> Z * list Z * U) (malloc_ok : bool)
  : M U (option (Tex3DS_Texture_s * Z)) :=
  (* get number of subtextures *)
  bind U (decode_u16 callback) (fun numSubTextures =>
  match numSubTextures with
  | None => ret U None
  | Some numSubTextures =>
      (* allocate space for header + subtextures *)
      if negb malloc_ok then ret U None
      else texture_fields callback numSubTextures
  end).

(** * Notions used in the statements *)

(** ** The output as one stream

    The logical output is the concatenation of the regions, and a position
    of the iterator is an offset in it. *)

Definition sum_sizes (iov : list Z) : Z := fold_right Z.add 0 iov.

(** The regions of a vector are not empty. *)
Definition regions_ok (iov : list Z) : Prop := Forall (fun sz => 0 < sz) iov.

(** The iterator points at a byte. *)
Definition it_ok (iov : list Z) (it : iov_iter) : Prop :=
  0 <= it_num it < len iov /\
  0 <= it_pos it < nth (Z.to_nat (it_num it)) iov 0.

(** The position of the iterator in the logical output stream. *)
Definition it_off (iov : list Z) (it : iov_iter) : Z :=
  sum_sizes (firstn (Z.to_nat (it_num it)) iov) + it_pos it.

(** The iterator after the last byte. *)
Definition it_end (iov : list Z) (it : iov_iter) : Prop :=
  it_num it = len iov /\ it_pos it = 0.

(** ** The input as one stream

    The input still to come is the resident part of the buffer followed by
    what the descriptor will hand over before its first call that returns
    [0] or a negative value. *)

(** The fields of a buffer that [Tex3DS_BufferInit] and
    [Tex3DS_BufferRead] keep in order. *)
Definition buffer_ok (b : Tex3DS_Buffer) : Prop :=
  0 <= b_pos b <= b_size b /\ b_size b <= len (b_data b) /\
  b_limit b <= len (b_data b) /\ len (b_data b) <= SIZE_MAX.

(** The bytes of the buffer that are not consumed yet. *)
Definition resident (b : Tex3DS_Buffer) : list Z :=
  firstn (Z.to_nat (b_size b - b_pos b))
         (skipn (Z.to_nat (b_pos b)) (b_data b)).

(** The bytes [callback_fd] delivers, call after call with [limit] as
    size, up to its first result that is not positive. *)
Fixpoint fd_supply (limit : Z) (sched : list Z) (file : list Z) : list Z :=
  match sched with
  | [] => if 0 <? limit then file else []
  | q :: sched' =>
      let k := Z.min (Z.min limit q) (len file) in
      if k <=? 0 then []
      else firstn (Z.to_nat k) file
             ++ fd_supply limit sched' (skipn (Z.to_nat k) file)
  end.

Definition supply (b : Tex3DS_Buffer) (u : fd_state) : list Z :=
  fd_supply (b_limit b) (fd_sched u) (fd_file u).

Definition in_stream (w : world fd_state) : list Z :=
  resident (w_buf w) ++ supply (w_buf w) (w_user w).

Definition input_ok (w : world fd_state) : Prop := buffer_ok (w_buf w).

Definition is_byte (b : Z) : Prop := 0 <= b < 256.

(** The codec kind: the type byte with its top bit cleared. *)
Definition kind_of (type : Z) : Z := Z.land type 127.

(** ** Sources in general

    What [Tex3DS_BufferRead] relies on in a pull source: asked for at most
    [limit] bytes of a block that has them, it returns no more than
    [limit] and stays inside the block. *)
Definition source_ok {U : Type} (cb : U -> list Z -> Z -> Z * list Z * U)
  : Prop :=
  forall (u : U) (data : list Z) (limit : Z),
    0 <= limit <= len data ->
    fst (fst (cb u data limit)) <= limit /\
    length (snd (fst (cb u data limit))) = length data.

(** The fields of a buffer between two calls: the position is inside the
    filled part, the filled part inside the limit, and the limit inside
    the block. *)
Definition buffer_inv (b : Tex3DS_Buffer) : Prop :=
  0 <= b_pos b <= b_size b /\ b_size b <= b_limit b /\
  b_limit b <= len (b_data b) /\ len (b_data b) <= SIZE_MAX.

(** ** The Huffman decoder of the specification

    The bit stream is the sequence of the 32-bit words of the payload,
    each assembled from four bytes in little-endian order and read from its
    most significant bit down.  The walk starts at a node, takes one bit
    per step to choose a child, emits the child's byte and restarts at the
    root when the node marks that side as terminal, and moves to the child
    otherwise, until [size] bytes are emitted.  A walk that leaves the 512
    bytes of the table or runs out of bits has no result. *)

(** Four bytes as a word, the first byte lowest. *)
Definition le32 (b0 b1 b2 b3 : Z) : Z :=
  wrap32 (Z.lor (Z.lor (Z.lor (Z.shiftl b0 0) (Z.shiftl b1 8)) (Z.shiftl b2 16))
                (Z.shiftl b3 24)).

(** The lowest [j] bits of [word], highest first. *)
Definition window (word : Z) (j : nat) : list bool :=
  map (fun k => Z.testbit word (Z.of_nat k)) (rev (seq 0 j)).

(** The bits of a payload; bytes behind the last whole word give none. *)
Fixpoint bits_of (input : list Z) : list bool :=
  match input with
  | b0 :: b1 :: b2 :: b3 :: rest => window (le32 b0 b1 b2 b3) 32 ++ bits_of rest
  | _ => []
  end.

Definition in_table (i : Z) : bool := (0 <=? i) && (i <? 512).

Definition tbl (tree : list Z) (i : Z) : Z := nth (Z.to_nat i) tree 0.

(** The child a bit selects. *)
Definition child_of (tree : list Z) (node : Z) (bit : bool) : Z :=
  Z.land node (Z.lnot 1) + 2 * Z.land (tbl tree node) 31 + 2
  + (if bit then 1 else 0).

(** The terminal flag of a node for a bit: 0x40 for 1, 0x80 for 0. *)
Definition terminal (tree : list Z) (node : Z) (bit : bool) : bool :=
  negb (Z.land (tbl tree node) (if bit then 64 else 128) =? 0).

Fixpoint huff_walk (tree : list Z) (bits : list bool) (node : Z) (size : nat)
         {struct bits} : option (list Z) :=
  match size with
  | O => Some []
  | S size' =>
      match bits with
      | [] => None
      | bit :: bits' =>
          if negb (in_table node) then None else
          let child := child_of tree node bit in
          if terminal tree node bit then
            if negb (in_table child) then None else
            option_map (cons (Z.land (tbl tree child) 255))
                       (huff_walk tree bits' 1 size')
          else huff_walk tree bits' child size
      end
  end.

(** The value of [mask] when [j] bits of the window are left. *)
Definition mask_of (j : nat) : Z :=
  match j with
  | O => 0
  | S k => 2 ^ Z.of_nat k
  end.

(** The block of the table after the two reads: the size byte, the bytes
    of the table, and what [malloc] had left behind them. *)
Definition tree_of (n : Z) (table tree0 : list Z) : list Z :=
  n :: table ++ skipn (S (length table)) tree0.

(** ** A back-reference of the specification

    A copy of [k] bytes from [d] bytes behind the end of what has been
    produced: each byte is appended before the next one is looked up, so
    a copy longer than its distance repeats the last [d] bytes. *)
Fixpoint extend (pre : list Z) (d : nat) (k : nat) : list Z :=
  match k with
  | O => pre
  | S k' => extend (pre ++ [nth (length pre - d) pre 0]) d k'
  end.

(** ** A run-length payload of the specification

    Each round reads a control byte.  With its high bit set it is a
    repeat-run of [(byte & 0x7F) + 3] copies of the next byte; otherwise a
    literal run of the next [(byte & 0x7F) + 1] bytes; both clamped to the
    size that remains.  The result is the decoded bytes with the input left
    over, or nothing when the input ends first.  [rounds] bounds the
    number of rounds; [size] of them are enough. *)
Fixpoint rle_expand (rounds : nat) (input : list Z) (size : Z)
  : option (list Z * list Z) :=
  if size <=? 0 then Some ([], input) else
  match rounds with
  | O => None
  | S rounds' =>
      match input with
      | [] => None
      | c :: rest =>
          if Z.testbit c 7 then
            let n := Z.min (Z.land c 127 + 3) size in
            match rest with
            | [] => None
            | v :: rest' =>
                match rle_expand rounds' rest' (size - n) with
                | Some (bs, more) => Some (repeat v (Z.to_nat n) ++ bs, more)
                | None => None
                end
            end
          else
            let n := Z.min (Z.land c 127 + 1) size in
            if n <=? len rest then
              match rle_expand rounds' (skipn (Z.to_nat n) rest) (size - n) with
              | Some (bs, more) => Some (firstn (Z.to_nat n) rest ++ bs, more)
              | None => None
              end
            else None
      end
  end.

(** ** Literal groups of an LZ payload

    In LZSS and LZ11 a flags byte gates the next eight decisions and a
    [0] bit stands for one raw byte, so a flags byte of zero is followed
    by eight literal bytes, or by as many as are left of the size.  A
    payload made of such groups stands for its literals. *)
Fixpoint lz_literals (groups : nat) (input : list Z) (size : Z)
  : option (list Z * list Z) :=
  if size <=? 0 then Some ([], input) else
  match groups with
  | O => None
  | S groups' =>
      match input with
      | 0 :: rest =>
          let n := Z.min 8 size in
          if n <=? len rest then
            match lz_literals groups' (skipn (Z.to_nat n) rest) (size - n) with
            | Some (bs, more) => Some (firstn (Z.to_nat n) rest ++ bs, more)
            | None => None
            end
          else None
      | _ => None
      end
  end.

(** ** The head of a texture file

    [reads k c f]: the computation [c] is a reader of [k] bytes with value
    [f]: on an input of bytes that has [k] of them it gives [f] of these
    and leaves the input behind them; on a shorter input it gives nothing.
    It never touches the output. *)
Definition reads {A : Type} (k : Z) (c : M fd_state (option A))
           (f : list Z -> A) : Prop :=
  forall w : world fd_state,
    input_ok w -> Forall is_byte (in_stream w) ->
    (k <= len (in_stream w) ->
     exists w',
       c w = (Ok (Some (f (firstn (Z.to_nat k) (in_stream w)))), w') /\
       input_ok w' /\ in_stream w' = skipn (Z.to_nat k) (in_stream w) /\
       w_out w' = w_out w) /\
    (len (in_stream w) < k ->
     exists w', c w = (Ok None, w') /\ w_out w' = w_out w).

(** Two bytes as a 16-bit value, the first byte lowest. *)
Definition le16 (bs : list Z) : Z := nth 0 bs 0 + 256 * nth 1 bs 0.

(** The twelve bytes of a sub-texture: width and height, then left, top,
    right and bottom in units of 1/1024. *)
Definition subtexture_of (bs : list Z) : Tex3DS_SubTexture :=
  {| st_width := le16 bs;
     st_height := le16 (skipn 2 bs);
     st_left := QArith_base.Qmake (le16 (skipn 4 bs)) 1024;
     st_top := QArith_base.Qmake (le16 (skipn 6 bs)) 1024;
     st_right := QArith_base.Qmake (le16 (skipn 8 bs)) 1024;
     st_bottom := QArith_base.Qmake (le16 (skipn 10 bs)) 1024 |}.

Fixpoint subtextures_of (k : nat) (bs : list Z) : list Tex3DS_SubTexture :=
  match k with
  | O => []
  | S k' => subtexture_of (firstn 12 bs) :: subtextures_of k' (skipn 12 bs)
  end.

(** The file behind the count of sub-textures: a byte of parameters
    (bits 0 to 2 and 3 to 5 are the logarithms of width and height, less
    three), the format, the number of mipmap levels, and the
    sub-textures. *)
Definition texture_of (n : Z) (bs : list Z) : Tex3DS_Texture_s :=
  {| t_numSubTextures := n;
     t_width := 2 ^ (nth 0 bs 0 mod 8 + 3);
     t_height := 2 ^ ((nth 0 bs 0 / 8) mod 8 + 3);
     t_format := nth 1 bs 0;
     t_mipmapLevels := nth 2 bs 0;
     t_subTextures := subtextures_of (Z.to_nat n) (skipn 3 bs) |}.

(** * Properties *)

(** ** Lists and sizes *)

Lemma len_nonneg {A : Type} (l : list A) : 0 <= len l.
Proof. unfold len. lia. Qed.

Lemma len_app {A : Type} (l1 l2 : list A) : len (l1 ++ l2) = len l1 + len l2.
Proof. unfold len. rewrite length_app. lia. Qed.

Lemma len_firstn {A : Type} (l : list A) (k : Z) :
  0 <= k <= len l -> len (firstn (Z.to_nat k) l) = k.
Proof. unfold len. intros H. rewrite length_firstn. lia. Qed.

Lemma len_skipn {A : Type} (l : list A) (k : Z) :
  0 <= k <= len l -> len (skipn (Z.to_nat k) l) = len l - k.
Proof. unfold len. intros H. rewrite length_skipn. lia. Qed.

Lemma len_repeat (v : Z) (k : Z) : 0 <= k -> len (repeat v (Z.to_nat k)) = k.
Proof. unfold len. intros H. rewrite repeat_length. lia. Qed.

Lemma splice_length (r : list Z) (off : Z) (bs : list Z) :
  0 <= off -> off + len bs <= len r -> length (splice r off bs) = length r.
Proof.
  unfold splice, len. intros H0 H1.
  rewrite !length_app, length_firstn, length_skipn. lia.
Qed.

Lemma splice_nil (r : list Z) (off : Z) : splice r off [] = r.
Proof.
  unfold splice. simpl. rewrite Nat.add_0_r. apply firstn_skipn.
Qed.

(** Splicing in the middle part of a list. *)
Lemma splice_middle (a r c : list Z) (off : Z) (bs : list Z) :
  0 <= off -> off + len bs <= len r ->
  splice (a ++ r ++ c) (len a + off) bs = a ++ splice r off bs ++ c.
Proof.
  unfold splice, len. intros H0 H1.
  replace (Z.to_nat (Z.of_nat (length a) + off))
    with (length a + Z.to_nat off)%nat by lia.
  rewrite firstn_app_2.
  rewrite <- Nat.add_assoc.
  rewrite skipn_app.
  rewrite skipn_all2 by lia.
  replace (length a + (Z.to_nat off + length bs) - length a)%nat
    with (Z.to_nat off + length bs)%nat by lia.
  rewrite firstn_app, skipn_app.
  replace (Z.to_nat off - length r)%nat with 0%nat by lia.
  replace (Z.to_nat off + length bs - length r)%nat with 0%nat by lia.
  simpl. rewrite app_nil_r, <- !app_assoc. reflexivity.
Qed.

(** Two adjacent splices are one. *)
Lemma splice_splice (l : list Z) (off : Z) (bs1 bs2 : list Z) :
  0 <= off -> off + len bs1 + len bs2 <= len l ->
  splice (splice l off bs1) (off + len bs1) bs2 = splice l off (bs1 ++ bs2).
Proof.
  unfold splice, len. intros H0 H1.
  replace (Z.to_nat (off + Z.of_nat (length bs1)))
    with (Z.to_nat off + length bs1)%nat by lia.
  assert (Hf : length (firstn (Z.to_nat off) l) = Z.to_nat off)
    by (rewrite length_firstn; lia).
  rewrite firstn_app, Hf.
  rewrite firstn_all2 by lia.
  replace (Z.to_nat off + length bs1 - Z.to_nat off)%nat
    with (length bs1) by lia.
  rewrite firstn_app, firstn_all, Nat.sub_diag. simpl.
  rewrite app_nil_r.
  rewrite skipn_app, Hf.
  rewrite (skipn_all2 (firstn _ _)) by lia.
  replace (Z.to_nat off + length bs1 + length bs2 - Z.to_nat off)%nat
    with (length bs1 + length bs2)%nat by lia.
  rewrite skipn_app.
  rewrite (skipn_all2 bs1) by lia.
  replace (length bs1 + length bs2 - length bs1)%nat with (length bs2) by lia.
  rewrite skipn_skipn. simpl.
  rewrite length_app.
  rewrite <- !app_assoc.
  do 3 f_equal. f_equal. lia.
Qed.

Lemma sum_sizes_app (l1 l2 : list Z) :
  sum_sizes (l1 ++ l2) = sum_sizes l1 + sum_sizes l2.
Proof.
  induction l1 as [|x l1 IH]; simpl; [reflexivity|]. rewrite IH. lia.
Qed.

Lemma sum_sizes_nonneg (l : list Z) :
  Forall (fun sz => 0 < sz) l -> 0 <= sum_sizes l.
Proof. induction 1; simpl; lia. Qed.

Lemma sum_sizes_firstn_S (iov : list Z) (k : nat) :
  (k < length iov)%nat ->
  sum_sizes (firstn (S k) iov) = sum_sizes (firstn k iov) + nth k iov 0.
Proof.
  revert k. induction iov as [|x iov IH]; intros k Hk; simpl in *; [lia|].
  destruct k as [|k]; simpl; [lia|].
  rewrite (IH k) by lia. simpl. lia.
Qed.

Lemma sum_sizes_firstn_le (iov : list Z) (k : nat) :
  Forall (fun sz => 0 < sz) iov ->
  sum_sizes (firstn k iov) <= sum_sizes iov.
Proof.
  intros H. rewrite <- (firstn_skipn k iov) at 2.
  rewrite sum_sizes_app.
  assert (0 <= sum_sizes (skipn k iov)).
  { apply sum_sizes_nonneg.
    rewrite <- (firstn_skipn k iov) in H. apply Forall_app in H. tauto. }
  lia.
Qed.

Lemma sum_sizes_concat (m : memory) : len (concat m) = sum_sizes (iov_of m).
Proof.
  induction m as [|r m IH]; simpl; [reflexivity|].
  rewrite len_app, IH. reflexivity.
Qed.

(** ** The iterator *)

Lemma regions_ok_nth (iov : list Z) (k : nat) :
  regions_ok iov -> (k < length iov)%nat -> 0 < nth k iov 0.
Proof.
  intros H Hk. unfold regions_ok in H. rewrite Forall_forall in H.
  apply H. apply nth_In. exact Hk.
Qed.

Lemma iov_at_ok (iov : list Z) (i : Z) :
  0 <= i < len iov -> iov_at iov i = Ok (nth (Z.to_nat i) iov 0).
Proof.
  intros H. unfold iov_at.
  destruct (Z.leb_spec 0 i); [|lia].
  destruct (Z.ltb_spec i (len iov)); [|lia]. reflexivity.
Qed.

Lemma iov_at_end (iov : list Z) : iov_at iov (len iov) = Err IovOutOfBounds.
Proof.
  unfold iov_at. rewrite Z.ltb_irrefl, andb_false_r. reflexivity.
Qed.

Lemma iov_check_ok (iov : list Z) (it : iov_iter) :
  it_ok iov it -> iov_check iov it = Ok (nth (Z.to_nat (it_num it)) iov 0).
Proof.
  intros [Hn Hp]. unfold iov_check.
  destruct (Z.ltb_spec (it_num it) (len iov)); [|lia]. simpl.
  rewrite iov_at_ok by lia. simpl.
  destruct (Z.ltb_spec (it_pos it) (nth (Z.to_nat (it_num it)) iov 0)); [|lia].
  reflexivity.
Qed.

Lemma iov_addr_ok (iov : list Z) (it : iov_iter) :
  it_ok iov it -> iov_addr iov it = Ok (it_num it, it_pos it).
Proof.
  intros H. unfold iov_addr. rewrite iov_check_ok by exact H. reflexivity.
Qed.

Lemma it_off_bound (iov : list Z) (it : iov_iter) :
  regions_ok iov -> it_ok iov it ->
  0 <= it_off iov it /\
  it_off iov it + (nth (Z.to_nat (it_num it)) iov 0 - it_pos it)
    <= sum_sizes iov.
Proof.
  intros Hr [Hn Hp]. unfold it_off, len in *.
  pose proof (sum_sizes_firstn_S iov (Z.to_nat (it_num it)) ltac:(lia)) as HS.
  pose proof (sum_sizes_firstn_le iov (S (Z.to_nat (it_num it))) Hr).
  assert (0 <= sum_sizes (firstn (Z.to_nat (it_num it)) iov)).
  { apply sum_sizes_nonneg.
    unfold regions_ok in Hr.
    rewrite <- (firstn_skipn (Z.to_nat (it_num it)) iov) in Hr.
    apply Forall_app in Hr. tauto. }
  lia.
Qed.

Lemma it_off_next (iov : list Z) (n : Z) :
  0 <= n < len iov ->
  it_off iov {| it_num := n + 1; it_pos := 0 |}
  = it_off iov {| it_num := n; it_pos := 0 |} + nth (Z.to_nat n) iov 0.
Proof.
  intros H. unfold it_off, len in *. simpl.
  replace (Z.to_nat (n + 1)) with (S (Z.to_nat n)) by lia.
  rewrite sum_sizes_firstn_S by lia. lia.
Qed.

Lemma it_off_end (iov : list Z) (it : iov_iter) :
  it_end iov it -> it_off iov it = sum_sizes iov.
Proof.
  intros [Hn Hp]. unfold it_off, len in *. rewrite Hn, Hp.
  rewrite Nat2Z.id, firstn_all. lia.
Qed.

(** [iov_add] inside the vector lands on a byte [size] further on; an
    [iov_add] that reaches the end of the last region, or passes it,
    evaluates [iov[cnt]]. *)
Lemma iov_add_loop_spec (iov : list Z) :
  regions_ok iov ->
  forall (fuel : nat) (it : iov_iter) (size : Z),
    (Z.to_nat (len iov - it_num it) < fuel)%nat ->
    it_ok iov it -> 0 <= size ->
    (it_off iov it + size < sum_sizes iov ->
     exists it', iov_add_loop fuel iov it size = Ok it' /\
                 it_ok iov it' /\ it_off iov it' = it_off iov it + size) /\
    (sum_sizes iov <= it_off iov it + size ->
     iov_add_loop fuel iov it size = Err IovOutOfBounds).
Proof.
  intros Hr. induction fuel as [|fuel IH]; intros it size Hf Hok Hs; [lia|].
  pose proof (it_off_bound iov it Hr Hok) as Hb.
  destruct Hok as [Hn Hp].
  cbn [iov_add_loop].
  destruct (Z.leb_spec (it_num it) (len iov)); [|lia]. cbn [assert rbind].
  rewrite iov_at_ok by lia. cbn [rbind].
  set (sz := nth (Z.to_nat (it_num it)) iov 0) in *.
  destruct (Z.gtb_spec sz (it_pos it)); [|lia]. cbn [assert rbind].
  assert (Hoff : it_off iov it
                 = it_off iov {| it_num := it_num it; it_pos := 0 |} + it_pos it)
    by (unfold it_off; simpl; lia).
  pose proof (it_off_next iov (it_num it) Hn) as Hnext. fold sz in Hnext.
  destruct (Z.gtb_spec (sz - it_pos it) size) as [Hin|Hout].
  - split; intros H1; [|lia].
    eexists. split; [reflexivity|]. split.
    + split; simpl; [lia|]. fold sz. lia.
    + unfold it_off in *. simpl in *. lia.
  - set (it1 := {| it_num := it_num it + 1; it_pos := 0 |}) in *.
    destruct (Z.eq_dec (it_num it + 1) (len iov)) as [Hlast|Hmore].
    + (* the region was the last one *)
      assert (He : it_off iov it1 = sum_sizes iov)
        by (apply it_off_end; split; [exact Hlast|reflexivity]).
      split; intros H1; [lia|].
      destruct fuel as [|fuel]; [lia|].
      cbn [iov_add_loop]. simpl it_num. rewrite Hlast.
      rewrite Z.leb_refl. cbn [assert rbind].
      rewrite iov_at_end. reflexivity.
    + assert (Hok1 : it_ok iov it1).
      { split; simpl; [lia|].
        split; [lia|]. apply regions_ok_nth; [exact Hr|unfold len in *; lia]. }
      destruct (IH it1 (size - (sz - it_pos it))) as [IH1 IH2];
        [simpl; lia|exact Hok1|lia|].
      split; intros H1.
      * destruct IH1 as [it' [E [Hok' Hoff']]]; [lia|].
        exists it'. split; [exact E|]. split; [exact Hok'|]. lia.
      * apply IH2. lia.
Qed.

Lemma iov_add_inside (iov : list Z) (it : iov_iter) (size : Z) :
  regions_ok iov -> it_ok iov it -> 0 <= size ->
  it_off iov it + size < sum_sizes iov ->
  exists it', iov_add iov it size = Ok it' /\
              it_ok iov it' /\ it_off iov it' = it_off iov it + size.
Proof.
  intros Hr Hok Hs H.
  apply (iov_add_loop_spec iov Hr (S (length iov)) it size); try assumption.
  destruct Hok as [Hn _]. unfold len in *. lia.
Qed.

Lemma iov_add_past_end (iov : list Z) (it : iov_iter) (size : Z) :
  regions_ok iov -> it_ok iov it -> 0 <= size ->
  sum_sizes iov <= it_off iov it + size ->
  iov_add iov it size = Err IovOutOfBounds.
Proof.
  intros Hr Hok Hs H.
  apply (iov_add_loop_spec iov Hr (S (length iov)) it size); try assumption.
  destruct Hok as [Hn _]. unfold len in *. lia.
Qed.

(** [iov_increment] moves one byte on; after the last byte it leaves the
    iterator at [(cnt, 0)] and reads nothing more. *)
Lemma iov_increment_spec (iov : list Z) (it : iov_iter) :
  regions_ok iov -> it_ok iov it ->
  exists it', iov_increment iov it = Ok it' /\
              it_off iov it' = it_off iov it + 1 /\
              (it_ok iov it' \/ it_end iov it').
Proof.
  intros Hr Hok. unfold iov_increment.
  rewrite iov_check_ok by exact Hok. cbn [rbind].
  destruct Hok as [Hn Hp].
  set (sz := nth (Z.to_nat (it_num it)) iov 0) in *.
  pose proof (it_off_next iov (it_num it) Hn) as Hnext. fold sz in Hnext.
  destruct (Z.eqb_spec (it_pos it + 1) sz) as [E|E].
  - eexists. split; [reflexivity|]. split.
    + unfold it_off in *. simpl in *. lia.
    + destruct (Z.eq_dec (it_num it + 1) (len iov)) as [Hlast|Hmore].
      * right. split; simpl; [exact Hlast|reflexivity].
      * left. split; simpl; [lia|].
        split; [lia|]. apply regions_ok_nth; [exact Hr|unfold len in *; lia].
  - eexists. split; [reflexivity|]. split.
    + unfold it_off. simpl. lia.
    + left. split; simpl; [lia|]. fold sz. lia.
Qed.

(** ** Stores in the regions

    The logical output stream is the concatenation of the regions.  A
    store through the iterator that stays in the current region is a
    splice of the stream at the iterator's position, and leaves the sizes
    alone. *)

Lemma nth_error_split {A : Type} (l : list A) (k : nat) (x : A) :
  nth_error l k = Some x -> l = firstn k l ++ x :: skipn (S k) l.
Proof.
  revert k. induction l as [|y l IH]; intros [|k] H; simpl in *;
    try discriminate.
  - congruence.
  - f_equal. apply IH. exact H.
Qed.

Lemma iov_of_nth (m : memory) (k : nat) (r : region) :
  nth_error m k = Some r -> nth k (iov_of m) 0 = len r.
Proof.
  intros H. unfold iov_of.
  change 0 with (@len Z []). rewrite map_nth.
  rewrite (nth_error_nth _ _ _ H). reflexivity.
Qed.

Lemma store_bytes_flat (m : memory) (it : iov_iter) (bs : list Z) :
  it_ok (iov_of m) it ->
  len bs <= nth (Z.to_nat (it_num it)) (iov_of m) 0 - it_pos it ->
  exists m', store_bytes m (it_num it, it_pos it) bs = Ok m' /\
             iov_of m' = iov_of m /\
             concat m' = splice (concat m) (it_off (iov_of m) it) bs.
Proof.
  intros [Hn Hp] Hb.
  assert (Hlen : len (iov_of m) = len m)
    by (unfold iov_of, len; rewrite length_map; reflexivity).
  destruct (nth_error m (Z.to_nat (it_num it))) as [r|] eqn:E;
    [|apply nth_error_None in E; unfold len in *; lia].
  rewrite (iov_of_nth _ _ _ E) in Hp, Hb.
  unfold store_bytes. simpl fst. simpl snd.
  destruct (Z.leb_spec 0 (it_num it)); [|lia].
  rewrite E. unfold poke.
  destruct (Z.leb_spec 0 (it_pos it)); [|lia].
  destruct (Z.leb_spec (it_pos it + len bs) (len r)); [|lia].
  cbn [andb rbind].
  eexists. split; [reflexivity|].
  pose proof (nth_error_split _ _ _ E) as Hm.
  assert (Hoff : it_off (iov_of m) it
                 = len (concat (firstn (Z.to_nat (it_num it)) m)) + it_pos it).
  { unfold it_off, iov_of. rewrite firstn_map.
    fold (iov_of (firstn (Z.to_nat (it_num it)) m)).
    rewrite sum_sizes_concat. reflexivity. }
  rewrite Hoff.
  remember (firstn (Z.to_nat (it_num it)) m) as pre.
  remember (skipn (S (Z.to_nat (it_num it))) m) as post.
  rewrite Hm.
  split.
  - unfold iov_of. rewrite !map_app. simpl.
    do 2 f_equal. unfold len. rewrite splice_length by (unfold len in *; lia).
    reflexivity.
  - rewrite !concat_app. simpl.
    rewrite splice_middle by lia. reflexivity.
Qed.

Lemma store_flat (m : memory) (it : iov_iter) (v : Z) :
  regions_ok (iov_of m) -> it_ok (iov_of m) it ->
  exists m', store m (it_num it, it_pos it) v = Ok m' /\
             iov_of m' = iov_of m /\
             concat m' = splice (concat m) (it_off (iov_of m) it) [v].
Proof.
  intros Hr Hok. apply store_bytes_flat; [exact Hok|].
  destruct Hok as [_ Hp]. unfold len. simpl. lia.
Qed.

(** ** The buffer over [callback_fd] *)

(** A schedule of partial fills, all of them positive, hands over the
    whole file, whatever the sizes of the fills. *)
Lemma fd_supply_partial (limit : Z) (sched file : list Z) :
  0 < limit -> Forall (fun q => 0 < q) sched ->
  fd_supply limit sched file = file.
Proof.
  intros Hl Hs. revert file.
  induction Hs as [|q sched Hq Hs IH]; intros file; simpl.
  - destruct (Z.ltb_spec 0 limit); [reflexivity|lia].
  - destruct (Z.leb_spec (Z.min (Z.min limit q) (len file)) 0) as [Hk|Hk].
    + destruct file; [reflexivity|]. unfold len in Hk. simpl in Hk. lia.
    + rewrite IH. apply firstn_skipn.
Qed.

Lemma wrap_small (z : Z) : 0 <= z <= SIZE_MAX -> wrap z = z.
Proof.
  unfold wrap, SIZE_MAX. intros H. apply Z.mod_small. lia.
Qed.

Lemma len_resident (b : Tex3DS_Buffer) :
  buffer_ok b -> len (resident b) = b_size b - b_pos b.
Proof.
  intros (Hp & Hs & _). unfold resident.
  apply len_firstn. rewrite len_skipn by lia. lia.
Qed.

Lemma slice_ok (l : list Z) (pos n : Z) :
  0 <= pos -> 0 <= n -> pos + n <= len l ->
  slice l pos n = Ok (firstn (Z.to_nat n) (skipn (Z.to_nat pos) l)).
Proof.
  intros H0 H1 H2. unfold slice.
  destruct (Z.leb_spec 0 pos); [|lia].
  destruct (Z.leb_spec 0 n); [|lia].
  destruct (Z.leb_spec (pos + n) (len l)); [|lia]. reflexivity.
Qed.

(** What one call of [callback_fd] does to the supply. *)
Lemma callback_fd_supply (u : fd_state) (data : list Z) (limit : Z) :
  forall rc data' u',
    callback_fd u data limit = (rc, data', u') ->
    (rc <= 0 /\ fd_supply limit (fd_sched u) (fd_file u) = []) \/
    (0 < rc <= limit /\
     exists chunk,
       len chunk = rc /\ data' = splice data 0 chunk /\
       fd_supply limit (fd_sched u) (fd_file u)
       = chunk ++ fd_supply limit (fd_sched u') (fd_file u')).
Proof.
  intros rc data' u'. unfold callback_fd.
  destruct u as [file sched]. simpl.
  destruct sched as [|q sched]; simpl.
  - unfold fd_deliver. intros E. inversion E; subst; clear E. simpl.
    pose proof (len_nonneg file).
    destruct (Z.ltb_spec 0 limit) as [Hl|Hl].
    + destruct (Z.leb_spec (Z.min limit (len file)) 0) as [Hk|Hk].
      * left. split; [exact Hk|].
        destruct file; [reflexivity|]. unfold len in *. simpl in *. lia.
      * right. split; [lia|].
        exists (firstn (Z.to_nat (Z.min limit (len file))) file).
        split; [apply len_firstn; lia|]. split; [reflexivity|].
        symmetry. apply firstn_skipn.
    + left. split; [lia|reflexivity].
  - destruct (Z.ltb_spec q 0) as [Hq|Hq].
    + intros E. inversion E; subst; clear E. left. split; [lia|].
      destruct (Z.leb_spec (Z.min (Z.min limit q) (len file)) 0);
        [reflexivity|lia].
    + unfold fd_deliver. intros E. inversion E; subst; clear E. simpl.
      pose proof (len_nonneg file).
      destruct (Z.leb_spec (Z.min (Z.min limit q) (len file)) 0) as [Hk|Hk].
      * left. split; [exact Hk|reflexivity].
      * right. split; [lia|].
        exists (firstn (Z.to_nat (Z.min (Z.min limit q) (len file))) file).
        split; [apply len_firstn; lia|]. split; reflexivity.
Qed.

Lemma firstn_app_le {A : Type} (k : nat) (l1 l2 : list A) :
  (k <= length l1)%nat -> firstn k (l1 ++ l2) = firstn k l1.
Proof.
  intros H. rewrite firstn_app.
  replace (k - length l1)%nat with 0%nat by lia.
  simpl. apply app_nil_r.
Qed.

Lemma skipn_app_le {A : Type} (k : nat) (l1 l2 : list A) :
  (k <= length l1)%nat -> skipn k (l1 ++ l2) = skipn k l1 ++ l2.
Proof.
  intros H. rewrite skipn_app.
  replace (k - length l1)%nat with 0%nat by lia. reflexivity.
Qed.

Lemma firstn_app_ge {A : Type} (k : nat) (l1 l2 : list A) :
  (length l1 <= k)%nat ->
  firstn k (l1 ++ l2) = l1 ++ firstn (k - length l1) l2.
Proof.
  intros H. rewrite firstn_app. rewrite firstn_all2 by lia. reflexivity.
Qed.

Lemma skipn_app_ge {A : Type} (k : nat) (l1 l2 : list A) :
  (length l1 <= k)%nat ->
  skipn k (l1 ++ l2) = skipn (k - length l1) l2.
Proof.
  intros H. rewrite skipn_app. rewrite skipn_all2 by lia. reflexivity.
Qed.

(** [Tex3DS_BufferRead] over [callback_fd]: a request the input can
    satisfy is answered with the next [size] bytes of the input, and a
    longer one fails after copying what there was. *)
Lemma BufferRead_loop_fd :
  forall (fuel : nat) (b : Tex3DS_Buffer) (u : fd_state) (dest : list Z)
         (size : Z),
    buffer_ok b -> 0 <= size <= SIZE_MAX ->
    (size < Z.of_nat fuel \/
     (size <= Z.of_nat fuel /\ 0 < b_size b - b_pos b)) ->
    (size <= len (resident b ++ supply b u) ->
     exists b' u',
       BufferRead_loop fd_state callback_fd fuel b u dest size
       = (Ok (true, dest ++ firstn (Z.to_nat size) (resident b ++ supply b u)),
          b', u') /\
       buffer_ok b' /\
       resident b' ++ supply b' u'
       = skipn (Z.to_nat size) (resident b ++ supply b u) /\
       b_total b' = b_total b /\ b_limit b' = b_limit b) /\
    (len (resident b ++ supply b u) < size ->
     exists b' u',
       BufferRead_loop fd_state callback_fd fuel b u dest size
       = (Ok (false, dest ++ resident b ++ supply b u), b', u') /\
       b_total b' = b_total b).
Proof.
  induction fuel as [|fuel IH]; intros b u dest size Hb Hs Hf.
  - (* no round: the request is empty *)
    assert (size = 0) by lia. subst size. simpl.
    split; intros Hn; [|pose proof (len_nonneg (resident b ++ supply b u)); lia].
    exists b, u. rewrite app_nil_r. repeat split; try reflexivity; apply Hb.
  - cbn [BufferRead_loop].
    destruct (Z.gtb_spec size 0) as [Hpos|Hzero]; cbn [negb].
    2:{ assert (size = 0) by lia. subst size. simpl.
        split; intros Hn;
          [|pose proof (len_nonneg (resident b ++ supply b u)); lia].
        exists b, u. rewrite app_nil_r.
        repeat split; try reflexivity; apply Hb. }
    pose proof (len_resident b Hb) as Hres.
    destruct Hb as (Hp & Hsz & Hlim & Hmax).
    rewrite (wrap_small (b_size b - b_pos b)) by lia.
    destruct (Z.leb_spec size (b_size b - b_pos b)) as [Hin|Hout].
    + (* entire request is in our buffer *)
      rewrite slice_ok by lia.
      split; intros Hn; [|rewrite len_app in Hn; pose proof (len_nonneg (supply b u)); lia].
      eexists. exists u. split; [|split; [|split; [|split]]].
      * rewrite firstn_app_le by (unfold len in *; lia).
        unfold resident. rewrite firstn_firstn.
        replace (Nat.min (Z.to_nat size) (Z.to_nat (b_size b - b_pos b)))
          with (Z.to_nat size) by lia.
        reflexivity.
      * unfold buffer_ok. simpl. rewrite wrap_small by lia. lia.
      * rewrite skipn_app_le by (unfold len in *; lia).
        f_equal. unfold resident. simpl. rewrite wrap_small by lia.
        rewrite skipn_firstn_comm. rewrite skipn_skipn.
        f_equal; [lia|f_equal; lia].
      * reflexivity.
      * reflexivity.
    + (* copy partial data, then fetch some more *)
      assert (Hbs : (if negb (b_pos b =? b_size b)
                     then slice (b_data b) (b_pos b) (b_size b - b_pos b)
                     else Ok []) = Ok (resident b)).
      { destruct (Z.eqb_spec (b_pos b) (b_size b)) as [E|E]; cbn [negb].
        - unfold resident. rewrite E, Z.sub_diag. reflexivity.
        - rewrite slice_ok by lia. reflexivity. }
      rewrite Hbs.
      assert (Hsize : (if negb (b_pos b =? b_size b)
                       then wrap (size - (b_size b - b_pos b)) else size)
                      = size - (b_size b - b_pos b)).
      { destruct (Z.eqb_spec (b_pos b) (b_size b)) as [E|E]; cbn [negb].
        - lia.
        - apply wrap_small. lia. }
      rewrite Hsize.
      destruct (callback_fd u (b_data b) (b_limit b)) as [[rc data'] u'] eqn:Ecb.
      destruct (callback_fd_supply _ _ _ _ _ _ Ecb)
        as [[Hrc Hsup]|[Hrc [chunk [Hlen [Hdata Hsup]]]]].
      * (* end of input, or an error *)
        destruct (Z.leb_spec rc 0); [|lia].
        unfold supply. rewrite Hsup, app_nil_r.
        split; intros Hn; [lia|].
        eexists. eexists. split; reflexivity.
      * destruct (Z.leb_spec rc 0); [lia|].
        rewrite (wrap_small rc) by lia. cbn [b_limit b_total].
        set (b1 := {| b_data := data'; b_limit := b_limit b; b_size := rc;
                      b_pos := 0; b_total := b_total b |}).
        assert (Hdl : length data' = length (b_data b)).
        { rewrite Hdata. apply splice_length; lia. }
        assert (Hb1 : buffer_ok b1).
        { unfold buffer_ok, b1, len in *. simpl. rewrite Hdl. lia. }
        assert (Hres1 : resident b1 = chunk).
        { unfold resident, b1. simpl. rewrite Hdata.
          unfold splice. simpl. rewrite Z.sub_0_r.
          rewrite firstn_app_le by (unfold len in *; lia).
          apply firstn_all2. unfold len in *. lia. }
        assert (Hs1 : resident b1 ++ supply b1 u' = supply b u).
        { rewrite Hres1. unfold supply. simpl. symmetry. exact Hsup. }
        destruct (IH b1 u' (dest ++ resident b) (size - (b_size b - b_pos b)))
          as [IH1 IH2]; [exact Hb1|lia|simpl; lia|].
        rewrite Hs1 in IH1, IH2.
        rewrite len_app, Hres.
        split; intros Hn.
        -- destruct IH1 as (b' & u'' & E & Hok & Hst & Htot & Hl); [lia|].
           exists b', u''. rewrite E.
           split; [|split; [exact Hok|split; [|split; [exact Htot|exact Hl]]]].
           ++ rewrite firstn_app_ge by (unfold len in *; lia).
              rewrite <- app_assoc.
              replace (Z.to_nat size - length (resident b))%nat
                with (Z.to_nat (size - (b_size b - b_pos b)))
                by (unfold len in *; lia).
              reflexivity.
           ++ rewrite Hst. rewrite skipn_app_ge by (unfold len in *; lia).
              f_equal. unfold len in *. lia.
        -- destruct IH2 as (b' & u'' & E & Htot); [lia|].
           exists b', u''. rewrite E. rewrite <- app_assoc.
           split; [reflexivity|exact Htot].
Qed.

Lemma BufferRead_stream (w : world fd_state) (size : Z) :
  input_ok w -> 0 <= size <= SIZE_MAX -> size <= len (in_stream w) ->
  exists w',
    Tex3DS_BufferRead callback_fd size w
    = (Ok (true, firstn (Z.to_nat size) (in_stream w)), w') /\
    input_ok w' /\ in_stream w' = skipn (Z.to_nat size) (in_stream w) /\
    w_out w' = w_out w /\
    b_total (w_buf w') = b_total (w_buf w).
Proof.
  intros Hb Hs Hn. unfold Tex3DS_BufferRead.
  destruct (BufferRead_loop_fd (S (Z.to_nat size)) (w_buf w) (w_user w) []
              size Hb Hs ltac:(lia)) as [H1 _].
  destruct (H1 Hn) as (b' & u' & E & Hok & Hst & Htot & _).
  rewrite E. eexists. split; [reflexivity|].
  repeat split; try assumption; apply Hok.
Qed.

Lemma BufferRead_short (w : world fd_state) (size : Z) :
  input_ok w -> 0 <= size <= SIZE_MAX -> len (in_stream w) < size ->
  exists w',
    Tex3DS_BufferRead callback_fd size w = (Ok (false, in_stream w), w') /\
    w_out w' = w_out w /\
    b_total (w_buf w') = b_total (w_buf w).
Proof.
  intros Hb Hs Hn. unfold Tex3DS_BufferRead.
  destruct (BufferRead_loop_fd (S (Z.to_nat size)) (w_buf w) (w_user w) []
              size Hb Hs ltac:(lia)) as [_ H2].
  destruct (H2 Hn) as (b' & u' & E & Htot).
  rewrite E. eexists. split; [reflexivity|]. split; [reflexivity|exact Htot].
Qed.

Lemma BufferGet_stream (w : world fd_state) (v : Z) (rest : list Z) :
  input_ok w -> in_stream w = v :: rest ->
  exists w',
    Tex3DS_BufferGet callback_fd w = (Ok (true, [v]), w') /\
    input_ok w' /\ in_stream w' = rest /\ w_out w' = w_out w.
Proof.
  intros Hb Hst. unfold Tex3DS_BufferGet.
  destruct (Z.ltb_spec (b_pos (w_buf w)) (b_size (w_buf w))) as [Hfast|Hslow].
  - pose proof (len_resident _ Hb) as Hres.
    destruct Hb as (Hp & Hsz & Hlim & Hmax).
    rewrite slice_ok by lia.
    unfold in_stream in Hst.
    destruct (resident (w_buf w)) as [|x r] eqn:Er;
      [unfold len in Hres; simpl in Hres; lia|].
    simpl in Hst. inversion Hst; subst x rest; clear Hst.
    assert (Hsplit : skipn (Z.to_nat (b_pos (w_buf w))) (b_data (w_buf w))
                     = v :: skipn (Z.to_nat (b_pos (w_buf w) + 1))
                              (b_data (w_buf w))).
    { unfold resident in Er.
      destruct (skipn (Z.to_nat (b_pos (w_buf w))) (b_data (w_buf w)))
        as [|y l] eqn:El.
      - rewrite firstn_nil in Er. discriminate.
      - replace (Z.to_nat (b_size (w_buf w) - b_pos (w_buf w)))
          with (S (Z.to_nat (b_size (w_buf w) - b_pos (w_buf w) - 1)))
          in Er by lia.
        simpl in Er. inversion Er; subst y.
        f_equal.
        replace (Z.to_nat (b_pos (w_buf w) + 1))
          with (1 + Z.to_nat (b_pos (w_buf w)))%nat by lia.
        rewrite <- skipn_skipn, El. reflexivity. }
    rewrite Hsplit. simpl firstn.
    eexists. split; [reflexivity|].
    split; [|split; [|reflexivity]].
    + unfold input_ok, buffer_ok. simpl. rewrite wrap_small by lia. lia.
    + unfold in_stream, supply, resident. simpl.
      rewrite wrap_small by lia. f_equal.
      unfold resident in Er. rewrite Hsplit in Er.
      replace (Z.to_nat (b_size (w_buf w) - b_pos (w_buf w)))
        with (S (Z.to_nat (b_size (w_buf w) - (b_pos (w_buf w) + 1))))
        in Er by lia.
      simpl in Er. inversion Er. reflexivity.
  - destruct (BufferRead_stream w 1 Hb) as (w' & E & Hok & Hs' & Ho & _).
    + unfold SIZE_MAX, size_bits. simpl. lia.
    + rewrite Hst. unfold len. simpl. lia.
    + rewrite E, Hst. simpl. exists w'.
      rewrite Hs', Hst. simpl. auto.
Qed.

Lemma BufferGet_eof (w : world fd_state) :
  input_ok w -> in_stream w = [] ->
  exists w',
    Tex3DS_BufferGet callback_fd w = (Ok (false, []), w') /\
    w_out w' = w_out w.
Proof.
  intros Hb Hst. unfold Tex3DS_BufferGet.
  pose proof (len_resident _ Hb) as Hres.
  unfold in_stream in Hst. apply app_eq_nil in Hst. destruct Hst as [Hr Hsup].
  rewrite Hr in Hres. unfold len in Hres. simpl in Hres.
  destruct (Z.ltb_spec (b_pos (w_buf w)) (b_size (w_buf w))); [lia|].
  destruct (BufferRead_short w 1 Hb) as (w' & E & Ho & _).
  - unfold SIZE_MAX, size_bits. simpl. lia.
  - unfold in_stream. rewrite Hr, Hsup. unfold len. simpl. lia.
  - rewrite E. unfold in_stream. rewrite Hr, Hsup. simpl.
    exists w'. auto.
Qed.

Lemma get_var_stream (w : world fd_state) (v : Z) (rest : list Z) :
  input_ok w -> in_stream w = v :: rest ->
  exists w',
    get_var callback_fd w = (Ok (Some v), w') /\
    input_ok w' /\ in_stream w' = rest /\ w_out w' = w_out w.
Proof.
  intros Hb Hst.
  destruct (BufferGet_stream w v rest Hb Hst) as (w' & E & H).
  exists w'. split; [|exact H].
  unfold get_var, bind. rewrite E. reflexivity.
Qed.

Lemma get_var_eof (w : world fd_state) :
  input_ok w -> in_stream w = [] ->
  exists w', get_var callback_fd w = (Ok None, w') /\ w_out w' = w_out w.
Proof.
  intros Hb Hst.
  destruct (BufferGet_eof w Hb Hst) as (w' & E & H).
  exists w'. split; [|exact H].
  unfold get_var, bind. rewrite E. reflexivity.
Qed.

(** ** [total], the count of consumed bytes *)

Lemma BufferRead_loop_total (U : Type) (cb : U -> list Z -> Z -> Z * list Z * U) :
  forall (fuel : nat) (b : Tex3DS_Buffer) (u : U) (dest : list Z) (size : Z),
    b_total (snd (fst (BufferRead_loop U cb fuel b u dest size))) = b_total b.
Proof.
  induction fuel as [|fuel IH]; intros b u dest size; cbn [BufferRead_loop].
  - destruct (negb (size >? 0)); reflexivity.
  - destruct (negb (size >? 0)); [reflexivity|].
    destruct (size <=? wrap (b_size b - b_pos b)).
    + destruct (slice (b_data b) (b_pos b) size); reflexivity.
    + destruct (if negb (b_pos b =? b_size b)
                then slice (b_data b) (b_pos b) (wrap (b_size b - b_pos b))
                else Ok []); [|reflexivity].
      destruct (cb u (b_data b) (b_limit b)) as [[rc data] u'].
      destruct (rc <=? 0); [reflexivity|].
      rewrite IH. reflexivity.
Qed.

(** C4 (the code does not do this).  No call of [Tex3DS_BufferRead],
    whatever the source, the request and the state, changes [total]: the
    bytes it delivers are not counted.  A buffer with four resident bytes
    delivers two of them and keeps [total] at 0; a [Tex3DS_BufferGet] that
    has to refill delivers its byte and keeps [total] at 0 as well, while
    the fast path of [Tex3DS_BufferGet] counts its byte. *)
Theorem C4_BufferRead_does_not_count :
  (forall (U : Type) (cb : U -> list Z -> Z -> Z * list Z * U) (size : Z)
          (w : world U),
      b_total (w_buf (snd (Tex3DS_BufferRead cb size w))) = b_total (w_buf w)) /\
  (let w := {| w_buf := {| b_data := [1; 2; 3; 4]; b_limit := 4; b_size := 4;
                           b_pos := 0; b_total := 0 |};
               w_user := {| fd_file := []; fd_sched := [] |};
               w_out := [] |} in
   fst (Tex3DS_BufferRead callback_fd 2 w) = Ok (true, [1; 2]) /\
   b_total (w_buf (snd (Tex3DS_BufferRead callback_fd 2 w))) = 0 /\
   fst (Tex3DS_BufferGet callback_fd w) = Ok (true, [1]) /\
   b_total (w_buf (snd (Tex3DS_BufferGet callback_fd w))) = 1) /\
  (let w := fd_world 4 [7; 8] [] [] in
   fst (Tex3DS_BufferGet callback_fd w) = Ok (true, [7]) /\
   b_total (w_buf (snd (Tex3DS_BufferGet callback_fd w))) = 0).
Proof.
  split; [|split].
  - intros U cb size w. unfold Tex3DS_BufferRead.
    pose proof (BufferRead_loop_total U cb (S (Z.to_nat size)) (w_buf w)
                  (w_user w) [] size) as H.
    destruct (BufferRead_loop U cb (S (Z.to_nat size)) (w_buf w) (w_user w)
                [] size) as [[r b'] u'].
    exact H.
  - vm_compute. repeat split.
  - vm_compute. repeat split.
Qed.

(** ** [Tex3DS_BufferRead] as [read_exact] *)

(** C5.  A request of [size] bytes is answered from the resident bytes
    first and then from what the source hands over, refill after refill,
    before its first call that returns [0] or a negative value: when
    those bytes suffice the call succeeds and delivers the first [size]
    of them, leaving the rest as the input to come; when they do not, the
    call fails, and its result is only [false].  A source that delivers
    the file in partial fills of any positive sizes therefore gives the
    same bytes as one that delivers full blocks. *)
Theorem C5_read_exact :
  forall (b : Tex3DS_Buffer) (u : fd_state) (out : memory) (size : Z),
    buffer_ok b -> 0 <= size <= SIZE_MAX ->
    let w := {| w_buf := b; w_user := u; w_out := out |} in
    (size <= len (resident b ++ supply b u) ->
     exists w',
       Tex3DS_BufferRead callback_fd size w
       = (Ok (true, firstn (Z.to_nat size) (resident b ++ supply b u)), w') /\
       input_ok w' /\
       in_stream w' = skipn (Z.to_nat size) (resident b ++ supply b u)) /\
    (len (resident b ++ supply b u) < size ->
     exists bs w',
       Tex3DS_BufferRead callback_fd size w = (Ok (false, bs), w')) /\
    (0 < b_limit b -> size <= len (resident b ++ fd_file u) ->
     forall sched : list Z,
       Forall (fun q => 0 < q) sched ->
       fst (Tex3DS_BufferRead callback_fd size
              {| w_buf := b;
                 w_user := {| fd_file := fd_file u; fd_sched := sched |};
                 w_out := out |})
       = Ok (true, firstn (Z.to_nat size) (resident b ++ fd_file u))).
Proof.
  intros b u out size Hb Hs w.
  split; [|split].
  - intros Hn.
    destruct (BufferRead_stream w size Hb Hs Hn) as (w' & E & Hok & Hst & _).
    exists w'. auto.
  - intros Hn.
    destruct (BufferRead_short w size Hb Hs Hn) as (w' & E & _).
    eexists. exists w'. exact E.
  - intros Hl Hn sched Hsched.
    set (w1 := {| w_buf := b;
                  w_user := {| fd_file := fd_file u; fd_sched := sched |};
                  w_out := out |}).
    assert (Hst : in_stream w1 = resident b ++ fd_file u).
    { unfold in_stream, supply, w1. simpl.
      rewrite fd_supply_partial by assumption. reflexivity. }
    destruct (BufferRead_stream w1 size Hb Hs) as (w' & E & _).
    + rewrite Hst. exact Hn.
    + rewrite E, Hst. reflexivity.
Qed.

(** A buffer of four bytes with one resident byte, over a file of five
    bytes delivered one, two and then up to four bytes at a time. *)
Lemma C5_read_exact_witness :
  exists w',
    Tex3DS_BufferRead callback_fd 5
      {| w_buf := {| b_data := [9; 10; 0; 0]; b_limit := 4; b_size := 2;
                     b_pos := 1; b_total := 0 |};
         w_user := {| fd_file := [11; 12; 13; 14; 15]; fd_sched := [1; 2] |};
         w_out := [] |}
    = (Ok (true, [10; 11; 12; 13; 14]), w') /\
    input_ok w' /\ in_stream w' = [15].
Proof.
  refine (proj1 (C5_read_exact
                   {| b_data := [9; 10; 0; 0]; b_limit := 4; b_size := 2;
                      b_pos := 1; b_total := 0 |}
                   {| fd_file := [11; 12; 13; 14; 15]; fd_sched := [1; 2] |}
                   [] 5 _ _) _).
  - unfold buffer_ok. vm_compute. intuition discriminate.
  - vm_compute. intuition discriminate.
  - vm_compute. discriminate.
Defined.

(** ** The head of an LZ11 compressed block *)

Ltac take_byte w v Hb Hst w1 Hb1 Hst1 Ho1 :=
  let E := fresh "E" in
  destruct (get_var_stream w v _ Hb Hst) as (w1 & E & Hb1 & Hst1 & Ho1);
  unfold bind at 1; rewrite E; clear E.

(** [lz11_block] on an input that starts with the bytes of a block: the
    bytes consumed and the values of [len] and [disp] in the three cases
    of the [switch]. *)
Lemma lz11_block_stream :
  forall (w : world fd_state) (d0 : Z) (rest : list Z),
    input_ok w -> in_stream w = d0 :: rest ->
    (Z.shiftr d0 4 = 0 ->
     forall d1 d2 tl, rest = d1 :: d2 :: tl ->
       exists w',
         lz11_block callback_fd w
         = (Ok (Some (Z.lor (Z.shiftl d0 4) (Z.shiftr d1 4) + 17,
                      Z.lor (Z.shiftl (Z.land d1 15) 8) d2)), w') /\
         input_ok w' /\ in_stream w' = tl /\ w_out w' = w_out w) /\
    (Z.shiftr d0 4 = 1 ->
     forall d1 d2 d3 tl, rest = d1 :: d2 :: d3 :: tl ->
       exists w',
         lz11_block callback_fd w
         = (Ok (Some (Z.lor (Z.lor (Z.shiftl (Z.land d0 15) 12) (Z.shiftl d1 4))
                            (Z.shiftr d2 4) + 273,
                      Z.lor (Z.shiftl (Z.land d2 15) 8) d3)), w') /\
         input_ok w' /\ in_stream w' = tl /\ w_out w' = w_out w) /\
    (Z.shiftr d0 4 <> 0 -> Z.shiftr d0 4 <> 1 ->
     forall d1 tl, rest = d1 :: tl ->
       exists w',
         lz11_block callback_fd w
         = (Ok (Some (Z.shiftr d0 4 + 1,
                      Z.lor (Z.shiftl (Z.land d0 15) 8) d1)), w') /\
         input_ok w' /\ in_stream w' = tl /\ w_out w' = w_out w).
Proof.
  intros w d0 rest Hb Hst.
  split; [|split].
  - intros Hn d1 d2 tl ->. unfold lz11_block.
    take_byte w d0 Hb Hst w1 Hb1 Hst1 Ho1. rewrite Hn.
    take_byte w1 d1 Hb1 Hst1 w2 Hb2 Hst2 Ho2.
    take_byte w2 d2 Hb2 Hst2 w3 Hb3 Hst3 Ho3.
    exists w3. cbn [nth]. unfold ret.
    split; [reflexivity|split; [assumption|split; [assumption|congruence]]].
  - intros Hn d1 d2 d3 tl ->. unfold lz11_block.
    take_byte w d0 Hb Hst w1 Hb1 Hst1 Ho1. rewrite Hn.
    take_byte w1 d1 Hb1 Hst1 w2 Hb2 Hst2 Ho2.
    take_byte w2 d2 Hb2 Hst2 w3 Hb3 Hst3 Ho3.
    take_byte w3 d3 Hb3 Hst3 w4 Hb4 Hst4 Ho4.
    exists w4. cbn [nth]. unfold ret.
    split; [reflexivity|split; [assumption|split; [assumption|congruence]]].
  - intros Hn0 Hn1 d1 tl ->. unfold lz11_block.
    take_byte w d0 Hb Hst w1 Hb1 Hst1 Ho1.
    assert (Hdef :
      forall (A : Type) (a b c : A),
        match Z.shiftr d0 4 with 0 => a | 1 => b | _ => c end = c).
    { intros A a b c. destruct (Z.shiftr d0 4) as [|[p|p|]|p];
        try reflexivity; congruence. }
    rewrite Hdef.
    take_byte w1 d1 Hb1 Hst1 w2 Hb2 Hst2 Ho2.
    exists w2. cbn [nth]. unfold ret.
    split; [reflexivity|split; [assumption|split; [assumption|congruence]]].
Qed.

(** ** The header *)

(** A property of bytes that holds for each of the 256 values. *)
Lemma byte_cases (P : Z -> bool) :
  forallb P (map Z.of_nat (seq 0 256)) = true ->
  forall b, 0 <= b < 256 -> P b = true.
Proof.
  intros H b Hb. rewrite forallb_forall in H. apply H.
  replace b with (Z.of_nat (Z.to_nat b)) by lia.
  apply in_map. apply in_seq. lia.
Qed.

Lemma type_plain (b : Z) :
  0 <= b < 256 -> truthy (Z.land b 128) = false -> b = kind_of b.
Proof.
  intros Hb.
  assert (Hall : forallb (fun b => truthy (Z.land b 128) || (b =? kind_of b))
                   (map Z.of_nat (seq 0 256)) = true)
    by (vm_compute; reflexivity).
  pose proof (byte_cases _ Hall b Hb) as H.
  cbv beta in H. intros E. rewrite E in H. simpl in H.
  apply Z.eqb_eq. exact H.
Qed.

Lemma type_extended (b : Z) :
  0 <= b < 256 -> wrap8 (Z.land b (Z.lnot 128)) = kind_of b.
Proof.
  intros Hb.
  assert (Hall : forallb (fun b => wrap8 (Z.land b (Z.lnot 128)) =? kind_of b)
                   (map Z.of_nat (seq 0 256)) = true)
    by (vm_compute; reflexivity).
  pose proof (byte_cases _ Hall b Hb) as H.
  cbv beta in H. apply Z.eqb_eq in H. exact H.
Qed.

Lemma top_byte_fits (b : Z) : 0 <= b < 256 -> wrap (Z.shiftl b 24) = Z.shiftl b 24.
Proof.
  intros Hb. rewrite Z.shiftl_mul_pow2 by lia.
  apply wrap_small. unfold SIZE_MAX, size_bits.
  change (2 ^ 24) with 16777216. change (2 ^ 32 - 1) with 4294967295. lia.
Qed.

Lemma iov_size_from_ok (iov : list Z) :
  forall acc,
    Forall (fun sz => 0 <= sz) iov -> acc + sum_sizes iov <= SIZE_MAX ->
    iov_size_from iov acc = Ok (acc + sum_sizes iov).
Proof.
  induction iov as [|sz iov IH]; intros acc Hnn Hsum.
  - cbn [iov_size_from sum_sizes fold_right]. f_equal. lia.
  - change (sum_sizes (sz :: iov)) with (sz + sum_sizes iov) in *.
    cbn [iov_size_from].
    inversion Hnn as [|? ? Hsz Hrest]; subst.
    assert (0 <= sum_sizes iov).
    { clear -Hrest. induction Hrest; simpl; lia. }
    destruct (Z.geb_spec (SIZE_MAX - acc) sz); [|lia]. cbn [assert rbind].
    rewrite IH by (try assumption; lia). f_equal. lia.
Qed.

Lemma iov_of_nonneg (m : memory) : Forall (fun sz => 0 <= sz) (iov_of m).
Proof.
  unfold iov_of. apply Forall_forall. intros sz H.
  apply in_map_iff in H. destruct H as [r [<- _]]. apply len_nonneg.
Qed.

Lemma iov_size_ok (m : memory) :
  sum_sizes (iov_of m) <= SIZE_MAX ->
  iov_size (iov_of m) = Ok (sum_sizes (iov_of m)).
Proof.
  intros H. unfold iov_size.
  rewrite iov_size_from_ok; [reflexivity|apply iov_of_nonneg|lia].
Qed.

(** The dispatcher on an input that starts with a header: the strategy is
    chosen by the kind and receives the declared size, cut to the capacity
    of the regions; the header bytes are consumed and no output byte has
    been written. *)
Lemma DecompressV_header (malloc512 : option (list Z)) (fuel : nat)
      (w : world fd_state) (b0 b1 b2 b3 : Z) (rest : list Z) :
  input_ok w -> w_out w <> [] ->
  sum_sizes (iov_of (w_out w)) <= SIZE_MAX ->
  in_stream w = b0 :: b1 :: b2 :: b3 :: rest ->
  0 <= b0 < 256 ->
  let declared := Z.lor (Z.lor b1 (Z.shiftl b2 8)) (Z.shiftl b3 16) in
  let capacity := sum_sizes (iov_of (w_out w)) in
  (truthy (Z.land b0 128) = false ->
   exists w1,
     input_ok w1 /\ in_stream w1 = rest /\ w_out w1 = w_out w /\
     Tex3DS_DecompressV callback_fd malloc512 fuel w
     = dispatch callback_fd malloc512 fuel (iov_of (w_out w)) (kind_of b0)
         (Z.min declared capacity) w1) /\
  (truthy (Z.land b0 128) = true ->
   forall b4 b5 b6 b7 rest',
     rest = b4 :: b5 :: b6 :: b7 :: rest' -> 0 <= b4 < 256 ->
     exists w1,
       input_ok w1 /\ in_stream w1 = rest' /\ w_out w1 = w_out w /\
       Tex3DS_DecompressV callback_fd malloc512 fuel w
       = dispatch callback_fd malloc512 fuel (iov_of (w_out w)) (kind_of b0)
           (Z.min (Z.lor declared (Z.shiftl b4 24)) capacity) w1) /\
  (truthy (Z.land b0 128) = true -> len rest < 4 ->
   exists w1,
     w_out w1 = w_out w /\
     Tex3DS_DecompressV callback_fd malloc512 fuel w = (Ok false, w1)).
Proof.
  intros Hb Hne Hcap Hst Hb0 declared capacity.
  assert (Hcnt : (len (iov_of (w_out w)) =? 0) = false).
  { apply Z.eqb_neq. unfold len, iov_of. rewrite length_map.
    destruct (w_out w); [congruence|simpl; lia]. }
  assert (H4 : 0 <= 4 <= SIZE_MAX) by (unfold SIZE_MAX, size_bits; simpl; lia).
  destruct (BufferRead_stream w 4 Hb H4) as (w1 & E1 & Hb1 & Hst1 & Ho1 & _).
  { rewrite Hst. unfold len. simpl. lia. }
  rewrite Hst in E1, Hst1.
  change (firstn (Z.to_nat 4) (b0 :: b1 :: b2 :: b3 :: rest))
    with [b0; b1; b2; b3] in E1.
  change (skipn (Z.to_nat 4) (b0 :: b1 :: b2 :: b3 :: rest)) with rest in Hst1.
  assert (Hmin : forall size,
             (if capacity <? size then capacity else size)
             = Z.min size capacity).
  { intros size. destruct (Z.ltb_spec capacity size); lia. }
  unfold Tex3DS_DecompressV.
  split; [|split].
  - intros Hplain.
    unfold bind at 1. unfold get_out at 1. rewrite Hcnt.
    unfold bind at 1. rewrite E1. cbn [negb nth].
    rewrite Z.shiftl_0_r. fold declared. rewrite Hplain.
    exists w1. split; [exact Hb1|]. split; [exact Hst1|]. split; [exact Ho1|].
    unfold bind at 1. unfold ret at 1.
    unfold bind at 1. unfold lift at 1.
    rewrite iov_size_ok by exact Hcap. fold capacity.
    rewrite Hmin. rewrite <- (type_plain b0 Hb0 Hplain). reflexivity.
  - intros Hext b4 b5 b6 b7 rest' -> Hb4.
    unfold bind at 1. unfold get_out at 1. rewrite Hcnt.
    unfold bind at 1. rewrite E1. cbn [negb nth].
    rewrite Z.shiftl_0_r. fold declared. rewrite Hext.
    destruct (BufferRead_stream w1 4 Hb1 H4) as (w2 & E2 & Hb2 & Hst2 & Ho2 & _).
    { rewrite Hst1. unfold len. simpl. lia. }
    rewrite Hst1 in E2, Hst2.
    change (firstn (Z.to_nat 4) (b4 :: b5 :: b6 :: b7 :: rest'))
      with [b4; b5; b6; b7] in E2.
    change (skipn (Z.to_nat 4) (b4 :: b5 :: b6 :: b7 :: rest'))
      with rest' in Hst2.
    exists w2. split; [exact Hb2|]. split; [exact Hst2|].
    split; [congruence|].
    unfold bind at 1. unfold bind at 1. rewrite E2. cbn [negb nth].
    unfold ret at 1.
    unfold bind at 1. unfold lift at 1.
    rewrite iov_size_ok by exact Hcap. fold capacity.
    rewrite Hmin, top_byte_fits, type_extended by assumption. reflexivity.
  - intros Hext Hshort.
    unfold bind at 1. unfold get_out at 1. rewrite Hcnt.
    unfold bind at 1. rewrite E1. cbn [negb nth]. rewrite Hext.
    destruct (BufferRead_short w1 4 Hb1 H4) as (w2 & E2 & Ho2 & _).
    { rewrite Hst1. exact Hshort. }
    exists w2. split; [congruence|].
    unfold bind at 1. unfold bind at 1. rewrite E2. cbn [negb].
    reflexivity.
Qed.

Lemma dispatch_unknown (U : Type) (cb : U -> list Z -> Z -> Z * list Z * U)
      (malloc512 : option (list Z)) (fuel : nat) (iov : list Z)
      (type size : Z) (w : world U) :
  type <> 0 -> type <> 16 -> type <> 17 -> type <> 40 -> type <> 48 ->
  dispatch cb malloc512 fuel iov type size w = (Ok false, w).
Proof.
  intros H0 H16 H17 H40 H48. unfold dispatch.
  destruct type as [|p|p]; [congruence| |reflexivity].
  do 6 (destruct p as [p|p|]; try reflexivity; try congruence).
Qed.

(** C9.  On an input that starts with a header whose kind is none of
    0x00, 0x10, 0x11, 0x28 and 0x30, [Tex3DS_DecompressV] returns [false]
    and the output regions are as they were. *)
Theorem C9_unknown_codec :
  forall (malloc512 : option (list Z)) (fuel : nat) (w : world fd_state)
         (b0 b1 b2 b3 : Z) (rest : list Z),
    input_ok w -> w_out w <> [] ->
    sum_sizes (iov_of (w_out w)) <= SIZE_MAX ->
    in_stream w = b0 :: b1 :: b2 :: b3 :: rest ->
    is_byte b0 -> Forall is_byte rest ->
    kind_of b0 <> 0 -> kind_of b0 <> 16 -> kind_of b0 <> 17 ->
    kind_of b0 <> 40 -> kind_of b0 <> 48 ->
    exists w',
      Tex3DS_DecompressV callback_fd malloc512 fuel w = (Ok false, w') /\
      w_out w' = w_out w.
Proof.
  intros malloc512 fuel w b0 b1 b2 b3 rest Hb Hne Hcap Hst Hb0 Hrest
         K0 K16 K17 K40 K48.
  destruct (DecompressV_header malloc512 fuel w b0 b1 b2 b3 rest
              Hb Hne Hcap Hst Hb0) as (Hplain & Hext & Hshort).
  destruct (truthy (Z.land b0 128)) eqn:Etop.
  - destruct rest as [|b4 [|b5 [|b6 [|b7 rest']]]];
      try (destruct (Hshort eq_refl) as (w1 & Ho & E);
           [unfold len; simpl; lia|exists w1; split; assumption]).
    inversion Hrest as [|? ? Hb4 _]; subst.
    destruct (Hext eq_refl b4 b5 b6 b7 rest' eq_refl Hb4)
      as (w1 & _ & _ & Ho & E).
    exists w1. split; [|exact Ho].
    rewrite E. apply dispatch_unknown; assumption.
  - destruct (Hplain eq_refl) as (w1 & _ & _ & Ho & E).
    exists w1. split; [|exact Ho].
    rewrite E. apply dispatch_unknown; assumption.
Qed.

(** The header [05 08 00 00] in front of some bytes, and one output region
    of three bytes. *)
Lemma C9_unknown_codec_witness :
  exists w',
    Tex3DS_DecompressV callback_fd None 0
      (fd_world 4 [5; 8; 0; 0; 64; 65] [] [[7; 7; 7]]) = (Ok false, w') /\
    w_out w' = [[7; 7; 7]].
Proof.
  refine (C9_unknown_codec None 0
            (fd_world 4 [5; 8; 0; 0; 64; 65] [] [[7; 7; 7]]) 5 8 0 0 [64; 65]
            _ _ _ _ _ _ _ _ _ _ _).
  - unfold input_ok, buffer_ok. vm_compute. intuition discriminate.
  - discriminate.
  - vm_compute. discriminate.
  - reflexivity.
  - unfold is_byte. lia.
  - repeat constructor; unfold is_byte; lia.
  - vm_compute. discriminate.
  - vm_compute. discriminate.
  - vm_compute. discriminate.
  - vm_compute. discriminate.
  - vm_compute. discriminate.
Defined.

(** ** Reaching the end of the last region *)

(** C10 (the code does not do this).  A stored block of three bytes decoded
    into one region of three bytes: the three bytes are written, and the
    [iov_add] that follows evaluates [iov[1]] of a vector of one region.
    The same happens for a run of an RLE block that ends with the last
    region, and for [iov_add] itself whenever it is asked to move to the
    end of the last region. *)
Theorem C10_iov_add_evaluates_iov_cnt :
  run (Tex3DS_DecompressV callback_fd None 0
         (fd_world 4 [0; 3; 0; 0; 1; 2; 3] [] [[9; 9; 9]]))
  = (Err IovOutOfBounds, [[1; 2; 3]]) /\
  run (Tex3DS_DecompressV callback_fd None 0
         (fd_world 4 [48; 5; 0; 0; 130; 255] [] [[9; 9]; [9; 9; 9]]))
  = (Err IovOutOfBounds, [[255; 255]; [255; 255; 255]]) /\
  iov_add [3] {| it_num := 0; it_pos := 0 |} 3 = Err IovOutOfBounds /\
  iov_add [2; 3] {| it_num := 1; it_pos := 1 |} 2 = Err IovOutOfBounds /\
  iov_increment [2; 3] {| it_num := 1; it_pos := 2 |}
  = Ok {| it_num := 2; it_pos := 0 |}.
Proof. vm_compute. repeat split. Qed.

(** ** [iov_memmove] *)

Lemma load_ok (m : memory) (n p : Z) :
  0 <= n < len m -> 0 <= p < nth (Z.to_nat n) (iov_of m) 0 ->
  exists v, load m (n, p) = Ok v.
Proof.
  intros Hn Hp. unfold load. simpl fst. simpl snd.
  destruct (Z.leb_spec 0 n); [|lia].
  destruct (Z.leb_spec 0 p); [|lia]. cbn [andb].
  destruct (nth_error m (Z.to_nat n)) as [r|] eqn:E;
    [|apply nth_error_None in E; unfold len in *; lia].
  rewrite (iov_of_nth _ _ _ E) in Hp.
  destruct (nth_error r (Z.to_nat p)) as [v|] eqn:Ev;
    [|apply nth_error_None in Ev; unfold len in *; lia].
  exists v. reflexivity.
Qed.

Lemma len_iov_of (m : memory) : len (iov_of m) = len m.
Proof. unfold iov_of, len. rewrite length_map. reflexivity. Qed.

(** The byte loop inside two regions: it comes to its end, keeps the sizes
    and leaves [bytes] at [SIZE_MAX]. *)
Lemma copy_loop_ok :
  forall (fuel : nat) (m : memory) (on op inn ip bytes : Z),
    fuel = Z.to_nat bytes -> 0 <= bytes <= SIZE_MAX ->
    0 <= on < len m -> 0 <= inn < len m -> 0 <= op -> 0 <= ip ->
    op + bytes <= nth (Z.to_nat on) (iov_of m) 0 ->
    ip + bytes <= nth (Z.to_nat inn) (iov_of m) 0 ->
    exists m',
      copy_loop fuel m (on, op) (inn, ip) bytes = Ok (m', SIZE_MAX) /\
      iov_of m' = iov_of m.
Proof.
  induction fuel as [|fuel IH];
    intros m on op inn ip bytes Hf Hb Hon Hin Hop Hip Ho Hi.
  - assert (bytes = 0) by lia. subst bytes.
    exists m. split; reflexivity.
  - cbn [copy_loop].
    destruct (Z.gtb_spec bytes 0); [|lia].
    rewrite wrap_small by lia.
    destruct (load_ok m inn ip Hin ltac:(lia)) as [v Ev]. rewrite Ev.
    cbn [rbind].
    destruct (store_bytes_flat m {| it_num := on; it_pos := op |} [v])
      as (m1 & Es & Hiov & _).
    { split; cbn [it_num it_pos]; [rewrite len_iov_of|]; lia. }
    { cbn [it_num it_pos]. unfold len. simpl length. lia. }
    simpl it_num in Es. simpl it_pos in Es.
    unfold store. rewrite Es. cbn [rbind]. unfold addr_add. simpl fst. simpl snd.
    assert (Hlen1 : len m1 = len m) by (rewrite <- !len_iov_of; congruence).
    destruct (IH m1 on (op + 1) inn (ip + 1) (bytes - 1)) as (m' & E & Hiov');
      try rewrite Hiov; try rewrite Hlen1; try lia.
    exists m'. split; [exact E|congruence].
Qed.

(** Once [size] is positive, [iov_memmove] on iterators that point at bytes
    does not come back: after its first block it advances [out] by the
    value the byte loop left in [bytes], which is [SIZE_MAX], and runs off
    the vector. *)
Lemma iov_memmove_runs_off (U : Type) (w : world U) (out in_ : iov_iter)
      (size : Z) :
  regions_ok (iov_of (w_out w)) ->
  sum_sizes (iov_of (w_out w)) <= SIZE_MAX ->
  it_ok (iov_of (w_out w)) out -> it_ok (iov_of (w_out w)) in_ ->
  0 < size ->
  fst (iov_memmove (iov_of (w_out w)) out in_ size w) = Err IovOutOfBounds.
Proof.
  intros Hr Hcap Hout Hin Hs.
  set (iov := iov_of (w_out w)) in *.
  unfold iov_memmove.
  destruct (Z.to_nat size) as [|fuel] eqn:Ef; [lia|].
  cbn [iov_memmove_loop].
  destruct (Z.gtb_spec size 0); [|lia]. cbn [negb].
  unfold bind at 1. unfold lift at 1. rewrite (iov_check_ok iov out Hout).
  unfold bind at 1. unfold lift at 1. rewrite (iov_check_ok iov in_ Hin).
  unfold bind at 1. unfold lift at 1. rewrite (iov_addr_ok iov out Hout).
  unfold bind at 1. unfold lift at 1. rewrite (iov_addr_ok iov in_ Hin).
  unfold bind at 1. unfold get_out at 1.
  set (osz := nth (Z.to_nat (it_num out)) iov 0).
  set (isz := nth (Z.to_nat (it_num in_)) iov 0).
  set (bytes := min_bytes (if osz - it_pos out <? isz - it_pos in_
                           then osz - it_pos out else isz - it_pos in_) size).
  pose proof (it_off_bound iov out Hr Hout) as Hbo. fold osz in Hbo.
  pose proof (it_off_bound iov in_ Hr Hin) as Hbi. fold isz in Hbi.
  destruct Hout as [Hon Hop]. destruct Hin as [Hinn Hip].
  fold osz in Hop. fold isz in Hip.
  assert (Hbytes : 0 < bytes /\ bytes <= osz - it_pos out /\
                   bytes <= isz - it_pos in_).
  { unfold bytes, min_bytes.
    destruct (Z.ltb_spec (osz - it_pos out) (isz - it_pos in_));
      match goal with |- context [?a <? ?b] => destruct (Z.ltb_spec a b) end;
      lia. }
  unfold iov in Hon, Hinn. rewrite len_iov_of in Hon, Hinn.
  destruct (copy_loop_ok (Z.to_nat bytes) (w_out w) (it_num out) (it_pos out)
              (it_num in_) (it_pos in_) bytes eq_refl)
    as (m' & Ec & Hiov'); try (fold iov; fold osz; fold isz); try lia.
  unfold bind at 1. unfold lift at 1. rewrite Ec.
  unfold bind at 1. unfold put_out at 1.
  unfold bind at 1. unfold lift at 1.
  rewrite iov_add_past_end; [reflexivity|exact Hr| | |].
  - split; [unfold iov; rewrite len_iov_of|fold osz]; lia.
  - unfold SIZE_MAX, size_bits. simpl. lia.
  - lia.
Qed.

(** C2 (the code does not do this).  One region [1 2 3 4], [out] at offset
    2, [in] at offset 0, one byte to copy: the byte is copied, and then
    [out] is advanced by [SIZE_MAX] instead of by one, which runs off the
    vector; the call does not come back with both iterators one byte
    further. *)
Theorem C2_iov_memmove_overshoots :
  let w := {| w_buf := Tex3DS_BufferInit [] 0 0; w_user := tt;
              w_out := [[1; 2; 3; 4]] |} in
  fst (iov_memmove [4] {| it_num := 0; it_pos := 2 |}
         {| it_num := 0; it_pos := 0 |} 1 w) = Err IovOutOfBounds /\
  w_out (snd (iov_memmove [4] {| it_num := 0; it_pos := 2 |}
                {| it_num := 0; it_pos := 0 |} 1 w)) = [[1; 2; 1; 4]] /\
  copy_loop 1 [[1; 2; 3; 4]] (0, 2) (0, 0) 1 = Ok ([[1; 2; 1; 4]], SIZE_MAX).
Proof. vm_compute. repeat split. Qed.

(** ** LZSS back-references *)

(** C1 (the code does not do this).  The stream [40 41 30 00] is one
    literal [A] followed by a back-reference of length 6 to the byte just
    written.  Decoded with size 7 into a region of seven zero bytes, the
    call returns [true] and the region holds [A] and six untouched bytes:
    [iov_memmove] is called with [size], the budget left after the block,
    which is 0, and not with [len].  With the displacement byte set to 1
    the source would start before the first byte, and the assertion of
    [iov_sub] fails.  With a budget of 8 and one more literal behind the
    block, [iov_memmove] is asked for the 1 byte left, copies it, and runs
    off the vector. *)
Theorem C1_lzss_backref_not_copied :
  run (lzss_decode callback_fd [7] 7
         (fd_world 4 [64; 65; 48; 0] [] [[0; 0; 0; 0; 0; 0; 0]]))
  = (Ok true, [[65; 0; 0; 0; 0; 0; 0]]) /\
  run (Tex3DS_DecompressV callback_fd None 0
         (fd_world 4 [16; 7; 0; 0; 64; 65; 48; 0] [] [[0; 0; 0; 0; 0; 0; 0]]))
  = (Ok true, [[65; 0; 0; 0; 0; 0; 0]]) /\
  run (lzss_decode callback_fd [7] 7
         (fd_world 4 [64; 65; 48; 1] [] [[0; 0; 0; 0; 0; 0; 0]]))
  = (Err AssertFailed, [[65; 0; 0; 0; 0; 0; 0]]) /\
  run (lzss_decode callback_fd [9] 8
         (fd_world 4 [64; 65; 48; 0; 66] [] [[0; 0; 0; 0; 0; 0; 0; 0; 0]]))
  = (Err IovOutOfBounds, [[65; 65; 0; 0; 0; 0; 0; 0; 0]]).
Proof. vm_compute. repeat split. Qed.

(** ** Truncation *)

(** C3 (the code does not do this).  A stored block that declares five
    bytes, decoded into one region of three bytes: the strategy receives
    size 3 and writes [1 2 3], and the [iov_add] after the write evaluates
    [iov[1]]; the call does not return [true].  The same with the extended
    header, and with an RLE block that declares nine bytes.  A Huffman
    block that declares nine bytes is cut to the three bytes of the
    regions and returns [true], since [emit] steps with
    [iov_increment]. *)
Theorem C3_truncation_runs_off_the_vector :
  run (Tex3DS_DecompressV callback_fd None 0
         (fd_world 4 [0; 5; 0; 0; 1; 2; 3; 4; 5] [] [[9; 9; 9]]))
  = (Err IovOutOfBounds, [[1; 2; 3]]) /\
  run (Tex3DS_DecompressV callback_fd None 0
         (fd_world 4 [128; 5; 0; 0; 0; 0; 0; 0; 1; 2; 3; 4; 5] [] [[9; 9; 9]]))
  = (Err IovOutOfBounds, [[1; 2; 3]]) /\
  run (Tex3DS_DecompressV callback_fd None 0
         (fd_world 4 [48; 9; 0; 0; 130; 255] [] [[9; 9; 9]]))
  = (Err IovOutOfBounds, [[255; 255; 255]]) /\
  run (Tex3DS_DecompressV callback_fd (Some (repeat 0 512)) 32
         (fd_world 4 [40; 9; 0; 0; 1; 192; 65; 66; 0; 0; 0; 64] []
            [[9; 9]; [9]]))
  = (Ok true, [[65; 66]; [65]]).
Proof. vm_compute. repeat split. Qed.

(** ** Stepping through a computation *)

Section Steps.
Context {U : Type}.

Lemma bind_ok {A B : Type} (c : M U A) (k : A -> M U B) (w w' : world U)
      (a : A) :
  c w = (Ok a, w') -> bind U c k w = k a w'.
Proof. intros E. unfold bind. rewrite E. reflexivity. Qed.

Lemma bind_err {A B : Type} (c : M U A) (k : A -> M U B) (w w' : world U)
      (f : fault) :
  c w = (Err f, w') -> bind U c k w = (Err f, w').
Proof. intros E. unfold bind. rewrite E. reflexivity. Qed.

Lemma bind_lift {A B : Type} (r : res A) (k : A -> M U B) (w : world U)
      (a : A) :
  r = Ok a -> bind U (lift U r) k w = k a w.
Proof. intros E. unfold bind, lift. rewrite E. reflexivity. Qed.

Lemma bind_lift_err {A B : Type} (r : res A) (k : A -> M U B) (w : world U)
      (f : fault) :
  r = Err f -> bind U (lift U r) k w = (Err f, w).
Proof. intros E. unfold bind, lift. rewrite E. reflexivity. Qed.

Lemma bind_get_out {B : Type} (k : memory -> M U B) (w : world U) :
  bind U (get_out U) k w = k (w_out w) w.
Proof. reflexivity. Qed.

Lemma bind_put_out {B : Type} (m : memory) (k : unit -> M U B) (w : world U) :
  bind U (put_out U m) k w
  = k tt {| w_buf := w_buf w; w_user := w_user w; w_out := m |}.
Proof. reflexivity. Qed.
End Steps.

Lemma firstn_plus {A : Type} (a b : nat) (l : list A) :
  firstn (a + b) l = firstn a l ++ firstn b (skipn a l).
Proof.
  revert l. induction a as [|a IH]; intros l; simpl; [reflexivity|].
  destruct l as [|x l]; simpl.
  - rewrite firstn_nil. reflexivity.
  - rewrite IH. reflexivity.
Qed.

(** ** [iov_memset] *)

(** [iov_memset] on a run that fits in the regions: the run is in the
    output in every case; the call returns with the iterator behind the
    run unless the run ends with the last region. *)
Lemma iov_memset_loop_spec (U : Type) (iov : list Z) (val : Z) :
  regions_ok iov ->
  forall (fuel : nat) (w : world U) (out : iov_iter) (size : Z),
    iov_of (w_out w) = iov -> it_ok iov out ->
    0 <= size -> (Z.to_nat size <= fuel)%nat ->
    it_off iov out + size <= sum_sizes iov ->
    forall r w',
      iov_memset_loop U fuel iov out val size w = (r, w') ->
      concat (w_out w')
      = splice (concat (w_out w)) (it_off iov out)
          (repeat val (Z.to_nat size)) /\
      iov_of (w_out w') = iov /\
      w_buf w' = w_buf w /\ w_user w' = w_user w /\
      (it_off iov out + size < sum_sizes iov ->
       exists out', r = Ok out' /\ it_ok iov out' /\
                    it_off iov out' = it_off iov out + size) /\
      (it_off iov out + size = sum_sizes iov -> 0 < size ->
       r = Err IovOutOfBounds).
Proof.
  intros Hr. induction fuel as [|fuel IH];
    intros w out size Hiov Hok Hs Hf Hfit r w' E.
  - assert (size = 0) by lia. subst size. simpl in E.
    inversion E; subst; clear E. rewrite splice_nil.
    repeat split; try assumption; try lia.
    intros _. exists out. repeat split; try lia; apply Hok.
  - cbn [iov_memset_loop] in E.
    destruct (Z.gtb_spec size 0) as [Hpos|Hzero]; cbn [negb] in E.
    2:{ assert (size = 0) by lia. subst size.
        inversion E; subst; clear E. rewrite splice_nil.
        repeat split; try assumption; try lia.
        intros _. exists out. repeat split; try lia; apply Hok. }
    pose proof (it_off_bound iov out Hr Hok) as Hbound.
    rewrite (bind_lift _ _ _ _ (iov_check_ok iov out Hok)) in E.
    rewrite (bind_lift _ _ _ _ (iov_addr_ok iov out Hok)) in E.
    rewrite bind_get_out in E.
    set (sz := nth (Z.to_nat (it_num out)) iov 0) in *.
    set (bytes := min_bytes (sz - it_pos out) size) in *.
    assert (Hbytes : 0 < bytes <= size /\ bytes <= sz - it_pos out).
    { unfold bytes, min_bytes. destruct Hok as [_ Hp]. fold sz in Hp.
      destruct (Z.ltb_spec size (sz - it_pos out)); lia. }
    destruct (store_bytes_flat (w_out w) out (repeat val (Z.to_nat bytes)))
      as (m1 & Es & Hiov1 & Hflat1).
    { rewrite Hiov. exact Hok. }
    { rewrite Hiov. fold sz. rewrite len_repeat by lia. lia. }
    rewrite Hiov in Hiov1, Hflat1.
    rewrite (bind_lift _ _ _ _ Es) in E. rewrite bind_put_out in E.
    set (w1 := {| w_buf := w_buf w; w_user := w_user w; w_out := m1 |}) in *.
    destruct (Z.ltb_spec (it_off iov out + bytes) (sum_sizes iov)) as [Hin|Hend].
    + destruct (iov_add_inside iov out bytes Hr Hok ltac:(lia) Hin)
        as (out1 & Ea & Hok1 & Hoff1).
      rewrite (bind_lift _ _ _ _ Ea) in E.
      destruct (IH w1 out1 (size - bytes) Hiov1 Hok1 ltac:(lia) ltac:(lia)
                  ltac:(lia) r w' E)
        as (Hflat & Hiov' & Hbuf & Huser & Hret & Herr).
      split; [|split; [exact Hiov'|split; [exact Hbuf|split; [exact Huser|]]]].
      * rewrite Hflat. simpl w_out. rewrite Hflat1, Hoff1.
        replace (it_off iov out + bytes)
          with (it_off iov out + len (repeat val (Z.to_nat bytes)))
          by (rewrite len_repeat; lia).
        rewrite splice_splice.
        -- rewrite <- repeat_app. do 2 f_equal. lia.
        -- lia.
        -- rewrite !len_repeat by lia. rewrite sum_sizes_concat, Hiov. lia.
      * split.
        -- intros Hlt. destruct Hret as (out' & -> & Hok' & Hoff'); [lia|].
           exists out'. repeat split; try apply Hok'. lia.
        -- intros Heq _. apply Herr; lia.
    + assert (bytes = size) by lia.
      rewrite (bind_lift_err _ _ _ _
                 (iov_add_past_end iov out bytes Hr Hok ltac:(lia) Hend)) in E.
      inversion E; subst r w'; clear E.
      simpl w_out. rewrite Hflat1.
      replace size with bytes by lia.
      repeat split; try reflexivity; try assumption; lia.
Qed.

(** ** [iov_read] *)

Lemma to_out_ok (U : Type) (a : addr) (c : M U (bool * list Z))
      (w w1 : world U) (ok : bool) (bs : list Z) (m' : memory) :
  c w = (Ok (ok, bs), w1) ->
  store_bytes (w_out w1) a bs = Ok m' ->
  to_out a c w
  = (Ok ok, {| w_buf := w_buf w1; w_user := w_user w1; w_out := m' |}).
Proof.
  intros E Es. unfold to_out.
  rewrite (bind_ok _ _ _ _ _ E). rewrite bind_get_out.
  rewrite (bind_lift _ _ _ _ Es). rewrite bind_put_out. reflexivity.
Qed.

(** [iov_read] of bytes the input has, into room the regions have: the
    bytes are in the output in every case and the input has moved on; the
    call returns [true] with the iterator behind the bytes unless they end
    with the last region. *)
Lemma iov_read_loop_spec (iov : list Z) :
  regions_ok iov ->
  forall (fuel : nat) (w : world fd_state) (out : iov_iter) (size : Z),
    input_ok w -> iov_of (w_out w) = iov -> it_ok iov out ->
    0 <= size <= SIZE_MAX -> (Z.to_nat size <= fuel)%nat ->
    it_off iov out + size <= sum_sizes iov ->
    size <= len (in_stream w) ->
    forall r w',
      iov_read_loop fd_state callback_fd fuel iov out size w = (r, w') ->
      concat (w_out w')
      = splice (concat (w_out w)) (it_off iov out)
          (firstn (Z.to_nat size) (in_stream w)) /\
      iov_of (w_out w') = iov /\
      input_ok w' /\ in_stream w' = skipn (Z.to_nat size) (in_stream w) /\
      (it_off iov out + size < sum_sizes iov ->
       exists out', r = Ok (true, out') /\ it_ok iov out' /\
                    it_off iov out' = it_off iov out + size) /\
      (it_off iov out + size = sum_sizes iov -> 0 < size ->
       r = Err IovOutOfBounds).
Proof.
  intros Hr. induction fuel as [|fuel IH];
    intros w out size Hb Hiov Hok Hs Hf Hfit Hin r w' E.
  - assert (size = 0) by lia. subst size. simpl in E.
    inversion E; subst; clear E. simpl. rewrite splice_nil.
    repeat split; try assumption; try lia; try apply Hb.
    intros _. exists out. repeat split; try lia; apply Hok.
  - cbn [iov_read_loop] in E.
    destruct (Z.gtb_spec size 0) as [Hpos|Hzero]; cbn [negb] in E.
    2:{ assert (size = 0) by lia. subst size.
        inversion E; subst; clear E. simpl. rewrite splice_nil.
        repeat split; try assumption; try lia; try apply Hb.
        intros _. exists out. repeat split; try lia; apply Hok. }
    pose proof (it_off_bound iov out Hr Hok) as Hbound.
    rewrite (bind_lift _ _ _ _ (iov_check_ok iov out Hok)) in E.
    rewrite (bind_lift _ _ _ _ (iov_addr_ok iov out Hok)) in E.
    set (sz := nth (Z.to_nat (it_num out)) iov 0) in *.
    set (bytes := min_bytes (sz - it_pos out) size) in *.
    assert (Hbytes : 0 < bytes <= size /\ bytes <= sz - it_pos out).
    { unfold bytes, min_bytes. destruct Hok as [_ Hp]. fold sz in Hp.
      destruct (Z.ltb_spec size (sz - it_pos out)); lia. }
    destruct (BufferRead_stream w bytes Hb ltac:(lia) ltac:(lia))
      as (w1 & Er & Hb1 & Hst1 & Ho1 & _).
    assert (Hlb : len (firstn (Z.to_nat bytes) (in_stream w)) = bytes)
      by (apply len_firstn; lia).
    destruct (store_bytes_flat (w_out w1) out
                (firstn (Z.to_nat bytes) (in_stream w)))
      as (m1 & Es & Hiov1 & Hflat1).
    { rewrite Ho1, Hiov. exact Hok. }
    { rewrite Ho1, Hiov. fold sz. lia. }
    rewrite Ho1, Hiov in Hiov1, Hflat1.
    rewrite (bind_ok _ _ _ _ _ (to_out_ok _ _ _ _ _ _ _ _ Er Es)) in E.
    cbn [negb] in E.
    set (w2 := {| w_buf := w_buf w1; w_user := w_user w1; w_out := m1 |}) in *.
    assert (Hb2 : input_ok w2) by exact Hb1.
    assert (Hst2 : in_stream w2 = skipn (Z.to_nat bytes) (in_stream w))
      by exact Hst1.
    destruct (Z.ltb_spec (it_off iov out + bytes) (sum_sizes iov)) as [Hlt|Hend].
    + destruct (iov_add_inside iov out bytes Hr Hok ltac:(lia) Hlt)
        as (out1 & Ea & Hok1 & Hoff1).
      rewrite (bind_lift _ _ _ _ Ea) in E.
      destruct (IH w2 out1 (size - bytes) Hb2 Hiov1 Hok1 ltac:(lia) ltac:(lia)
                  ltac:(lia)
                  ltac:(rewrite Hst2, len_skipn by lia; lia) r w' E)
        as (Hflat & Hiov' & Hb' & Hst' & Hret & Herr).
      split; [|split; [exact Hiov'|split; [exact Hb'|split]]].
      * rewrite Hflat. simpl w_out. rewrite Hflat1, Hoff1, Hst2.
        replace (it_off iov out + bytes)
          with (it_off iov out + len (firstn (Z.to_nat bytes) (in_stream w)))
          by lia.
        rewrite splice_splice.
        -- rewrite <- firstn_plus. do 2 f_equal. lia.
        -- lia.
        -- rewrite Hlb. rewrite len_firstn
             by (rewrite len_skipn by lia; lia).
           rewrite sum_sizes_concat, Hiov. lia.
      * rewrite Hst', Hst2, skipn_skipn. f_equal. lia.
      * split.
        -- intros Hlt'. destruct Hret as (out' & -> & Hok' & Hoff'); [lia|].
           exists out'. repeat split; try apply Hok'. lia.
        -- intros Heq _. apply Herr; lia.
    + assert (bytes = size) by lia.
      rewrite (bind_lift_err _ _ _ _
                 (iov_add_past_end iov out bytes Hr Hok ltac:(lia) Hend)) in E.
      inversion E; subst r w'; clear E.
      simpl w_out. rewrite Hflat1.
      replace size with bytes by lia.
      split; [reflexivity|]. split; [exact Hiov1|]. split; [exact Hb2|].
      split; [exact Hst2|]. split; [lia|reflexivity].
Qed.

Lemma iov_begin_ok (iov : list Z) :
  regions_ok iov -> iov <> [] -> 0 < sum_sizes iov /\ it_ok iov iov_begin.
Proof.
  intros Hr Hne. destruct iov as [|sz iov]; [congruence|].
  inversion Hr as [|? ? Hsz Hrest]; subst.
  pose proof (sum_sizes_nonneg _ Hrest).
  unfold it_ok, iov_begin, len. simpl. lia.
Qed.

Lemma splice_all (l bs : list Z) : len bs = len l -> splice l 0 bs = bs.
Proof.
  unfold splice, len. intros H. simpl.
  rewrite skipn_all2 by lia. apply app_nil_r.
Qed.

(** Every stored block that fills the regions to their last byte, from an
    input that has the bytes, ends in the evaluation of [iov[cnt]], with
    the bytes written. *)
Lemma stored_to_capacity (malloc512 : option (list Z)) (fuel : nat)
      (w : world fd_state) (b1 b2 b3 : Z) (payload : list Z) :
  input_ok w -> regions_ok (iov_of (w_out w)) -> w_out w <> [] ->
  sum_sizes (iov_of (w_out w)) <= SIZE_MAX ->
  in_stream w = 0 :: b1 :: b2 :: b3 :: payload ->
  sum_sizes (iov_of (w_out w))
  <= Z.lor (Z.lor b1 (Z.shiftl b2 8)) (Z.shiftl b3 16) ->
  sum_sizes (iov_of (w_out w)) <= len payload ->
  fst (Tex3DS_DecompressV callback_fd malloc512 fuel w) = Err IovOutOfBounds /\
  concat (w_out (snd (Tex3DS_DecompressV callback_fd malloc512 fuel w)))
  = firstn (Z.to_nat (sum_sizes (iov_of (w_out w)))) payload.
Proof.
  intros Hb Hr Hne Hcap Hst Hdecl Hpay.
  destruct (DecompressV_header malloc512 fuel w 0 b1 b2 b3 payload
              Hb Hne Hcap Hst ltac:(lia)) as (Hplain & _ & _).
  destruct (Hplain eq_refl) as (w1 & Hb1 & Hst1 & Ho1 & E).
  rewrite E. rewrite Z.min_r by exact Hdecl.
  set (iov := iov_of (w_out w)) in *.
  assert (Hpos : 0 < sum_sizes iov /\ it_ok iov iov_begin).
  { apply iov_begin_ok; [exact Hr|].
    unfold iov, iov_of. destruct (w_out w); [congruence|discriminate]. }
  destruct Hpos as [Hpos Hok].
  change (dispatch callback_fd malloc512 fuel iov (kind_of 0) (sum_sizes iov) w1)
    with (bind fd_state (iov_read callback_fd iov iov_begin (sum_sizes iov))
            (fun x => let '(ok, _) := x in ret fd_state ok) w1).
  unfold bind, iov_read.
  destruct (iov_read_loop fd_state callback_fd (Z.to_nat (sum_sizes iov)) iov
              iov_begin (sum_sizes iov) w1) as [r w'] eqn:El.
  destruct (iov_read_loop_spec iov Hr (Z.to_nat (sum_sizes iov)) w1 iov_begin
              (sum_sizes iov) Hb1 ltac:(rewrite Ho1; reflexivity) Hok
              ltac:(lia) ltac:(lia) ltac:(unfold it_off; simpl; lia)
              ltac:(rewrite Hst1; exact Hpay) r w' El)
    as (Hflat & _ & _ & _ & _ & Herr).
  rewrite (Herr ltac:(unfold it_off; simpl; lia) Hpos).
  split; [reflexivity|].
  cbn [snd]. rewrite Hflat, Hst1, Ho1.
  change (it_off iov iov_begin) with 0.
  apply splice_all.
  rewrite len_firstn by lia. symmetry. apply sum_sizes_concat.
Qed.

(** ** Run-length encoding *)

Lemma clamp_min (a size : Z) : (if a >? size then size else a) = Z.min a size.
Proof. destruct (Z.gtb_spec a size); lia. Qed.

(** C6.  One round of the RLE loop with [size > 0], on an input that starts
    with the control byte [c], with the iterator at a byte and room for
    [size] bytes in the regions.  If the high bit of [c] is set and [v] is
    the next input byte, the output gets [min((c & 0x7F) + 3, size)] copies
    of [v] at the iterator's position.  If it is clear and the input has
    the bytes, the output gets the next [min((c & 0x7F) + 1, size)] input
    bytes there.  In both cases, unless the bytes end with the last region,
    the round returns with the iterator behind them, [size] reduced by
    their number and the input behind the bytes used.  A block that
    declares 5 bytes with payload [82 FF] gives [FF FF FF FF FF], and the
    control byte [02] followed by [AA BB CC] gives [AA BB CC]. *)
Theorem C6_rle_step :
  forall (w : world fd_state) (out : iov_iter) (size : Z) (c : Z)
         (rest : list Z),
    input_ok w -> regions_ok (iov_of (w_out w)) ->
    it_ok (iov_of (w_out w)) out ->
    0 < size <= SIZE_MAX ->
    it_off (iov_of (w_out w)) out + size <= sum_sizes (iov_of (w_out w)) ->
    in_stream w = c :: rest ->
    let iov := iov_of (w_out w) in
    let rw := rle_step callback_fd iov out size w in
    (truthy (Z.land c 128) = true ->
     forall v rest', rest = v :: rest' ->
       let n := Z.min (Z.land c 127 + 3) size in
       concat (w_out (snd rw))
       = splice (concat (w_out w)) (it_off iov out) (repeat v (Z.to_nat n)) /\
       (it_off iov out + n < sum_sizes iov ->
        exists out',
          fst rw = Ok (Some (out', size - n)) /\
          it_ok iov out' /\ it_off iov out' = it_off iov out + n /\
          input_ok (snd rw) /\ in_stream (snd rw) = rest')) /\
    (truthy (Z.land c 128) = false ->
     let n := Z.min (Z.land c 127 + 1) size in
     n <= len rest ->
     concat (w_out (snd rw))
     = splice (concat (w_out w)) (it_off iov out) (firstn (Z.to_nat n) rest) /\
     (it_off iov out + n < sum_sizes iov ->
      exists out',
        fst rw = Ok (Some (out', size - n)) /\
        it_ok iov out' /\ it_off iov out' = it_off iov out + n /\
        input_ok (snd rw) /\ in_stream (snd rw) = skipn (Z.to_nat n) rest)) /\
    run (Tex3DS_DecompressV callback_fd None 0
           (fd_world 4 [48; 5; 0; 0; 130; 255] [] [[0; 0; 0; 0; 0; 0]]))
    = (Ok true, [[255; 255; 255; 255; 255; 0]]) /\
    run (Tex3DS_DecompressV callback_fd None 0
           (fd_world 4 [48; 3; 0; 0; 2; 170; 187; 204] [] [[0; 0]; [0; 0]]))
    = (Ok true, [[170; 187]; [204; 0]]).
Proof.
  intros w out size c rest Hb Hr Hok Hs Hfit Hst iov rw.
  fold iov in Hr, Hok, Hfit.
  assert (Hland : 0 <= Z.land c 127) by (apply Z.land_nonneg; lia).
  destruct (get_var_stream w c rest Hb Hst) as (w1 & E1 & Hb1 & Hst1 & Ho1).
  split; [|split; [|split; vm_compute; reflexivity]].
  - intros Hrun v rest' -> n.
    assert (Hn : 0 < n <= size) by (unfold n; lia).
    destruct (get_var_stream w1 v rest' Hb1 Hst1) as (w2 & E2 & Hb2 & Hst2 & Ho2).
    assert (Hrw : rw = bind fd_state (iov_memset iov out v n)
                         (fun out => ret fd_state (Some (out, size - n))) w2).
    { unfold rw, rle_step. rewrite (bind_ok _ _ _ _ _ E1). cbv iota beta.
      rewrite Hrun. cbv zeta. rewrite clamp_min. fold n.
      rewrite (bind_ok _ _ _ _ _ E2). reflexivity. }
    rewrite Hrw. unfold bind, iov_memset.
    destruct (iov_memset_loop fd_state (Z.to_nat n) iov out v n w2)
      as [r w'] eqn:E.
    assert (Hiov2 : iov_of (w_out w2) = iov) by (rewrite Ho2, Ho1; reflexivity).
    destruct (iov_memset_loop_spec fd_state iov v Hr (Z.to_nat n) w2 out n
                Hiov2 Hok ltac:(lia) ltac:(lia) ltac:(lia) r w' E)
      as (Hflat & _ & Hbuf & Huser & Hret & _).
    rewrite Ho2, Ho1 in Hflat.
    split.
    + destruct r; exact Hflat.
    + intros Hlt. destruct (Hret Hlt) as (out' & -> & Hok' & Hoff').
      exists out'. cbn [fst snd ret].
      split; [reflexivity|]. split; [exact Hok'|]. split; [exact Hoff'|].
      split.
      * unfold input_ok. rewrite Hbuf. exact Hb2.
      * unfold in_stream. rewrite Hbuf, Huser. exact Hst2.
  - intros Hlit n Hn.
    assert (Hn' : 0 < n <= size) by (unfold n; lia).
    assert (Hrw : rw = bind fd_state (iov_read callback_fd iov out n)
                         (fun x => let '(ok, out) := x in
                                   if negb ok then ret fd_state None
                                   else ret fd_state (Some (out, size - n)))
                         w1).
    { unfold rw, rle_step. rewrite (bind_ok _ _ _ _ _ E1). cbv iota beta.
      rewrite Hlit. cbv zeta. rewrite clamp_min. fold n. reflexivity. }
    rewrite Hrw. unfold bind, iov_read.
    destruct (iov_read_loop fd_state callback_fd (Z.to_nat n) iov out n w1)
      as [r w'] eqn:E.
    assert (Hiov1 : iov_of (w_out w1) = iov) by (rewrite Ho1; reflexivity).
    destruct (iov_read_loop_spec iov Hr (Z.to_nat n) w1 out n
                Hb1 Hiov1 Hok ltac:(lia) ltac:(lia) ltac:(lia)
                ltac:(rewrite Hst1; lia) r w' E)
      as (Hflat & _ & Hb' & Hst' & Hret & _).
    rewrite Ho1, Hst1 in Hflat. rewrite Hst1 in Hst'.
    split.
    + destruct r as [[ok out']|f]; [destruct ok|]; exact Hflat.
    + intros Hlt. destruct (Hret Hlt) as (out' & -> & Hok' & Hoff').
      exists out'. cbn [fst snd ret negb].
      split; [reflexivity|]. split; [exact Hok'|]. split; [exact Hoff'|].
      split; [exact Hb'|exact Hst'].
Qed.

(** The run [82 FF] with a budget of 5, at offset 1 of the first of two
    regions of three and four bytes. *)
Lemma C6_rle_step_witness :
  let w := fd_world 4 [130; 255; 7] [1] [[0; 0; 0]; [0; 0; 0; 0]] in
  let out := {| it_num := 0; it_pos := 1 |} in
  let rw := rle_step callback_fd [3; 4] out 5 w in
  concat (w_out (snd rw)) = [0; 255; 255; 255; 255; 255; 0] /\
  (1 + 5 < 7 ->
   exists out',
     fst rw = Ok (Some (out', 0)) /\
     it_ok [3; 4] out' /\ it_off [3; 4] out' = 6 /\
     input_ok (snd rw) /\ in_stream (snd rw) = [7]).
Proof.
  refine (proj1 (C6_rle_step
                   (fd_world 4 [130; 255; 7] [1] [[0; 0; 0]; [0; 0; 0; 0]])
                   {| it_num := 0; it_pos := 1 |} 5 130 [255; 7]
                   _ _ _ _ _ _) _ 255 [7] _).
  - unfold input_ok, buffer_ok. vm_compute. intuition discriminate.
  - repeat constructor.
  - unfold it_ok. vm_compute. intuition discriminate.
  - vm_compute. intuition discriminate.
  - vm_compute. discriminate.
  - reflexivity.
  - reflexivity.
  - reflexivity.
Defined.

(** ** Huffman *)

Lemma huff_walk_length (tree : list Z) :
  forall bits node size out,
    huff_walk tree bits node size = Some out -> length out = size.
Proof.
  induction bits as [|bit bits IH]; intros node size out H.
  - destruct size; simpl in H; [|discriminate]. inversion H. reflexivity.
  - destruct size as [|size]; simpl in H; [inversion H; reflexivity|].
    destruct (in_table node); simpl in H; [|discriminate].
    destruct (terminal tree node bit).
    + destruct (in_table (child_of tree node bit)); simpl in H; [|discriminate].
      destruct (huff_walk tree bits 1 size) as [o|] eqn:E; simpl in H;
        [|discriminate].
      inversion H; subst. simpl. f_equal. apply (IH 1 size). exact E.
    + apply (IH _ _ _ H).
Qed.

(** *** The bit window *)

Lemma mask_of_shiftr (k : nat) : Z.shiftr (mask_of (S k)) 1 = mask_of k.
Proof.
  destruct k as [|k]; [reflexivity|].
  unfold mask_of. rewrite Z.shiftr_div_pow2 by lia.
  replace (Z.of_nat (S k)) with (Z.of_nat k + 1) by lia.
  rewrite Z.pow_add_r by lia. change (2 ^ 1) with 2.
  apply Z.div_mul. lia.
Qed.

Lemma mask_of_S_nonzero (k : nat) : (mask_of (S k) =? 0) = false.
Proof.
  apply Z.eqb_neq. unfold mask_of.
  pose proof (Z.pow_pos_nonneg 2 (Z.of_nat k)). lia.
Qed.

Lemma window_S (word : Z) (k : nat) :
  window word (S k) = Z.testbit word (Z.of_nat k) :: window word k.
Proof.
  unfold window. rewrite seq_S, rev_app_distr. reflexivity.
Qed.

Lemma land_mask (word : Z) (k : nat) :
  truthy (Z.land word (mask_of (S k))) = Z.testbit word (Z.of_nat k).
Proof.
  unfold truthy, mask_of.
  destruct (Z.testbit word (Z.of_nat k)) eqn:Eb.
  - apply negb_true_iff, Z.eqb_neq. intros H0.
    assert (Hb : Z.testbit (Z.land word (2 ^ Z.of_nat k)) (Z.of_nat k) = true).
    { rewrite Z.land_spec, Eb, Z.pow2_bits_true by lia. reflexivity. }
    rewrite H0, Z.bits_0 in Hb. discriminate.
  - apply negb_false_iff, Z.eqb_eq. apply Z.bits_inj'. intros i Hi.
    rewrite Z.land_spec, Z.bits_0.
    destruct (Z.eq_dec i (Z.of_nat k)) as [->|Hne].
    + rewrite Eb. reflexivity.
    + rewrite Z.pow2_bits_false by lia. apply andb_false_r.
Qed.

Lemma range_cases (n : nat) (P : Z -> bool) :
  forallb P (map Z.of_nat (seq 0 n)) = true ->
  forall b, 0 <= b < Z.of_nat n -> P b = true.
Proof.
  intros H b Hb. rewrite forallb_forall in H. apply H.
  replace b with (Z.of_nat (Z.to_nat b)) by lia.
  apply in_map. apply in_seq. lia.
Qed.

(** [node & ~1] with [~1] converted to [size_t]. *)
Lemma node_even (node : Z) :
  in_table node = true ->
  Z.land node (wrap (Z.lnot 1)) = Z.land node (Z.lnot 1).
Proof.
  intros H. unfold in_table in H. apply andb_true_iff in H.
  destruct H as [H0 H1]. apply Z.leb_le in H0. apply Z.ltb_lt in H1.
  assert (Hall : forallb (fun i => Z.land i (wrap (Z.lnot 1))
                                   =? Z.land i (Z.lnot 1))
                   (map Z.of_nat (seq 0 512)) = true)
    by (vm_compute; reflexivity).
  pose proof (range_cases 512 _ Hall node ltac:(lia)) as E.
  cbv beta in E. apply Z.eqb_eq in E. exact E.
Qed.

Lemma tree_at_ok (tree : list Z) (i : Z) :
  length tree = 512%nat -> in_table i = true -> tree_at tree i = Ok (tbl tree i).
Proof.
  intros Hl H. unfold tree_at, tbl. unfold in_table in H. rewrite H.
  apply andb_true_iff in H. destruct H as [H0 H1].
  apply Z.leb_le in H0. apply Z.ltb_lt in H1.
  destruct (nth_error tree (Z.to_nat i)) as [v|] eqn:E.
  - rewrite (nth_error_nth _ _ _ E). reflexivity.
  - apply nth_error_None in E. lia.
Qed.

(** *** The decode loop *)

Lemma emit_spec (U : Type) (iov : list Z) (w : world U) (out : iov_iter)
      (v : Z) :
  regions_ok iov -> iov_of (w_out w) = iov -> it_ok iov out ->
  exists out' w',
    emit iov out v w = (Ok out', w') /\
    concat (w_out w') = splice (concat (w_out w)) (it_off iov out) [v] /\
    iov_of (w_out w') = iov /\
    w_buf w' = w_buf w /\ w_user w' = w_user w /\
    it_off iov out' = it_off iov out + 1 /\
    (it_ok iov out' \/ it_end iov out').
Proof.
  intros Hr Hiov Hok. unfold emit.
  rewrite (bind_lift _ _ _ _ (iov_addr_ok iov out Hok)).
  rewrite bind_get_out.
  destruct (store_flat (w_out w) out v) as (m1 & Es & Hiov1 & Hflat1);
    try (rewrite Hiov; assumption).
  rewrite Hiov in Hiov1, Hflat1.
  rewrite (bind_lift _ _ _ _ Es). rewrite bind_put_out.
  destruct (iov_increment_spec iov out Hr Hok) as (out' & Ei & Hoff & Hcase).
  exists out'. eexists. unfold lift. rewrite Ei.
  split; [reflexivity|]. simpl. repeat split; assumption.
Qed.

Lemma huff_word_stream (w : world fd_state) (b0 b1 b2 b3 : Z) (rest : list Z) :
  input_ok w -> in_stream w = b0 :: b1 :: b2 :: b3 :: rest ->
  exists w',
    huff_word callback_fd w = (Ok (Some (le32 b0 b1 b2 b3)), w') /\
    input_ok w' /\ in_stream w' = rest /\ w_out w' = w_out w.
Proof.
  intros Hb Hst. unfold huff_word.
  take_byte w b0 Hb Hst w1 Hb1 Hst1 Ho1.
  take_byte w1 b1 Hb1 Hst1 w2 Hb2 Hst2 Ho2.
  take_byte w2 b2 Hb2 Hst2 w3 Hb3 Hst3 Ho3.
  take_byte w3 b3 Hb3 Hst3 w4 Hb4 Hst4 Ho4.
  exists w4. split; [reflexivity|].
  split; [assumption|split; [assumption|congruence]].
Qed.

Lemma bits_of_cons (input : list Z) (bit : bool) (bits : list bool) :
  bits_of input = bit :: bits ->
  exists b0 b1 b2 b3 rest, input = b0 :: b1 :: b2 :: b3 :: rest.
Proof.
  destruct input as [|b0 [|b1 [|b2 [|b3 rest]]]]; simpl; try discriminate.
  intros _. eauto 6.
Qed.

(** A round that starts with an exhausted window is the round that starts
    with the window refilled from the next four bytes. *)
Lemma huff_loop_refill (fuel : nat) (tree iov : list Z) (out : iov_iter)
      (word node size : Z) (w : world fd_state) (b0 b1 b2 b3 : Z)
      (rest : list Z) :
  input_ok w -> in_stream w = b0 :: b1 :: b2 :: b3 :: rest -> 0 < size ->
  exists w1,
    input_ok w1 /\ in_stream w1 = rest /\ w_out w1 = w_out w /\
    huff_loop callback_fd (S fuel) tree iov out word (mask_of 0) node size w
    = huff_loop callback_fd (S fuel) tree iov out (le32 b0 b1 b2 b3)
        (mask_of 32) node size w1.
Proof.
  intros Hb Hst Hs.
  destruct (huff_word_stream w b0 b1 b2 b3 rest Hb Hst)
    as (w1 & E & Hb1 & Hst1 & Ho1).
  exists w1. split; [exact Hb1|]. split; [exact Hst1|]. split; [exact Ho1|].
  cbn [huff_loop].
  destruct (Z.gtb_spec size 0); [|lia]. cbn [negb].
  rewrite (mask_of_S_nonzero 31).
  change (mask_of 0 =? 0) with true. cbv iota.
  unfold bind at 1. unfold bind at 1. rewrite E.
  unfold bind at 2. reflexivity.
Qed.

Lemma bind_ret (U A B : Type) (a : A) (k : A -> M U B) (w : world U) :
  bind U (ret U a) k w = k a w.
Proof. reflexivity. Qed.

(** The loop of [huff_decode] follows the walk of the specification: when
    the walk over the bits still in the window and the bits of the input
    to come emits [outb], the loop returns [true] with [outb] written from
    the iterator on. *)
Lemma huff_loop_refines (tree iov : list Z) :
  length tree = 512%nat -> regions_ok iov ->
  forall (bits : list bool) (fuel : nat) (w : world fd_state) (out : iov_iter)
         (word : Z) (j : nat) (node size : Z) (outb : list Z),
    input_ok w -> iov_of (w_out w) = iov ->
    bits = window word j ++ bits_of (in_stream w) ->
    0 <= size -> it_off iov out + size <= sum_sizes iov ->
    (0 < size -> it_ok iov out) ->
    huff_walk tree bits node (Z.to_nat size) = Some outb ->
    (length bits <= fuel)%nat ->
    exists w',
      huff_loop callback_fd fuel tree iov out word (mask_of j) node size w
      = (Ok true, w') /\
      concat (w_out w') = splice (concat (w_out w)) (it_off iov out) outb /\
      iov_of (w_out w') = iov.
Proof.
  intros Ht Hr.
  assert (Hdone : forall fuel (w : world fd_state) out word j node size outb
                         bits,
             iov_of (w_out w) = iov -> Z.to_nat size = 0%nat ->
             huff_walk tree bits node (Z.to_nat size) = Some outb ->
             exists w',
               huff_loop callback_fd fuel tree iov out word (mask_of j) node
                 size w = (Ok true, w') /\
               concat (w_out w')
               = splice (concat (w_out w)) (it_off iov out) outb /\
               iov_of (w_out w') = iov).
  { intros fuel w out word j node size outb bits Hiov Hz Hwalk.
    rewrite Hz in Hwalk.
    assert (outb = []) by (destruct bits; simpl in Hwalk; congruence).
    subst outb. exists w.
    assert (Hgt : (size >? 0) = false)
      by (destruct (Z.gtb_spec size 0); [lia|reflexivity]).
    split; [|split; [symmetry; apply splice_nil|exact Hiov]].
    destruct fuel; cbn [huff_loop]; rewrite Hgt; reflexivity. }
  induction bits as [|bit bits IH];
    intros fuel w out word j node size outb Hb Hiov Hbits Hs Hfit Hit Hwalk Hfuel.
  - destruct (Z.to_nat size) as [|n] eqn:En.
    + apply (Hdone fuel w out word j node size outb []); try assumption.
      rewrite En. exact Hwalk.
    + simpl in Hwalk. discriminate.
  - destruct (Z.to_nat size) as [|n] eqn:En.
    + apply (Hdone fuel w out word j node size outb (bit :: bits));
        try assumption.
      rewrite En. exact Hwalk.
    + destruct fuel as [|fuel]; [simpl in Hfuel; lia|].
      assert (Hpos : 0 < size) by lia.
      specialize (Hit Hpos).
      (* a window with at least one bit, refilled if need be *)
      assert (Hwin : exists (w1 : world fd_state) word1 k,
                 input_ok w1 /\ w_out w1 = w_out w /\
                 bit = Z.testbit word1 (Z.of_nat k) /\
                 bits = window word1 k ++ bits_of (in_stream w1) /\
                 huff_loop callback_fd (S fuel) tree iov out word (mask_of j)
                   node size w
                 = huff_loop callback_fd (S fuel) tree iov out word1
                     (mask_of (S k)) node size w1).
      { destruct j as [|k].
        - simpl in Hbits. symmetry in Hbits.
          destruct (bits_of_cons _ _ _ Hbits) as (b0 & b1 & b2 & b3 & rest & Hst).
          destruct (huff_loop_refill fuel tree iov out word node size w
                      b0 b1 b2 b3 rest Hb Hst Hpos)
            as (w1 & Hb1 & Hst1 & Ho1 & E).
          exists w1, (le32 b0 b1 b2 b3), 31%nat.
          rewrite Hst in Hbits. cbn [bits_of] in Hbits.
          rewrite window_S in Hbits. simpl app in Hbits.
          inversion Hbits. rewrite Hst1. auto.
        - exists w, word, k.
          rewrite window_S in Hbits. simpl app in Hbits.
          inversion Hbits. auto. }
      destruct Hwin as (w1 & word1 & k & Hb1 & Ho1 & Hbit & Hbits1 & Eloop).
      rewrite Eloop. clear Eloop.
      assert (Hiov1 : iov_of (w_out w1) = iov) by (rewrite Ho1; exact Hiov).
      rewrite <- Ho1. clear Hbits Hb Hiov Ho1 w.
      cbn [huff_walk] in Hwalk.
      destruct (in_table node) eqn:Enode; cbn [negb] in Hwalk; [|discriminate].
      cbn [huff_loop].
      destruct (Z.gtb_spec size 0); [|lia]. cbn [negb].
      rewrite mask_of_S_nonzero. rewrite bind_ret.
      rewrite (bind_lift _ _ _ _ (tree_at_ok tree node Ht Enode)).
      rewrite land_mask, <- Hbit, mask_of_shiftr, (node_even node Enode).
      change (Z.shiftl 1 8 - 1) with 255.
      assert (Hcont : forall b : bool,
                 bit = b ->
                 exists w',
                   (if terminal tree node b
                    then
                      bind fd_state
                        (lift fd_state (tree_at tree (child_of tree node b)))
                        (fun c =>
                           bind fd_state (emit iov out (Z.land c 255))
                             (fun out0 =>
                                huff_loop callback_fd fuel tree iov out0 word1
                                  (mask_of k) 1 (size - 1)))
                    else
                      huff_loop callback_fd fuel tree iov out word1 (mask_of k)
                        (child_of tree node b) size) w1
                   = (Ok true, w') /\
                   concat (w_out w')
                   = splice (concat (w_out w1)) (it_off iov out) outb /\
                   iov_of (w_out w') = iov).
      { intros b Eb. rewrite Eb in Hwalk. clear Hbit Eb.
        simpl in Hfuel.
        destruct (terminal tree node b) eqn:Eterm.
        - destruct (in_table (child_of tree node b)) eqn:Echild;
            cbn [negb] in Hwalk; [|discriminate].
          destruct (huff_walk tree bits 1 n) as [o|] eqn:Ew;
            simpl in Hwalk; [|discriminate].
          inversion Hwalk; subst outb; clear Hwalk.
          rewrite (bind_lift _ _ _ _ (tree_at_ok tree _ Ht Echild)).
          destruct (emit_spec fd_state iov w1 out
                      (Z.land (tbl tree (child_of tree node b)) 255)
                      Hr Hiov1 Hit)
            as (out' & w2 & Ee & Hflat2 & Hiov2 & Hbuf2 & Huser2 & Hoff2 & Hcase).
          rewrite (bind_ok _ _ _ _ _ Ee).
          assert (Hb2 : input_ok w2) by (unfold input_ok; rewrite Hbuf2; exact Hb1).
          assert (Hst2 : in_stream w2 = in_stream w1)
            by (unfold in_stream; rewrite Hbuf2, Huser2; reflexivity).
          assert (Hn : Z.to_nat (size - 1) = n) by lia.
          destruct (IH fuel w2 out' word1 k 1 (size - 1) o Hb2 Hiov2) as
              (w' & El & Hflat & Hiov').
          + rewrite Hst2. exact Hbits1.
          + lia.
          + lia.
          + intros Hmore. destruct Hcase as [Hok'|Hend]; [exact Hok'|].
            rewrite (it_off_end _ _ Hend) in Hoff2. lia.
          + rewrite Hn. exact Ew.
          + lia.
          + exists w'. split; [exact El|]. split; [|exact Hiov'].
            rewrite Hflat, Hflat2, Hoff2.
            change (it_off iov out + 1) with (it_off iov out + len [Z.land (tbl tree (child_of tree node b)) 255]).
            rewrite splice_splice; [reflexivity| |].
            * pose proof (it_off_bound iov out Hr Hit). lia.
            * pose proof (huff_walk_length _ _ _ _ _ Ew) as Hlo.
              rewrite sum_sizes_concat, Hiov1.
              unfold len at 1 2. simpl length. lia.
        - destruct (IH fuel w1 out word1 k (child_of tree node b) size outb
                      Hb1 Hiov1 Hbits1 Hs Hfit ltac:(intros _; exact Hit))
            as (w' & El & Hflat & Hiov').
          + rewrite En. exact Hwalk.
          + lia.
          + exists w'. auto. }
      destruct bit.
      * replace (Z.land node (Z.lnot 1) + Z.land (tbl tree node) 31 * 2 + 2 + 1)
          with (child_of tree node true) by (unfold child_of; lia).
        exact (Hcont true eq_refl).
      * replace (Z.land node (Z.lnot 1) + Z.land (tbl tree node) 31 * 2 + 2)
          with (child_of tree node false) by (unfold child_of; lia).
        exact (Hcont false eq_refl).
Qed.

(** *** The table *)

Lemma huff_tree_stream (w : world fd_state) (tree0 : list Z) (n : Z)
      (table payload : list Z) :
  input_ok w -> length tree0 = 512%nat -> is_byte n ->
  len table = 2 * (n + 1) - 1 ->
  in_stream w = n :: table ++ payload ->
  exists w1,
    huff_tree callback_fd (Some tree0) w
    = (Ok (Some (tree_of n table tree0)), w1) /\
    input_ok w1 /\ in_stream w1 = payload /\ w_out w1 = w_out w /\
    length (tree_of n table tree0) = 512%nat.
Proof.
  intros Hb Ht Hn Hlen Hst. unfold is_byte in Hn.
  assert (HM : SIZE_MAX = 4294967295) by reflexivity.
  destruct (BufferRead_stream w 1 Hb ltac:(lia)) as (w1 & E1 & Hb1 & Hst1 & Ho1 & _).
  { rewrite Hst. unfold len. simpl length. lia. }
  rewrite Hst in E1, Hst1.
  change (firstn (Z.to_nat 1) (n :: table ++ payload)) with [n] in E1.
  change (skipn (Z.to_nat 1) (n :: table ++ payload)) with (table ++ payload)
    in Hst1.
  destruct (BufferRead_stream w1 ((n + 1) * 2 - 1) Hb1 ltac:(lia))
    as (w2 & E2 & Hb2 & Hst2 & Ho2 & _).
  { rewrite Hst1, len_app. pose proof (len_nonneg payload). lia. }
  rewrite Hst1 in E2, Hst2.
  assert (Hk : Z.to_nat ((n + 1) * 2 - 1) = length table)
    by (unfold len in Hlen; lia).
  rewrite Hk in E2, Hst2.
  rewrite firstn_app_le, firstn_all in E2 by lia.
  rewrite skipn_app_le, skipn_all in Hst2 by lia. simpl in Hst2.
  assert (Hw0 : tree_write tree0 0 [n] = Ok (n :: skipn 1 tree0)).
  { unfold tree_write, len. rewrite Ht. reflexivity. }
  assert (Ha0 : tree_at (n :: skipn 1 tree0) 0 = Ok n) by reflexivity.
  assert (Hw1 : tree_write (n :: skipn 1 tree0) 1 table
                = Ok (tree_of n table tree0)).
  { unfold tree_write.
    assert (Hl1 : len (n :: skipn 1 tree0) = 512).
    { unfold len. cbn [length]. rewrite length_skipn, Ht. reflexivity. }
    rewrite Hl1.
    destruct (Z.leb_spec (1 + len table) 512); [|lia].
    change ((0 <=? 1) && true) with true. cbv iota.
    unfold splice. f_equal.
    change (Z.to_nat 1) with 1%nat.
    remember (skipn 1 tree0) as l eqn:El.
    cbn [firstn app Nat.add skipn]. subst l.
    rewrite skipn_skipn. unfold tree_of.
    replace (length table + 1)%nat with (S (length table)) by lia.
    reflexivity. }
  exists w2. split; [|split; [exact Hb2|split; [exact Hst2|split; [congruence|]]]].
  - unfold huff_tree.
    rewrite (bind_ok _ _ _ _ _ E1). cbv iota beta.
    rewrite (bind_lift _ _ _ _ Hw0). cbn [negb].
    rewrite (bind_lift _ _ _ _ Ha0).
    rewrite (bind_ok _ _ _ _ _ E2). cbv iota beta.
    rewrite (bind_lift _ _ _ _ Hw1). reflexivity.
  - unfold tree_of. cbn [length]. rewrite length_app, length_skipn, Ht.
    unfold len in Hlen. lia.
Qed.

(** C8.  On an input that starts with the size byte [n], the
    [2 * (n + 1) - 1] bytes of the table and the payload: the table is read
    first and the output is untouched while it is read; then, when the walk
    of the specification over the bits of the payload (32-bit little-endian
    words, most significant bit first) from the root, index 1, emits
    [size] bytes, [huff_decode] returns [true] and these bytes are the
    first [size] bytes of the output.  The walk goes to the child at
    [(node & ~1) + 2 * (tree[node] & 0x1F) + 2], plus one for a 1 bit,
    emits the child's byte and restarts at the root when the flag 0x80 (for
    a 0 bit) or 0x40 (for a 1 bit) of the node is set, and continues at
    the child otherwise. *)
Theorem C8_huff_decode :
  forall (w : world fd_state) (tree0 : list Z) (n : Z)
         (table payload : list Z) (size : Z) (fuel : nat) (outb : list Z),
    input_ok w -> regions_ok (iov_of (w_out w)) ->
    length tree0 = 512%nat -> is_byte n ->
    len table = 2 * (n + 1) - 1 ->
    in_stream w = n :: table ++ payload ->
    0 <= size <= sum_sizes (iov_of (w_out w)) ->
    huff_walk (tree_of n table tree0) (bits_of payload) 1 (Z.to_nat size)
    = Some outb ->
    (length (bits_of payload) <= fuel)%nat ->
    (exists w1,
        huff_tree callback_fd (Some tree0) w
        = (Ok (Some (tree_of n table tree0)), w1) /\
        w_out w1 = w_out w /\ in_stream w1 = payload) /\
    (exists w',
        huff_decode callback_fd (Some tree0) fuel (iov_of (w_out w)) size w
        = (Ok true, w') /\
        concat (w_out w') = splice (concat (w_out w)) 0 outb /\
        len outb = size).
Proof.
  intros w tree0 n table payload size fuel outb Hb Hr Ht Hn Hlen Hst Hs
         Hwalk Hfuel.
  destruct (huff_tree_stream w tree0 n table payload Hb Ht Hn Hlen Hst)
    as (w1 & Etree & Hb1 & Hst1 & Ho1 & Hlt).
  split.
  - exists w1. auto.
  - set (iov := iov_of (w_out w)) in *.
    assert (Hbegin : 0 < size -> it_ok iov iov_begin).
    { intros Hpos. unfold it_ok, iov_begin. simpl.
      destruct iov as [|sz iov'] eqn:Eiov; [simpl in Hs; lia|].
      inversion Hr; subst. unfold len. simpl. lia. }
    destruct (huff_loop_refines (tree_of n table tree0) iov Hlt Hr
                (bits_of payload) fuel w1 iov_begin 0 0%nat 1 size outb
                Hb1 ltac:(rewrite Ho1; reflexivity)
                ltac:(rewrite Hst1; reflexivity) ltac:(lia)
                ltac:(unfold it_off; simpl; lia) Hbegin Hwalk Hfuel)
      as (w' & El & Hflat & _).
    exists w'. split; [|split].
    + unfold huff_decode. rewrite (bind_ok _ _ _ _ _ Etree). exact El.
    + rewrite Hflat, Ho1. reflexivity.
    + unfold len. rewrite (huff_walk_length _ _ _ _ _ Hwalk). lia.
Qed.

(** The table [01 C0 41 42] (a root with two leaves, [A] for a 0 bit and
    [B] for a 1 bit) and the word [00 00 00 40], whose first bits are
    0 1 0 0, decoded with size 4 into two regions of two bytes. *)
Lemma C8_huff_decode_witness :
  (exists w1,
      huff_tree callback_fd (Some (repeat 0 512))
        (fd_world 4 [1; 192; 65; 66; 0; 0; 0; 64] [3] [[9; 9]; [9; 9]])
      = (Ok (Some (tree_of 1 [192; 65; 66] (repeat 0 512))), w1) /\
      w_out w1 = [[9; 9]; [9; 9]] /\ in_stream w1 = [0; 0; 0; 64]) /\
  (exists w',
      huff_decode callback_fd (Some (repeat 0 512)) 32 [2; 2] 4
        (fd_world 4 [1; 192; 65; 66; 0; 0; 0; 64] [3] [[9; 9]; [9; 9]])
      = (Ok true, w') /\
      concat (w_out w') = [65; 66; 65; 65] /\
      len [65; 66; 65; 65] = 4).
Proof.
  refine (C8_huff_decode
            (fd_world 4 [1; 192; 65; 66; 0; 0; 0; 64] [3] [[9; 9]; [9; 9]])
            (repeat 0 512) 1 [192; 65; 66] [0; 0; 0; 64] 4 32 [65; 66; 65; 65]
            _ _ _ _ _ _ _ _ _).
  - unfold input_ok, buffer_ok. vm_compute. intuition discriminate.
  - repeat constructor.
  - reflexivity.
  - unfold is_byte. lia.
  - reflexivity.
  - reflexivity.
  - vm_compute. intuition discriminate.
  - vm_compute. reflexivity.
  - vm_compute. repeat constructor.
Defined.

(** ** A compressed block of LZ11 in the decoder *)

(** C7.  The body of the [for] loop of [lz11_decode] at a set flag bit
    ([flags & 0x80]) with [size > 0], on an input that starts with the
    bytes of the block: when the top nibble of the first byte is 0, three
    bytes are consumed and the length is
    [(byte0 << 4 | byte1 >> 4) + 0x11]; when it is 1, four bytes are consumed
    and the length is [((byte0 & 0xF) << 12 | byte1 << 4 | byte2 >> 4) + 0x111];
    otherwise two bytes are consumed and the length is [(byte0 >> 4) + 1].
    The displacement is [(penultimate & 0x0F) << 8 | last] of the bytes
    consumed.  With the input behind these bytes and the output untouched,
    the loop goes on with the length clamped to [size]: it takes the
    clamped length off [size], retreats by the displacement plus one,
    calls [iov_memmove] and turns to the next flag bit.  Three blocks
    behind one literal, each with a length that uses up the size, run
    through [Tex3DS_DecompressV]: the call returns and the input is left
    behind the three, four and two bytes. *)
Theorem C7_lz11_block :
  forall (w : world fd_state) (d0 : Z) (rest : list Z) (rounds : nat)
         (iov : list Z) (out : iov_iter) (flags size : Z),
    input_ok w -> in_stream w = d0 :: rest ->
    truthy (Z.land flags 128) = true -> 0 < size ->
    let parsed (len_ disp : Z) (tl : list Z) : Prop :=
      exists w',
        input_ok w' /\ in_stream w' = tl /\ w_out w' = w_out w /\
        lz11_block callback_fd w = (Ok (Some (len_, disp)), w') /\
        lz11_for fd_state callback_fd (S rounds) iov out flags size w
        = bind fd_state (lift fd_state (iov_sub iov out (disp + 1)))
            (fun in_ =>
               bind fd_state
                 (iov_memmove iov out in_ (size - Z.min len_ size))
                 (fun oi =>
                    lz11_for fd_state callback_fd rounds iov (fst oi)
                      (wrap8 (Z.shiftl flags 1)) (size - Z.min len_ size)))
            w' in
    (Z.shiftr d0 4 = 0 ->
     forall d1 d2 tl, rest = d1 :: d2 :: tl ->
       parsed (Z.lor (Z.shiftl d0 4) (Z.shiftr d1 4) + 17)
              (Z.lor (Z.shiftl (Z.land d1 15) 8) d2) tl) /\
    (Z.shiftr d0 4 = 1 ->
     forall d1 d2 d3 tl, rest = d1 :: d2 :: d3 :: tl ->
       parsed (Z.lor (Z.lor (Z.shiftl (Z.land d0 15) 12) (Z.shiftl d1 4))
                     (Z.shiftr d2 4) + 273)
              (Z.lor (Z.shiftl (Z.land d2 15) 8) d3) tl) /\
    (Z.shiftr d0 4 <> 0 -> Z.shiftr d0 4 <> 1 ->
     forall d1 tl, rest = d1 :: tl ->
       parsed (Z.shiftr d0 4 + 1)
              (Z.lor (Z.shiftl (Z.land d0 15) 8) d1) tl) /\
    (let r := Tex3DS_DecompressV callback_fd None 0
                (fd_world 4 [17; 7; 0; 0; 64; 65; 0; 80; 0; 99] []
                   [[0; 0; 0; 0; 0; 0; 0]]) in
     fst r = Ok true /\ in_stream (snd r) = [99]) /\
    (let r := Tex3DS_DecompressV callback_fd None 0
                (fd_world 4 [17; 7; 0; 0; 64; 65; 16; 0; 0; 0; 99] []
                   [[0; 0; 0; 0; 0; 0; 0]]) in
     fst r = Ok true /\ in_stream (snd r) = [99]) /\
    (let r := Tex3DS_DecompressV callback_fd None 0
                (fd_world 4 [17; 7; 0; 0; 64; 65; 80; 0; 99] []
                   [[0; 0; 0; 0; 0; 0; 0]]) in
     fst r = Ok true /\ in_stream (snd r) = [99]).
Proof.
  intros w d0 rest rounds iov out flags size Hb Hst Hflag Hpos parsed.
  assert (Hfor : forall len_ disp w',
            lz11_block callback_fd w = (Ok (Some (len_, disp)), w') ->
            lz11_for fd_state callback_fd (S rounds) iov out flags size w
            = bind fd_state (lift fd_state (iov_sub iov out (disp + 1)))
                (fun in_ =>
                   bind fd_state
                     (iov_memmove iov out in_ (size - Z.min len_ size))
                     (fun oi =>
                        lz11_for fd_state callback_fd rounds iov (fst oi)
                          (wrap8 (Z.shiftl flags 1))
                          (size - Z.min len_ size)))
                w').
  { intros len_ disp w' E. cbn [lz11_for].
    destruct (Z.gtb_spec size 0); [|lia]. cbn [negb]. rewrite Hflag.
    rewrite (bind_ok _ _ _ _ _ E). cbv zeta. rewrite clamp_min.
    unfold bind.
    destruct (lift fd_state (iov_sub iov out (disp + 1)) w')
      as [[in_|f] w1]; [|reflexivity].
    destruct (iov_memmove iov out in_ (size - Z.min len_ size) w1)
      as [[[out' in'']|f] w2]; reflexivity. }
  destruct (lz11_block_stream w d0 rest Hb Hst) as (H0 & H1 & H2).
  split; [|split; [|split]].
  - intros Hn d1 d2 tl Hrest.
    destruct (H0 Hn d1 d2 tl Hrest) as (w' & E & Hb' & Hst' & Ho').
    exists w'. split; [exact Hb'|]. split; [exact Hst'|].
    split; [exact Ho'|]. split; [exact E|exact (Hfor _ _ _ E)].
  - intros Hn d1 d2 d3 tl Hrest.
    destruct (H1 Hn d1 d2 d3 tl Hrest) as (w' & E & Hb' & Hst' & Ho').
    exists w'. split; [exact Hb'|]. split; [exact Hst'|].
    split; [exact Ho'|]. split; [exact E|exact (Hfor _ _ _ E)].
  - intros Hn0 Hn1 d1 tl Hrest.
    destruct (H2 Hn0 Hn1 d1 tl Hrest) as (w' & E & Hb' & Hst' & Ho').
    exists w'. split; [exact Hb'|]. split; [exact Hst'|].
    split; [exact Ho'|]. split; [exact E|exact (Hfor _ _ _ E)].
  - vm_compute. repeat split.
Qed.

(** An extended block [00 53 21] followed by one more byte, at the first
    flag bit of [0x80] with six bytes to go, behind 900 bytes of output. *)
Lemma C7_lz11_block_witness :
  let w := fd_world 2 [0; 83; 33; 7] [1] [repeat 0 1000] in
  let out := {| it_num := 0; it_pos := 900 |} in
  exists w',
    input_ok w' /\ in_stream w' = [7] /\ w_out w' = [repeat 0 1000] /\
    lz11_block callback_fd w = (Ok (Some (22, 801)), w') /\
    lz11_for fd_state callback_fd 8 [1000] out 128 6 w
    = bind fd_state (lift fd_state (iov_sub [1000] out (801 + 1)))
        (fun in_ =>
           bind fd_state (iov_memmove [1000] out in_ (6 - Z.min 22 6))
             (fun oi =>
                lz11_for fd_state callback_fd 7 [1000] (fst oi)
                  (wrap8 (Z.shiftl 128 1)) (6 - Z.min 22 6)))
        w'.
Proof.
  refine (proj1 (C7_lz11_block
                   (fd_world 2 [0; 83; 33; 7] [1] [repeat 0 1000]) 0
                   [83; 33; 7] 7 [1000] {| it_num := 0; it_pos := 900 |}
                   128 6 _ _ _ _) _ 83 33 [7] _).
  - unfold input_ok, buffer_ok. vm_compute. intuition discriminate.
  - reflexivity.
  - reflexivity.
  - lia.
  - reflexivity.
  - reflexivity.
Defined.

(** * Further properties of the iterator *)

Lemma sum_sizes_firstn_mono (iov : list Z) (j k : nat) :
  regions_ok iov -> (j <= k)%nat ->
  sum_sizes (firstn j iov) <= sum_sizes (firstn k iov).
Proof.
  intros Hr Hjk.
  replace j with (Nat.min j k) by lia.
  rewrite <- firstn_firstn.
  apply sum_sizes_firstn_le.
  unfold regions_ok in *.
  rewrite <- (firstn_skipn k iov) in Hr. apply Forall_app in Hr. tauto.
Qed.

(** Two iterators that point at bytes and have the same position in the
    stream are the same iterator. *)
Lemma it_off_inj (iov : list Z) (a b : iov_iter) :
  regions_ok iov -> it_ok iov a -> it_ok iov b ->
  it_off iov a = it_off iov b -> a = b.
Proof.
  intros Hr Ha Hb E.
  assert (Hlt : forall x y, it_ok iov x -> it_ok iov y ->
                            it_num x < it_num y -> it_off iov x < it_off iov y).
  { intros x y [Hxn Hxp] [Hyn Hyp] Hxy. unfold it_off, len in *.
    pose proof (sum_sizes_firstn_S iov (Z.to_nat (it_num x)) ltac:(lia)).
    pose proof (sum_sizes_firstn_mono iov (S (Z.to_nat (it_num x)))
                  (Z.to_nat (it_num y)) Hr ltac:(lia)).
    lia. }
  destruct (Z.lt_trichotomy (it_num a) (it_num b)) as [H|[H|H]].
  - specialize (Hlt a b Ha Hb H). lia.
  - destruct a as [an ap], b as [bn bp]. simpl in *. subst bn.
    unfold it_off in E. simpl in E. f_equal. lia.
  - specialize (Hlt b a Hb Ha H). lia.
Qed.

(** X1.  [iov_size] returns the sum of the region sizes when the sum fits
    in [size_t], and fails its assertion when it does not. *)
Theorem X1_iov_size (iov : list Z) :
  Forall (fun sz => 0 <= sz) iov ->
  (sum_sizes iov <= SIZE_MAX -> iov_size iov = Ok (sum_sizes iov)) /\
  (SIZE_MAX < sum_sizes iov -> iov_size iov = Err AssertFailed).
Proof.
  intros Hnn. split.
  - intros H. unfold iov_size.
    rewrite iov_size_from_ok; [reflexivity|exact Hnn|lia].
  - unfold iov_size.
    assert (Hgen : forall acc, 0 <= acc <= SIZE_MAX ->
                               SIZE_MAX < acc + sum_sizes iov ->
                               iov_size_from iov acc = Err AssertFailed).
    { induction Hnn as [|sz iov Hsz Hrest IH]; intros acc Hacc Hover.
      - simpl in Hover. lia.
      - change (sum_sizes (sz :: iov)) with (sz + sum_sizes iov) in Hover.
        cbn [iov_size_from].
        destruct (Z.geb_spec (SIZE_MAX - acc) sz); cbn [assert rbind];
          [|reflexivity].
        apply IH; lia. }
    intros H. apply Hgen; [|lia]. unfold SIZE_MAX, size_bits. simpl. lia.
Qed.

Lemma X1_iov_size_witness :
  iov_size [3; 4] = Ok 7 /\ iov_size [4294967295; 1] = Err AssertFailed.
Proof.
  split.
  - refine (proj1 (X1_iov_size [3; 4] _) _).
    + repeat constructor; lia.
    + vm_compute. discriminate.
  - refine (proj2 (X1_iov_size [4294967295; 1] _) _).
    + repeat constructor; lia.
    + vm_compute. reflexivity.
Defined.

(** X2.  [iov_add] by [size] from a byte, to a position before the end of
    the last region: the iterator lands on the byte [size] positions
    further on in the output stream, whatever region boundaries lie
    between. *)
Theorem X2_iov_add_inside (iov : list Z) (it : iov_iter) (size : Z) :
  regions_ok iov -> it_ok iov it -> 0 <= size ->
  it_off iov it + size < sum_sizes iov ->
  exists it', iov_add iov it size = Ok it' /\
              it_ok iov it' /\ it_off iov it' = it_off iov it + size.
Proof. intros Hr Hok Hs H. exact (iov_add_inside iov it size Hr Hok Hs H). Qed.

Lemma X2_iov_add_inside_witness :
  exists it', iov_add [2; 3; 4] {| it_num := 0; it_pos := 1 |} 5 = Ok it' /\
              it_ok [2; 3; 4] it' /\ it_off [2; 3; 4] it' = 1 + 5.
Proof.
  refine (X2_iov_add_inside [2; 3; 4] {| it_num := 0; it_pos := 1 |} 5 _ _ _ _).
  - repeat constructor.
  - unfold it_ok. vm_compute. intuition discriminate.
  - lia.
  - vm_compute. reflexivity.
Defined.

(** X3.  Two advances compose: [iov_add] by [a] and then by [b] gives the
    iterator of one [iov_add] by [a + b], as long as the sum stays before
    the end of the last region. *)
Theorem X3_iov_add_compose (iov : list Z) (it : iov_iter) (a b : Z) :
  regions_ok iov -> it_ok iov it -> 0 <= a -> 0 <= b ->
  it_off iov it + a + b < sum_sizes iov ->
  rbind (iov_add iov it a) (fun it1 => iov_add iov it1 b)
  = iov_add iov it (a + b).
Proof.
  intros Hr Hok Ha Hb H.
  destruct (iov_add_inside iov it a Hr Hok Ha ltac:(lia))
    as (it1 & E1 & Hok1 & Hoff1).
  destruct (iov_add_inside iov it1 b Hr Hok1 Hb ltac:(lia))
    as (it2 & E2 & Hok2 & Hoff2).
  destruct (iov_add_inside iov it (a + b) Hr Hok ltac:(lia) ltac:(lia))
    as (it3 & E3 & Hok3 & Hoff3).
  rewrite E1. cbn [rbind]. rewrite E2, E3. f_equal.
  apply (it_off_inj iov); try assumption. lia.
Qed.

Lemma X3_iov_add_compose_witness :
  rbind (iov_add [2; 3; 4] {| it_num := 0; it_pos := 1 |} 2)
        (fun it1 => iov_add [2; 3; 4] it1 4)
  = iov_add [2; 3; 4] {| it_num := 0; it_pos := 1 |} (2 + 4).
Proof.
  refine (X3_iov_add_compose [2; 3; 4] {| it_num := 0; it_pos := 1 |} 2 4
            _ _ _ _ _).
  - repeat constructor.
  - unfold it_ok. vm_compute. intuition discriminate.
  - lia.
  - lia.
  - vm_compute. reflexivity.
Defined.

(** X4.  [iov_increment] is [iov_add] by one while the next position is a
    byte; on the last byte of the last region it stops at [(cnt, 0)], where
    [iov_add] by one evaluates [iov[cnt]]. *)
Theorem X4_iov_increment (iov : list Z) (it : iov_iter) :
  regions_ok iov -> it_ok iov it ->
  (it_off iov it + 1 < sum_sizes iov ->
   iov_increment iov it = iov_add iov it 1) /\
  (it_off iov it + 1 = sum_sizes iov ->
   iov_increment iov it = Ok {| it_num := len iov; it_pos := 0 |} /\
   iov_add iov it 1 = Err IovOutOfBounds).
Proof.
  intros Hr Hok.
  destruct (iov_increment_spec iov it Hr Hok) as (it' & Ei & Hoff & Hcase).
  split.
  - intros H.
    destruct (iov_add_inside iov it 1 Hr Hok ltac:(lia) H)
      as (it1 & Ea & Hok1 & Hoff1).
    rewrite Ei, Ea. f_equal.
    destruct Hcase as [Hok'|Hend].
    + apply (it_off_inj iov); try assumption. lia.
    + rewrite (it_off_end _ _ Hend) in Hoff. lia.
  - intros H. split.
    + rewrite Ei. f_equal.
      destruct Hcase as [Hok'|[Hn Hp]].
      * pose proof (it_off_bound iov it' Hr Hok') as Hb.
        destruct Hok' as [_ Hp]. lia.
      * destruct it' as [n p]. simpl in *. subst. reflexivity.
    + apply iov_add_past_end; try assumption; lia.
Qed.

Lemma X4_iov_increment_witness :
  (iov_increment [2; 3] {| it_num := 0; it_pos := 1 |}
   = iov_add [2; 3] {| it_num := 0; it_pos := 1 |} 1) /\
  (iov_increment [2; 3] {| it_num := 1; it_pos := 2 |}
   = Ok {| it_num := len [2; 3]; it_pos := 0 |} /\
   iov_add [2; 3] {| it_num := 1; it_pos := 2 |} 1 = Err IovOutOfBounds).
Proof.
  split.
  - refine (proj1 (X4_iov_increment [2; 3] {| it_num := 0; it_pos := 1 |}
                     _ _) _).
    + repeat constructor.
    + unfold it_ok. vm_compute. intuition discriminate.
    + vm_compute. reflexivity.
  - refine (proj2 (X4_iov_increment [2; 3] {| it_num := 1; it_pos := 2 |}
                     _ _) _).
    + repeat constructor.
    + unfold it_ok. vm_compute. intuition discriminate.
    + vm_compute. reflexivity.
Defined.

(** [iov_sub] from a position of the iterator, also one that its own loop
    passes through (the end of a region): it comes back [size] positions
    earlier, on a byte, or fails the assertion when that is before the
    first byte. *)
Lemma iov_sub_loop_spec (iov : list Z) :
  regions_ok iov ->
  forall (fuel : nat) (it : iov_iter) (size : Z),
    0 <= it_num it <= len iov -> 0 <= it_pos it ->
    (it_num it < len iov -> it_pos it <= nth (Z.to_nat (it_num it)) iov 0) ->
    (it_num it = len iov -> it_pos it = 0) ->
    0 < size -> (Z.to_nat (it_num it) < fuel)%nat ->
    (size <= it_off iov it ->
     exists it', iov_sub_loop fuel iov it size = Ok it' /\
                 it_ok iov it' /\ it_off iov it' = it_off iov it - size) /\
    (it_off iov it < size ->
     iov_sub_loop fuel iov it size = Err AssertFailed).
Proof.
  intros Hr. induction fuel as [|fuel IH];
    intros it size Hn Hp Hle Hend Hs Hf; [lia|].
  assert (Hpre : 0 <= sum_sizes (firstn (Z.to_nat (it_num it)) iov)).
  { apply sum_sizes_nonneg. unfold regions_ok in Hr.
    rewrite <- (firstn_skipn (Z.to_nat (it_num it)) iov) in Hr.
    apply Forall_app in Hr. tauto. }
  cbn [iov_sub_loop].
  destruct (Z.geb_spec (it_pos it) size) as [Hge|Hlt].
  - split; intros H; [|unfold it_off in H; lia].
    eexists. split; [reflexivity|]. split.
    + split; simpl; lia.
    + unfold it_off. simpl. lia.
  - destruct (Z.gtb_spec (it_num it) 0) as [Hpos|Hzero]; cbn [assert rbind].
    + rewrite iov_at_ok by lia. cbn [rbind].
      set (sz := nth (Z.to_nat (it_num it - 1)) iov 0).
      set (it1 := {| it_num := it_num it - 1; it_pos := sz |}).
      assert (Hsz : 0 < sz)
        by (apply regions_ok_nth; [exact Hr|unfold len in *; lia]).
      assert (Hoff1 : it_off iov it1 = it_off iov it - it_pos it).
      { unfold it_off, it1. simpl.
        pose proof (sum_sizes_firstn_S iov (Z.to_nat (it_num it - 1))
                      ltac:(unfold len in *; lia)) as HS.
        replace (S (Z.to_nat (it_num it - 1))) with (Z.to_nat (it_num it))
          in HS by lia.
        fold sz in HS. lia. }
      destruct (IH it1 (size - it_pos it)) as [IH1 IH2];
        unfold it1; simpl; try lia.
      fold it1 in IH1, IH2. rewrite Hoff1 in IH1, IH2.
      split; intros H.
      * destruct IH1 as (it' & E & Hok' & Hoff'); [lia|].
        exists it'. split; [exact E|]. split; [exact Hok'|]. lia.
      * apply IH2. lia.
    + split; intros H; [|reflexivity].
      unfold it_off in H. replace (it_num it) with 0 in H by lia.
      simpl in H. lia.
Qed.

Lemma iov_sub_back (iov : list Z) (it : iov_iter) (size : Z) :
  regions_ok iov -> it_ok iov it \/ it_end iov it -> 0 < size ->
  (size <= it_off iov it ->
   exists it', iov_sub iov it size = Ok it' /\
               it_ok iov it' /\ it_off iov it' = it_off iov it - size) /\
  (it_off iov it < size -> iov_sub iov it size = Err AssertFailed).
Proof.
  intros Hr Hit Hs. unfold iov_sub. pose proof (len_nonneg iov).
  apply (iov_sub_loop_spec iov Hr); try assumption.
  - destruct Hit as [[Hn _]|[Hn _]]; lia.
  - destruct Hit as [[_ Hp]|[_ Hp]]; lia.
  - intros Hlt. destruct Hit as [[_ Hp]|[Hn _]]; lia.
  - intros Hn. destruct Hit as [[Hn' _]|[_ Hp]]; lia.
  - lia.
Qed.

(** X5.  [iov_sub] by [size > 0] from a byte, or from the position after
    the last byte: when at least [size] bytes lie before the iterator it
    comes back on the byte [size] positions earlier in the output stream;
    when fewer do (a back-reference to before the first byte), the
    assertion [it->num > 0] fails. *)
Theorem X5_iov_sub (iov : list Z) (it : iov_iter) (size : Z) :
  regions_ok iov -> it_ok iov it \/ it_end iov it -> 0 < size ->
  (size <= it_off iov it ->
   exists it', iov_sub iov it size = Ok it' /\
               it_ok iov it' /\ it_off iov it' = it_off iov it - size) /\
  (it_off iov it < size -> iov_sub iov it size = Err AssertFailed).
Proof. exact (iov_sub_back iov it size). Qed.

Lemma X5_iov_sub_witness :
  (exists it', iov_sub [2; 3; 4] {| it_num := 2; it_pos := 1 |} 5 = Ok it' /\
               it_ok [2; 3; 4] it' /\ it_off [2; 3; 4] it' = 6 - 5) /\
  iov_sub [2; 3; 4] {| it_num := 1; it_pos := 0 |} 3 = Err AssertFailed.
Proof.
  split.
  - refine (proj1 (X5_iov_sub [2; 3; 4] {| it_num := 2; it_pos := 1 |} 5
                     _ _ _) _).
    + repeat constructor.
    + left. unfold it_ok. vm_compute. intuition discriminate.
    + lia.
    + vm_compute. discriminate.
  - refine (proj2 (X5_iov_sub [2; 3; 4] {| it_num := 1; it_pos := 0 |} 3
                     _ _ _) _).
    + repeat constructor.
    + left. unfold it_ok. vm_compute. intuition discriminate.
    + lia.
    + vm_compute. reflexivity.
Defined.

(** X6.  [iov_sub] undoes [iov_add]: advancing from a byte by [size] to a
    position before the end and retreating by [size] gives the iterator
    back. *)
Theorem X6_iov_add_sub (iov : list Z) (it : iov_iter) (size : Z) :
  regions_ok iov -> it_ok iov it -> 0 <= size ->
  it_off iov it + size < sum_sizes iov ->
  rbind (iov_add iov it size) (fun it1 => iov_sub iov it1 size) = Ok it.
Proof.
  intros Hr Hok Hs H.
  destruct (iov_add_inside iov it size Hr Hok Hs H)
    as (it1 & Ea & Hok1 & Hoff1).
  rewrite Ea. cbn [rbind].
  destruct (Z.eq_dec size 0) as [->|Hne].
  - (* nothing to undo *)
    assert (it1 = it) by (apply (it_off_inj iov); try assumption; lia).
    subst it1. unfold iov_sub. cbn [iov_sub_loop].
    destruct Hok as [_ Hp].
    destruct (Z.geb_spec (it_pos it) 0); [|lia].
    destruct it as [n p]. simpl. f_equal. f_equal. lia.
  - pose proof (it_off_bound iov it Hr Hok) as Hb.
    destruct (iov_sub_back iov it1 size Hr (or_introl Hok1) ltac:(lia))
      as [Hback _].
    destruct Hback as (it2 & Es & Hok2 & Hoff2); [lia|].
    rewrite Es. f_equal. apply (it_off_inj iov); try assumption. lia.
Qed.

Lemma X6_iov_add_sub_witness :
  rbind (iov_add [2; 3; 4] {| it_num := 0; it_pos := 1 |} 5)
        (fun it1 => iov_sub [2; 3; 4] it1 5)
  = Ok {| it_num := 0; it_pos := 1 |}.
Proof.
  refine (X6_iov_add_sub [2; 3; 4] {| it_num := 0; it_pos := 1 |} 5 _ _ _ _).
  - repeat constructor.
  - unfold it_ok. vm_compute. intuition discriminate.
  - lia.
  - vm_compute. reflexivity.
Defined.

(** * Further properties of the copies through the iterator *)

(** X7.  [iov_memset] of [size] bytes that fit in the regions from the
    iterator on: the output stream has [size] copies of [val] at the
    iterator's position and is unchanged before and behind them, the
    region sizes, the buffer and the source are untouched, and, unless the
    run ends with the last region, the call returns the iterator behind
    the run. *)
Theorem X7_iov_memset (U : Type) (w : world U) (out : iov_iter)
        (val size : Z) :
  regions_ok (iov_of (w_out w)) -> it_ok (iov_of (w_out w)) out ->
  0 <= size ->
  it_off (iov_of (w_out w)) out + size <= sum_sizes (iov_of (w_out w)) ->
  let iov := iov_of (w_out w) in
  let rw := iov_memset iov out val size w in
  concat (w_out (snd rw))
  = firstn (Z.to_nat (it_off iov out)) (concat (w_out w))
      ++ repeat val (Z.to_nat size)
      ++ skipn (Z.to_nat (it_off iov out + size)) (concat (w_out w)) /\
  iov_of (w_out (snd rw)) = iov /\
  w_buf (snd rw) = w_buf w /\ w_user (snd rw) = w_user w /\
  (it_off iov out + size < sum_sizes iov ->
   exists out', fst rw = Ok out' /\ it_ok iov out' /\
                it_off iov out' = it_off iov out + size).
Proof.
  intros Hr Hok Hs Hfit iov rw. fold iov in Hr, Hok, Hfit.
  unfold rw, iov_memset.
  destruct (iov_memset_loop U (Z.to_nat size) iov out val size w)
    as [r w'] eqn:E.
  destruct (iov_memset_loop_spec U iov val Hr (Z.to_nat size) w out size
              eq_refl Hok Hs ltac:(lia) Hfit r w' E)
    as (Hflat & Hiov & Hbuf & Huser & Hret & _).
  cbn [fst snd].
  pose proof (it_off_bound iov out Hr Hok) as Hb.
  split; [|auto].
  rewrite Hflat. unfold splice. rewrite repeat_length.
  do 3 f_equal. lia.
Qed.

Lemma X7_iov_memset_witness :
  let w := {| w_buf := Tex3DS_BufferInit [] 0 0; w_user := tt;
              w_out := [[1; 2]; [3; 4; 5]; [6]] |} in
  let out := {| it_num := 0; it_pos := 1 |} in
  let rw := iov_memset [2; 3; 1] out 9 3 w in
  concat (w_out (snd rw)) = [1] ++ [9; 9; 9] ++ [5; 6] /\
  iov_of (w_out (snd rw)) = [2; 3; 1] /\
  w_buf (snd rw) = w_buf w /\ w_user (snd rw) = w_user w /\
  (1 + 3 < 6 ->
   exists out', fst rw = Ok out' /\ it_ok [2; 3; 1] out' /\
                it_off [2; 3; 1] out' = 1 + 3).
Proof.
  refine (X7_iov_memset unit
            {| w_buf := Tex3DS_BufferInit [] 0 0; w_user := tt;
               w_out := [[1; 2]; [3; 4; 5]; [6]] |}
            {| it_num := 0; it_pos := 1 |} 9 3 _ _ _ _).
  - repeat constructor.
  - unfold it_ok. vm_compute. intuition discriminate.
  - lia.
  - vm_compute. discriminate.
Defined.

(** X8.  [iov_read] of [size] bytes that the input has and that fit in the
    regions from the iterator on: the output stream has the next [size]
    input bytes at the iterator's position and is unchanged before and
    behind them, whatever region boundaries and buffer refills lie between;
    the input to come is the rest; and, unless the bytes end with the last
    region, the call returns [true] with the iterator behind them. *)
Theorem X8_iov_read (w : world fd_state) (out : iov_iter) (size : Z) :
  input_ok w -> regions_ok (iov_of (w_out w)) ->
  it_ok (iov_of (w_out w)) out -> 0 <= size <= SIZE_MAX ->
  it_off (iov_of (w_out w)) out + size <= sum_sizes (iov_of (w_out w)) ->
  size <= len (in_stream w) ->
  let iov := iov_of (w_out w) in
  let rw := iov_read callback_fd iov out size w in
  concat (w_out (snd rw))
  = firstn (Z.to_nat (it_off iov out)) (concat (w_out w))
      ++ firstn (Z.to_nat size) (in_stream w)
      ++ skipn (Z.to_nat (it_off iov out + size)) (concat (w_out w)) /\
  iov_of (w_out (snd rw)) = iov /\
  input_ok (snd rw) /\
  in_stream (snd rw) = skipn (Z.to_nat size) (in_stream w) /\
  (it_off iov out + size < sum_sizes iov ->
   exists out', fst rw = Ok (true, out') /\ it_ok iov out' /\
                it_off iov out' = it_off iov out + size).
Proof.
  intros Hb Hr Hok Hs Hfit Hin iov rw. fold iov in Hr, Hok, Hfit.
  unfold rw, iov_read.
  destruct (iov_read_loop fd_state callback_fd (Z.to_nat size) iov out size w)
    as [r w'] eqn:E.
  destruct (iov_read_loop_spec iov Hr (Z.to_nat size) w out size
              Hb eq_refl Hok Hs ltac:(lia) Hfit Hin r w' E)
    as (Hflat & Hiov & Hb' & Hst' & Hret & _).
  cbn [fst snd].
  pose proof (it_off_bound iov out Hr Hok) as Hbound.
  split; [|auto].
  rewrite Hflat. unfold splice. rewrite length_firstn.
  do 3 f_equal. unfold len in Hin. lia.
Qed.

Lemma X8_iov_read_witness :
  let w := fd_world 2 [7; 8; 9; 10] [1] [[1; 2]; [3; 4; 5]; [6]] in
  let out := {| it_num := 0; it_pos := 1 |} in
  let rw := iov_read callback_fd [2; 3; 1] out 3 w in
  concat (w_out (snd rw)) = [1] ++ [7; 8; 9] ++ [5; 6] /\
  iov_of (w_out (snd rw)) = [2; 3; 1] /\
  input_ok (snd rw) /\
  in_stream (snd rw) = [10] /\
  (1 + 3 < 6 ->
   exists out', fst rw = Ok (true, out') /\ it_ok [2; 3; 1] out' /\
                it_off [2; 3; 1] out' = 1 + 3).
Proof.
  refine (X8_iov_read (fd_world 2 [7; 8; 9; 10] [1] [[1; 2]; [3; 4; 5]; [6]])
            {| it_num := 0; it_pos := 1 |} 3 _ _ _ _ _ _).
  - unfold input_ok, buffer_ok. vm_compute. intuition discriminate.
  - repeat constructor.
  - unfold it_ok. vm_compute. intuition discriminate.
  - vm_compute. intuition discriminate.
  - vm_compute. discriminate.
  - vm_compute. discriminate.
Defined.

(** [iov_read] of more bytes than the input has: the call returns [false],
    and the bytes the input had are in the output. *)
Lemma iov_read_loop_short (iov : list Z) :
  regions_ok iov ->
  forall (fuel : nat) (w : world fd_state) (out : iov_iter) (size : Z),
    input_ok w -> iov_of (w_out w) = iov -> it_ok iov out ->
    0 <= size <= SIZE_MAX -> (Z.to_nat size <= fuel)%nat ->
    it_off iov out + size <= sum_sizes iov ->
    len (in_stream w) < size ->
    exists out' w',
      iov_read_loop fd_state callback_fd fuel iov out size w
      = (Ok (false, out'), w') /\
      concat (w_out w')
      = splice (concat (w_out w)) (it_off iov out) (in_stream w) /\
      iov_of (w_out w') = iov.
Proof.
  intros Hr. induction fuel as [|fuel IH];
    intros w out size Hb Hiov Hok Hs Hf Hfit Hin;
    pose proof (len_nonneg (in_stream w)) as Hnn; [lia|].
  cbn [iov_read_loop].
  destruct (Z.gtb_spec size 0) as [Hpos|Hzero]; [|lia]. cbn [negb].
  pose proof (it_off_bound iov out Hr Hok) as Hbound.
  rewrite (bind_lift _ _ _ _ (iov_check_ok iov out Hok)).
  rewrite (bind_lift _ _ _ _ (iov_addr_ok iov out Hok)).
  set (sz := nth (Z.to_nat (it_num out)) iov 0) in *.
  set (bytes := min_bytes (sz - it_pos out) size) in *.
  assert (Hbytes : 0 < bytes <= size /\ bytes <= sz - it_pos out).
  { unfold bytes, min_bytes. destruct Hok as [_ Hp]. fold sz in Hp.
    destruct (Z.ltb_spec size (sz - it_pos out)); lia. }
  destruct (Z.le_gt_cases bytes (len (in_stream w))) as [Hhas|Hshort].
  - (* this block is there; a later one is not *)
    destruct (BufferRead_stream w bytes Hb ltac:(lia) Hhas)
      as (w1 & Er & Hb1 & Hst1 & Ho1 & _).
    assert (Hlb : len (firstn (Z.to_nat bytes) (in_stream w)) = bytes)
      by (apply len_firstn; lia).
    destruct (store_bytes_flat (w_out w1) out
                (firstn (Z.to_nat bytes) (in_stream w)))
      as (m1 & Es & Hiov1 & Hflat1).
    { rewrite Ho1, Hiov. exact Hok. }
    { rewrite Ho1, Hiov. fold sz. lia. }
    rewrite Ho1, Hiov in Hiov1, Hflat1.
    rewrite (bind_ok _ _ _ _ _ (to_out_ok _ _ _ _ _ _ _ _ Er Es)).
    cbn [negb].
    set (w2 := {| w_buf := w_buf w1; w_user := w_user w1; w_out := m1 |}) in *.
    assert (Hb2 : input_ok w2) by exact Hb1.
    assert (Hst2 : in_stream w2 = skipn (Z.to_nat bytes) (in_stream w))
      by exact Hst1.
    destruct (iov_add_inside iov out bytes Hr Hok ltac:(lia) ltac:(lia))
      as (out1 & Ea & Hok1 & Hoff1).
    rewrite (bind_lift _ _ _ _ Ea).
    destruct (IH w2 out1 (size - bytes) Hb2 Hiov1 Hok1 ltac:(lia) ltac:(lia)
                ltac:(lia) ltac:(rewrite Hst2, len_skipn by lia; lia))
      as (out' & w' & E & Hflat & Hiov').
    exists out', w'. split; [exact E|]. split; [|exact Hiov'].
    rewrite Hflat. simpl w_out. rewrite Hflat1, Hoff1, Hst2.
    replace (it_off iov out + bytes)
      with (it_off iov out + len (firstn (Z.to_nat bytes) (in_stream w)))
      by lia.
    rewrite splice_splice.
    + rewrite firstn_skipn. reflexivity.
    + lia.
    + rewrite Hlb, len_skipn by lia.
      rewrite sum_sizes_concat, Hiov. lia.
  - (* the input ends inside this block *)
    destruct (BufferRead_short w bytes Hb ltac:(lia) Hshort)
      as (w1 & Er & Ho1 & _).
    destruct (store_bytes_flat (w_out w1) out (in_stream w))
      as (m1 & Es & Hiov1 & Hflat1).
    { rewrite Ho1, Hiov. exact Hok. }
    { rewrite Ho1, Hiov. fold sz. lia. }
    rewrite Ho1, Hiov in Hiov1, Hflat1.
    rewrite (bind_ok _ _ _ _ _ (to_out_ok _ _ _ _ _ _ _ _ Er Es)).
    cbn [negb]. eexists. eexists. split; [reflexivity|].
    simpl w_out. auto.
Qed.

(** X9.  [iov_read] of more bytes than the input has before its end (or
    before an error of the source): the call returns [false], the bytes
    the input had are in the output at the iterator's position, and the
    region sizes are untouched. *)
Theorem X9_iov_read_short (w : world fd_state) (out : iov_iter) (size : Z) :
  input_ok w -> regions_ok (iov_of (w_out w)) ->
  it_ok (iov_of (w_out w)) out -> 0 <= size <= SIZE_MAX ->
  it_off (iov_of (w_out w)) out + size <= sum_sizes (iov_of (w_out w)) ->
  len (in_stream w) < size ->
  let iov := iov_of (w_out w) in
  exists out' w',
    iov_read callback_fd iov out size w = (Ok (false, out'), w') /\
    concat (w_out w')
    = firstn (Z.to_nat (it_off iov out)) (concat (w_out w))
        ++ in_stream w
        ++ skipn (Z.to_nat (it_off iov out) + length (in_stream w))
             (concat (w_out w)) /\
    iov_of (w_out w') = iov.
Proof.
  intros Hb Hr Hok Hs Hfit Hin iov.
  exact (iov_read_loop_short iov Hr (Z.to_nat size) w out size Hb eq_refl Hok
           Hs ltac:(lia) Hfit Hin).
Qed.

Lemma X9_iov_read_short_witness :
  exists out' w',
    iov_read callback_fd [2; 3; 1] {| it_num := 0; it_pos := 1 |} 4
      (fd_world 2 [7; 8; 9] [1] [[1; 2]; [3; 4; 5]; [6]])
    = (Ok (false, out'), w') /\
    concat (w_out w') = [1] ++ [7; 8; 9] ++ [5; 6] /\
    iov_of (w_out w') = [2; 3; 1].
Proof.
  refine (X9_iov_read_short
            (fd_world 2 [7; 8; 9] [1] [[1; 2]; [3; 4; 5]; [6]])
            {| it_num := 0; it_pos := 1 |} 4 _ _ _ _ _ _).
  - unfold input_ok, buffer_ok. vm_compute. intuition discriminate.
  - repeat constructor.
  - unfold it_ok. vm_compute. intuition discriminate.
  - vm_compute. intuition discriminate.
  - vm_compute. discriminate.
  - vm_compute. reflexivity.
Defined.

(** * The byte loop of [iov_memmove] *)

Lemma load_at (m : memory) (n i : nat) (r : region) :
  nth_error m n = Some r -> (i < length r)%nat ->
  load m (Z.of_nat n, Z.of_nat i) = Ok (nth i r 0).
Proof.
  intros E Hi. unfold load. simpl fst. simpl snd.
  destruct (Z.leb_spec 0 (Z.of_nat n)); [|lia].
  destruct (Z.leb_spec 0 (Z.of_nat i)); [|lia]. cbn [andb].
  rewrite !Nat2Z.id, E.
  destruct (nth_error r i) as [v|] eqn:Ev.
  - rewrite (nth_error_nth _ _ _ Ev). reflexivity.
  - apply nth_error_None in Ev. lia.
Qed.

Lemma store_at (m : memory) (n o : nat) (r : region) (v : Z) :
  nth_error m n = Some r -> (o < length r)%nat ->
  store m (Z.of_nat n, Z.of_nat o) v
  = Ok (firstn n m ++ (firstn o r ++ v :: skipn (S o) r) :: skipn (S n) m).
Proof.
  intros E Ho. unfold store, store_bytes, poke. simpl fst. simpl snd.
  destruct (Z.leb_spec 0 (Z.of_nat n)); [|lia].
  rewrite !Nat2Z.id, E.
  destruct (Z.leb_spec 0 (Z.of_nat o)); [|lia].
  destruct (Z.leb_spec (Z.of_nat o + len [v]) (len r));
    [|unfold len in *; simpl in *; lia].
  cbn [andb rbind]. unfold splice. rewrite Nat2Z.id. cbn [length app].
  replace (o + 1)%nat with (S o) by lia. reflexivity.
Qed.

Lemma nth_error_replaced {A : Type} (m : list A) (n : nat) (x : A) :
  (n < length m)%nat ->
  nth_error (firstn n m ++ x :: skipn (S n) m) n = Some x.
Proof.
  intros Hn. rewrite nth_error_app2 by (rewrite length_firstn; lia).
  rewrite length_firstn. replace (n - Nat.min n (length m))%nat with 0%nat by lia.
  reflexivity.
Qed.

Lemma firstn_replaced {A : Type} (m : list A) (n : nat) (x : A) :
  (n < length m)%nat ->
  firstn n (firstn n m ++ x :: skipn (S n) m) = firstn n m.
Proof.
  intros Hn. rewrite firstn_app_le by (rewrite length_firstn; lia).
  apply firstn_all2. rewrite length_firstn. lia.
Qed.

Lemma skipn_replaced {A : Type} (m : list A) (n : nat) (x : A) :
  (n < length m)%nat ->
  skipn (S n) (firstn n m ++ x :: skipn (S n) m) = skipn (S n) m.
Proof.
  intros Hn. rewrite skipn_app_ge by (rewrite length_firstn; lia).
  rewrite length_firstn.
  replace (S n - Nat.min n (length m))%nat with 1%nat by lia. reflexivity.
Qed.

(** The byte loop inside one region, with the source before the
    destination: the region behind the loop is the back-reference of the
    specification. *)
Lemma copy_loop_extend :
  forall (k : nat) (m : memory) (n : nat) (r : region) (o i : nat),
    nth_error m n = Some r -> (i < o)%nat -> (o + k <= length r)%nat ->
    Z.of_nat k <= SIZE_MAX ->
    copy_loop k m (Z.of_nat n, Z.of_nat o) (Z.of_nat n, Z.of_nat i)
      (Z.of_nat k)
    = Ok (firstn n m
            ++ (extend (firstn o r) (o - i) k ++ skipn (o + k) r)
            :: skipn (S n) m,
          SIZE_MAX).
Proof.
  induction k as [|k IH]; intros m n r o i E Hi Hfit Hmax.
  - cbn [copy_loop extend]. rewrite Nat.add_0_r, firstn_skipn.
    change (Z.of_nat 0) with 0. change (0 >? 0) with false. cbv iota.
    rewrite (nth_error_split _ _ _ E) at 1. reflexivity.
  - cbn [copy_loop].
    destruct (Z.gtb_spec (Z.of_nat (S k)) 0); [|lia].
    rewrite wrap_small by lia.
    rewrite (load_at m n i r E ltac:(lia)). cbn [rbind].
    rewrite (store_at m n o r _ E ltac:(lia)). cbn [rbind].
    unfold addr_add. simpl fst. simpl snd.
    assert (Hn : (n < length m)%nat)
      by (apply nth_error_Some; rewrite E; discriminate).
    set (v := nth i r 0).
    set (r1 := firstn o r ++ v :: skipn (S o) r).
    set (m1 := firstn n m ++ r1 :: skipn (S n) m).
    assert (E1 : nth_error m1 n = Some r1) by (apply nth_error_replaced; exact Hn).
    assert (Hl1 : length r1 = length r).
    { unfold r1. rewrite length_app, length_firstn. cbn [length].
      rewrite length_skipn. lia. }
    replace (Z.of_nat o + 1) with (Z.of_nat (S o)) by lia.
    replace (Z.of_nat i + 1) with (Z.of_nat (S i)) by lia.
    replace (Z.of_nat (S k) - 1) with (Z.of_nat k) by lia.
    rewrite (IH m1 n r1 (S o) (S i) E1) by lia.
    unfold m1. rewrite firstn_replaced, skipn_replaced by exact Hn.
    do 3 f_equal.
    assert (Hpre : firstn (S o) r1 = firstn o r ++ [v]).
    { unfold r1. rewrite firstn_app_ge by (rewrite length_firstn; lia).
      rewrite length_firstn.
      replace (S o - Nat.min o (length r))%nat with 1%nat by lia.
      reflexivity. }
    assert (Hpost : skipn (S o + k) r1 = skipn (o + S k) r).
    { unfold r1. rewrite skipn_app_ge by (rewrite length_firstn; lia).
      rewrite length_firstn.
      replace (S o + k - Nat.min o (length r))%nat with (S k) by lia.
      rewrite skipn_cons, skipn_skipn. f_equal. lia. }
    rewrite Hpre, Hpost. cbn [extend].
    replace (S o - S i)%nat with (o - i)%nat by lia.
    assert (Hv : nth i (firstn o r) 0 = v).
    { unfold v. rewrite <- (firstn_skipn o r) at 2.
      rewrite app_nth1 by (rewrite length_firstn; lia). reflexivity. }
    rewrite length_firstn.
    replace (Nat.min o (length r) - (o - i))%nat with i by lia.
    rewrite Hv. reflexivity.
Qed.

Lemma extend_one (pre : list Z) (k : nat) :
  pre <> [] -> extend pre 1 k = pre ++ repeat (last pre 0) k.
Proof.
  revert pre. induction k as [|k IH]; intros pre Hne; cbn [extend repeat].
  - symmetry. apply app_nil_r.
  - assert (Hlast : nth (length pre - 1) pre 0 = last pre 0).
    { destruct (exists_last Hne) as (l & x & ->).
      rewrite length_app, last_last. cbn [length].
      rewrite app_nth2 by lia.
      replace (length l + 1 - 1 - length l)%nat with 0%nat by lia.
      reflexivity. }
    rewrite Hlast, IH by (destruct pre; discriminate).
    rewrite last_last, <- app_assoc. reflexivity.
Qed.

(** X10.  The byte loop of [iov_memmove] inside one region, with the source
    [d >= 1] bytes before the destination: behind the loop the region
    holds, from the destination on, the back-reference of the
    specification, so bytes written by the loop are read again when the
    copy is longer than [d], and the bytes before and behind are
    unchanged; with [d = 1] the [k] bytes are copies of the byte before the
    destination.  The other regions are untouched, and the loop leaves
    [bytes] at [SIZE_MAX]. *)
Theorem X10_copy_loop_overlap :
  forall (k : nat) (m : memory) (n : nat) (r : region) (o d : nat),
    nth_error m n = Some r -> (1 <= d <= o)%nat -> (o + k <= length r)%nat ->
    Z.of_nat k <= SIZE_MAX ->
    copy_loop k m (Z.of_nat n, Z.of_nat o) (Z.of_nat n, Z.of_nat o - Z.of_nat d)
      (Z.of_nat k)
    = Ok (firstn n m
            ++ (extend (firstn o r) d k ++ skipn (o + k) r)
            :: skipn (S n) m,
          SIZE_MAX) /\
    (d = 1%nat ->
     extend (firstn o r) d k
     = firstn o r ++ repeat (nth (o - 1) r 0) k).
Proof.
  intros k m n r o d E Hd Hfit Hmax. split.
  - replace (Z.of_nat o - Z.of_nat d) with (Z.of_nat (o - d)) by lia.
    rewrite (copy_loop_extend k m n r o (o - d) E) by lia.
    replace (o - (o - d))%nat with d by lia. reflexivity.
  - intros ->.
    assert (Hne : firstn o r <> []).
    { intros H0. apply (f_equal (@length Z)) in H0.
      rewrite length_firstn in H0. simpl in H0. lia. }
    rewrite extend_one by exact Hne. do 2 f_equal.
    destruct (exists_last Hne) as (l & x & Hl).
    rewrite Hl, last_last.
    assert (Hlen : length l = (o - 1)%nat).
    { apply (f_equal (@length Z)) in Hl.
      rewrite length_firstn, length_app in Hl. simpl in Hl. lia. }
    rewrite <- (firstn_skipn o r), Hl.
    rewrite app_nth1 by (rewrite length_app; simpl; lia).
    rewrite app_nth2 by lia.
    rewrite Hlen, Nat.sub_diag. reflexivity.
Qed.

Lemma X10_copy_loop_overlap_witness :
  copy_loop 6 [[9]; [65; 0; 0; 0; 0; 0; 0; 7]] (Z.of_nat 1, Z.of_nat 1)
    (Z.of_nat 1, Z.of_nat 1 - Z.of_nat 1) (Z.of_nat 6)
  = Ok ([[9]; [65; 65; 65; 65; 65; 65; 65; 7]], SIZE_MAX) /\
  (1%nat = 1%nat ->
   extend (firstn 1 [65; 0; 0; 0; 0; 0; 0; 7]) 1 6
   = firstn 1 [65; 0; 0; 0; 0; 0; 0; 7] ++ repeat 65 6).
Proof.
  refine (X10_copy_loop_overlap 6 [[9]; [65; 0; 0; 0; 0; 0; 0; 7]] 1
            [65; 0; 0; 0; 0; 0; 0; 7] 1 1 _ _ _ _).
  - reflexivity.
  - lia.
  - simpl. lia.
  - vm_compute. discriminate.
Defined.

(** * Further properties of the buffer *)

Lemma buffer_inv_ok (b : Tex3DS_Buffer) : buffer_inv b -> buffer_ok b.
Proof. unfold buffer_inv, buffer_ok. lia. Qed.

(** [Tex3DS_BufferRead] over any source that keeps to the contract: the
    loop ends, reads only inside the block, and keeps the fields of the
    buffer in order. *)
Lemma BufferRead_loop_safe (U : Type)
      (cb : U -> list Z -> Z -> Z * list Z * U) :
  source_ok cb ->
  forall (fuel : nat) (b : Tex3DS_Buffer) (u : U) (dest : list Z) (size : Z),
    buffer_inv b -> 0 <= size <= SIZE_MAX ->
    (size < Z.of_nat fuel \/
     (size <= Z.of_nat fuel /\ 0 < b_size b - b_pos b)) ->
    exists r b' u',
      BufferRead_loop U cb fuel b u dest size = (r, b', u') /\
      buffer_inv b' /\ b_limit b' = b_limit b /\
      length (b_data b') = length (b_data b) /\
      ((exists bs, r = Ok (true, dest ++ bs) /\ len bs = size) \/
       (exists bs, r = Ok (false, dest ++ bs) /\ len bs < size /\
                   b_size b' = 0)).
Proof.
  intros Hcb. induction fuel as [|fuel IH]; intros b u dest size Hb Hs Hf.
  - assert (size = 0) by lia. subst size. simpl.
    exists (Ok (true, dest)), b, u. repeat split; try apply Hb.
    left. exists []. rewrite app_nil_r. split; reflexivity.
  - cbn [BufferRead_loop].
    destruct (Z.gtb_spec size 0) as [Hpos|Hzero]; cbn [negb].
    2:{ assert (size = 0) by lia. subst size.
        exists (Ok (true, dest)), b, u. repeat split; try apply Hb.
        left. exists []. rewrite app_nil_r. split; reflexivity. }
    pose proof (len_resident b (buffer_inv_ok b Hb)) as Hres.
    destruct Hb as (Hp & Hsz & Hlim & Hmax).
    rewrite (wrap_small (b_size b - b_pos b)) by lia.
    destruct (Z.leb_spec size (b_size b - b_pos b)) as [Hin|Hout].
    + rewrite slice_ok by lia.
      eexists. eexists. eexists. split; [reflexivity|].
      split; [unfold buffer_inv; simpl; rewrite wrap_small by lia; lia|].
      split; [reflexivity|]. split; [reflexivity|].
      left. eexists. split; [reflexivity|]. apply len_firstn.
      rewrite len_skipn by lia. lia.
    + assert (Hbs : (if negb (b_pos b =? b_size b)
                     then slice (b_data b) (b_pos b) (b_size b - b_pos b)
                     else Ok []) = Ok (resident b)).
      { destruct (Z.eqb_spec (b_pos b) (b_size b)) as [E|E]; cbn [negb].
        - unfold resident. rewrite E, Z.sub_diag. reflexivity.
        - rewrite slice_ok by lia. reflexivity. }
      rewrite Hbs.
      assert (Hsize : (if negb (b_pos b =? b_size b)
                       then wrap (size - (b_size b - b_pos b)) else size)
                      = size - (b_size b - b_pos b)).
      { destruct (Z.eqb_spec (b_pos b) (b_size b)) as [E|E]; cbn [negb].
        - lia.
        - apply wrap_small. lia. }
      rewrite Hsize.
      pose proof (Hcb u (b_data b) (b_limit b) ltac:(lia)) as Hc.
      destruct (cb u (b_data b) (b_limit b)) as [[rc data'] u'].
      cbn [fst snd] in Hc. destruct Hc as [Hrc Hdl].
      destruct (Z.leb_spec rc 0) as [Hend|Hmore].
      * eexists. eexists. eexists. split; [reflexivity|].
        split; [unfold buffer_inv, len in *; simpl; rewrite Hdl; lia|].
        split; [reflexivity|]. split; [exact Hdl|].
        right. exists (resident b). split; [reflexivity|].
        split; [lia|reflexivity].
      * rewrite (wrap_small rc) by lia. cbn [b_limit b_total].
        set (b1 := {| b_data := data'; b_limit := b_limit b; b_size := rc;
                      b_pos := 0; b_total := b_total b |}).
        assert (Hb1 : buffer_inv b1)
          by (unfold buffer_inv, b1, len in *; simpl; rewrite Hdl; lia).
        destruct (IH b1 u' (dest ++ resident b) (size - (b_size b - b_pos b))
                    Hb1 ltac:(lia) ltac:(simpl; lia))
          as (r & b' & u'' & E & Hinv & Hl & Hd & Hcase).
        exists r, b', u''. split; [exact E|]. split; [exact Hinv|].
        split; [exact Hl|]. split; [simpl in Hd; congruence|].
        destruct Hcase as [(bs & -> & Hlen)|(bs & -> & Hlen & Hz)].
        -- left. exists (resident b ++ bs). rewrite app_assoc.
           split; [reflexivity|]. rewrite len_app. lia.
        -- right. exists (resident b ++ bs). rewrite app_assoc.
           split; [reflexivity|]. rewrite len_app. split; [lia|exact Hz].
Qed.

Lemma callback_fd_contract : source_ok callback_fd.
Proof.
  intros u data limit Hl. unfold callback_fd, fd_deliver.
  pose proof (len_nonneg (fd_file u)) as Hnn.
  assert (Hsplice : forall k, k <= limit ->
             length (splice data 0 (firstn (Z.to_nat k) (fd_file u)))
             = length data).
  { intros k Hk. apply splice_length; [lia|].
    unfold len in *. rewrite length_firstn. lia. }
  destruct (fd_sched u) as [|q sched]; cbn [fst snd].
  - split; [lia|]. apply Hsplice. lia.
  - destruct (Z.ltb_spec q 0); cbn [fst snd].
    + split; [lia|reflexivity].
    + split; [lia|]. apply Hsplice. lia.
Qed.

(** X11.  [Tex3DS_BufferRead] over any source that returns at most the
    size it is asked for and stays inside the block: from a buffer whose
    fields are in order ([pos <= size <= limit], [limit] bytes in the
    block) the call comes to an end, never reads outside the block, and
    either returns [true] having copied exactly [size] bytes or returns
    [false] having copied fewer and leaving the buffer empty; the fields
    are in order afterwards, [limit] and the block's length are unchanged,
    and the output regions are untouched. *)
Theorem X11_BufferRead_safe (U : Type)
        (cb : U -> list Z -> Z -> Z * list Z * U) (w : world U) (size : Z) :
  source_ok cb -> buffer_inv (w_buf w) -> 0 <= size <= SIZE_MAX ->
  let rw := Tex3DS_BufferRead cb size w in
  buffer_inv (w_buf (snd rw)) /\
  b_limit (w_buf (snd rw)) = b_limit (w_buf w) /\
  length (b_data (w_buf (snd rw))) = length (b_data (w_buf w)) /\
  w_out (snd rw) = w_out w /\
  ((exists bs, fst rw = Ok (true, bs) /\ len bs = size) \/
   (exists bs, fst rw = Ok (false, bs) /\ len bs < size /\
               b_size (w_buf (snd rw)) = 0)).
Proof.
  intros Hcb Hb Hs rw. unfold rw, Tex3DS_BufferRead.
  destruct (BufferRead_loop_safe U cb Hcb (S (Z.to_nat size)) (w_buf w)
              (w_user w) [] size Hb Hs ltac:(lia))
    as (r & b' & u' & E & Hinv & Hl & Hd & Hcase).
  rewrite E. cbn [fst snd w_buf w_out]. auto.
Qed.

Lemma X11_BufferRead_safe_witness :
  let w := fd_world 2 [7; 8; 9] [1; -1] [] in
  let rw := Tex3DS_BufferRead callback_fd 3 w in
  buffer_inv (w_buf (snd rw)) /\
  b_limit (w_buf (snd rw)) = b_limit (w_buf w) /\
  length (b_data (w_buf (snd rw))) = length (b_data (w_buf w)) /\
  w_out (snd rw) = w_out w /\
  ((exists bs, fst rw = Ok (true, bs) /\ len bs = 3) \/
   (exists bs, fst rw = Ok (false, bs) /\ len bs < 3 /\
               b_size (w_buf (snd rw)) = 0)).
Proof.
  refine (X11_BufferRead_safe fd_state callback_fd
            (fd_world 2 [7; 8; 9] [1; -1] []) 3 _ _ _).
  - exact callback_fd_contract.
  - unfold buffer_inv. vm_compute. intuition discriminate.
  - vm_compute. intuition discriminate.
Defined.

(** X12.  Reads compose: when the input has [a + b] bytes, a
    [Tex3DS_BufferRead] of [a] bytes followed by one of [b] bytes delivers
    the bytes that one read of [a + b] bytes delivers, and leaves the same
    input to come, whatever refills happen in between. *)
Theorem X12_BufferRead_compose (w : world fd_state) (a b : Z) :
  input_ok w -> 0 <= a -> 0 <= b -> a + b <= SIZE_MAX ->
  a + b <= len (in_stream w) ->
  exists x y w1 w2 w3,
    Tex3DS_BufferRead callback_fd a w = (Ok (true, x), w1) /\
    Tex3DS_BufferRead callback_fd b w1 = (Ok (true, y), w2) /\
    Tex3DS_BufferRead callback_fd (a + b) w = (Ok (true, x ++ y), w3) /\
    in_stream w2 = in_stream w3 /\ len x = a /\ len y = b.
Proof.
  intros Hb Ha Hbn Hmax Hin.
  destruct (BufferRead_stream w a Hb ltac:(lia) ltac:(lia))
    as (w1 & E1 & Hb1 & Hst1 & _).
  destruct (BufferRead_stream w1 b Hb1 ltac:(lia))
    as (w2 & E2 & Hb2 & Hst2 & _).
  { rewrite Hst1, len_skipn by lia. lia. }
  destruct (BufferRead_stream w (a + b) Hb ltac:(lia) Hin)
    as (w3 & E3 & Hb3 & Hst3 & _).
  eexists. eexists. exists w1, w2, w3.
  split; [exact E1|]. split; [exact E2|]. split.
  - rewrite E3, Hst1, Z2Nat.inj_add, firstn_plus by lia. reflexivity.
  - split.
    + rewrite Hst2, Hst3, Hst1, skipn_skipn. f_equal. lia.
    + split; [apply len_firstn; lia|].
      apply len_firstn. rewrite Hst1, len_skipn by lia. lia.
Qed.

Lemma X12_BufferRead_compose_witness :
  exists x y w1 w2 w3,
    Tex3DS_BufferRead callback_fd 2 (fd_world 3 [7; 8; 9; 10; 11; 12] [1] [])
    = (Ok (true, x), w1) /\
    Tex3DS_BufferRead callback_fd 3 w1 = (Ok (true, y), w2) /\
    Tex3DS_BufferRead callback_fd (2 + 3)
      (fd_world 3 [7; 8; 9; 10; 11; 12] [1] [])
    = (Ok (true, x ++ y), w3) /\
    in_stream w2 = in_stream w3 /\ len x = 2 /\ len y = 3.
Proof.
  refine (X12_BufferRead_compose (fd_world 3 [7; 8; 9; 10; 11; 12] [1] [])
            2 3 _ _ _ _ _).
  - unfold input_ok, buffer_ok. vm_compute. intuition discriminate.
  - lia.
  - lia.
  - vm_compute. discriminate.
  - vm_compute. discriminate.
Defined.

(** X13.  [Tex3DS_BufferGet] and [Tex3DS_BufferRead] of one byte deliver
    the same byte and leave the same input to come; they differ in
    [total], which [Tex3DS_BufferGet] increments exactly when the byte was
    resident (its fast path) and [Tex3DS_BufferRead] never does. *)
Theorem X13_BufferGet_vs_BufferRead (w : world fd_state) (v : Z)
        (rest : list Z) :
  input_ok w -> in_stream w = v :: rest ->
  let g := Tex3DS_BufferGet callback_fd w in
  let r := Tex3DS_BufferRead callback_fd 1 w in
  fst g = Ok (true, [v]) /\ fst r = Ok (true, [v]) /\
  in_stream (snd g) = rest /\ in_stream (snd r) = rest /\
  b_total (w_buf (snd r)) = b_total (w_buf w) /\
  b_total (w_buf (snd g))
  = (if b_pos (w_buf w) <? b_size (w_buf w)
     then wrap (b_total (w_buf w) + 1)
     else b_total (w_buf w)).
Proof.
  intros Hb Hst g r.
  destruct (BufferGet_stream w v rest Hb Hst) as (wg & Eg & _ & Hsg & _).
  destruct (BufferRead_stream w 1 Hb) as (wr & Er & _ & Hsr & _ & Htot).
  { unfold SIZE_MAX, size_bits. simpl. lia. }
  { rewrite Hst. unfold len. simpl length. lia. }
  rewrite Hst in Er, Hsr.
  change (firstn (Z.to_nat 1) (v :: rest)) with [v] in Er.
  change (skipn (Z.to_nat 1) (v :: rest)) with rest in Hsr.
  unfold g, r. rewrite Eg, Er. cbn [fst snd].
  split; [reflexivity|]. split; [reflexivity|].
  split; [exact Hsg|]. split; [exact Hsr|]. split; [exact Htot|].
  (* which path the get took *)
  unfold Tex3DS_BufferGet in Eg.
  destruct (b_pos (w_buf w) <? b_size (w_buf w)).
  - destruct (slice (b_data (w_buf w)) (b_pos (w_buf w)) 1);
      inversion Eg; subst. reflexivity.
  - rewrite Er in Eg. inversion Eg; subst. exact Htot.
Qed.

Lemma X13_BufferGet_vs_BufferRead_witness :
  let w := {| w_buf := {| b_data := [5; 6]; b_limit := 2; b_size := 2;
                          b_pos := 1; b_total := 10 |};
              w_user := {| fd_file := [7]; fd_sched := [] |};
              w_out := [] |} in
  let g := Tex3DS_BufferGet callback_fd w in
  let r := Tex3DS_BufferRead callback_fd 1 w in
  fst g = Ok (true, [6]) /\ fst r = Ok (true, [6]) /\
  in_stream (snd g) = [7] /\ in_stream (snd r) = [7] /\
  b_total (w_buf (snd r)) = 10 /\
  b_total (w_buf (snd g)) = 11.
Proof.
  refine (X13_BufferGet_vs_BufferRead
            {| w_buf := {| b_data := [5; 6]; b_limit := 2; b_size := 2;
                           b_pos := 1; b_total := 10 |};
               w_user := {| fd_file := [7]; fd_sched := [] |};
               w_out := [] |} 6 [7] _ _).
  - unfold input_ok, buffer_ok. vm_compute. intuition discriminate.
  - reflexivity.
Defined.

(** X14.  The buffer of [Tex3DS_TextureImport], which claims [SIZE_MAX]
    resident bytes over an input in memory: a [Tex3DS_BufferRead] that
    stays inside the input delivers the next bytes without calling the
    source; one that reaches past the end of the input is not refused but
    reads outside the input. *)
Theorem X14_prefilled_buffer (U : Type)
        (cb : U -> list Z -> Z -> Z * list Z * U) (u : U) (out : memory)
        (input : list Z) (limit total pos size : Z) :
  0 <= pos -> 0 < size -> pos + size <= SIZE_MAX ->
  let b := {| b_data := input; b_limit := limit; b_size := SIZE_MAX;
              b_pos := pos; b_total := total |} in
  let w := {| w_buf := b; w_user := u; w_out := out |} in
  (pos + size <= len input ->
   Tex3DS_BufferRead cb size w
   = (Ok (true, firstn (Z.to_nat size) (skipn (Z.to_nat pos) input)),
      {| w_buf := {| b_data := input; b_limit := limit; b_size := SIZE_MAX;
                     b_pos := pos + size; b_total := total |};
         w_user := u; w_out := out |})) /\
  (len input < pos + size ->
   Tex3DS_BufferRead cb size w = (Err BufferOverrun, w)).
Proof.
  intros Hp Hs Hmax b w.
  assert (HM : SIZE_MAX = 4294967295) by reflexivity.
  assert (Hstep : Tex3DS_BufferRead cb size w
                  = match slice input pos size with
                    | Ok bs =>
                        (Ok (true, bs),
                         {| w_buf := {| b_data := input; b_limit := limit;
                                        b_size := SIZE_MAX;
                                        b_pos := wrap (pos + size);
                                        b_total := total |};
                            w_user := u; w_out := out |})
                    | Err f => (Err f, w)
                    end).
  { unfold Tex3DS_BufferRead, w, b. cbn [w_buf w_user w_out].
    cbn [BufferRead_loop].
    destruct (Z.gtb_spec size 0); [|lia]. cbn [negb].
    cbn [b_size b_pos b_data b_limit b_total].
    rewrite (wrap_small (SIZE_MAX - pos)) by lia.
    destruct (Z.leb_spec size (SIZE_MAX - pos)); [|lia].
    destruct (slice input pos size); reflexivity. }
  rewrite Hstep. split; intros H.
  - rewrite slice_ok by lia. rewrite wrap_small by lia. reflexivity.
  - unfold slice.
    destruct (Z.leb_spec (pos + size) (len input)); [lia|].
    rewrite andb_false_r. reflexivity.
Qed.

Lemma X14_prefilled_buffer_witness :
  (Tex3DS_BufferRead callback_fd 2
     {| w_buf := {| b_data := [1; 2; 3]; b_limit := 0; b_size := SIZE_MAX;
                    b_pos := 1; b_total := 0 |};
        w_user := {| fd_file := []; fd_sched := [] |}; w_out := [] |}
   = (Ok (true, [2; 3]),
      {| w_buf := {| b_data := [1; 2; 3]; b_limit := 0; b_size := SIZE_MAX;
                     b_pos := 1 + 2; b_total := 0 |};
         w_user := {| fd_file := []; fd_sched := [] |}; w_out := [] |})) /\
  (Tex3DS_BufferRead callback_fd 3
     {| w_buf := {| b_data := [1; 2; 3]; b_limit := 0; b_size := SIZE_MAX;
                    b_pos := 1; b_total := 0 |};
        w_user := {| fd_file := []; fd_sched := [] |}; w_out := [] |}
   = (Err BufferOverrun,
      {| w_buf := {| b_data := [1; 2; 3]; b_limit := 0; b_size := SIZE_MAX;
                     b_pos := 1; b_total := 0 |};
         w_user := {| fd_file := []; fd_sched := [] |}; w_out := [] |})).
Proof.
  split.
  - refine (proj1 (X14_prefilled_buffer fd_state callback_fd
                     {| fd_file := []; fd_sched := [] |} [] [1; 2; 3] 0 0 1 2
                     _ _ _) _).
    + lia.
    + lia.
    + vm_compute. discriminate.
    + vm_compute. discriminate.
  - refine (proj2 (X14_prefilled_buffer fd_state callback_fd
                     {| fd_file := []; fd_sched := [] |} [] [1; 2; 3] 0 0 1 3
                     _ _ _) _).
    + lia.
    + lia.
    + vm_compute. discriminate.
    + vm_compute. reflexivity.
Defined.

(** * Further properties of the dispatcher *)

Lemma lor_shiftl_add (a b k : Z) :
  0 <= k -> 0 <= a < 2 ^ k -> Z.lor a (Z.shiftl b k) = a + b * 2 ^ k.
Proof.
  intros Hk Ha.
  assert (Hland : Z.land a (Z.shiftl b k) = 0).
  { apply Z.bits_inj'. intros n Hn. rewrite Z.land_spec, Z.bits_0.
    destruct (Z.lt_ge_cases n k).
    - rewrite Z.shiftl_spec_low by lia. apply andb_false_r.
    - rewrite <- (Z.mod_small a (2 ^ k)) by lia.
      rewrite Z.mod_pow2_bits_high by lia. reflexivity. }
  pose proof (Z.add_lor_land a (Z.shiftl b k)) as H.
  rewrite Hland, Z.shiftl_mul_pow2 in H by lia.
  rewrite Z.shiftl_mul_pow2 by lia. lia.
Qed.

Lemma header24 (b1 b2 b3 : Z) :
  is_byte b1 -> is_byte b2 -> is_byte b3 ->
  Z.lor (Z.lor b1 (Z.shiftl b2 8)) (Z.shiftl b3 16)
  = b1 + 256 * b2 + 65536 * b3.
Proof.
  unfold is_byte. intros H1 H2 H3.
  rewrite (lor_shiftl_add b1 b2 8) by (change (2 ^ 8) with 256; lia).
  change (2 ^ 8) with 256.
  rewrite lor_shiftl_add by (change (2 ^ 16) with 65536; lia).
  change (2 ^ 16) with 65536. lia.
Qed.

(** A stored block on an input that has the header and the bytes, with
    more room in the regions than the block declares. *)
Lemma stored_block (malloc512 : option (list Z)) (fuel : nat)
      (w : world fd_state) (b1 b2 b3 : Z) (payload : list Z) :
  input_ok w -> regions_ok (iov_of (w_out w)) ->
  sum_sizes (iov_of (w_out w)) <= SIZE_MAX ->
  in_stream w = 0 :: b1 :: b2 :: b3 :: payload ->
  is_byte b1 -> is_byte b2 -> is_byte b3 ->
  let declared := b1 + 256 * b2 + 65536 * b3 in
  declared < sum_sizes (iov_of (w_out w)) -> declared <= len payload ->
  let rw := Tex3DS_DecompressV callback_fd malloc512 fuel w in
  fst rw = Ok true /\
  concat (w_out (snd rw))
  = firstn (Z.to_nat declared) payload
      ++ skipn (Z.to_nat declared) (concat (w_out w)) /\
  iov_of (w_out (snd rw)) = iov_of (w_out w) /\
  input_ok (snd rw) /\
  in_stream (snd rw) = skipn (Z.to_nat declared) payload.
Proof.
  intros Hb Hr Hcap Hst H1 H2 H3 declared Hroom Hpay rw.
  assert (Hd : 0 <= declared) by (unfold declared, is_byte in *; lia).
  assert (Hne : w_out w <> []).
  { intros E. rewrite E in Hroom. simpl in Hroom. lia. }
  destruct (DecompressV_header malloc512 fuel w 0 b1 b2 b3 payload
              Hb Hne Hcap Hst ltac:(lia)) as (Hplain & _ & _).
  destruct (Hplain eq_refl) as (w1 & Hb1 & Hst1 & Ho1 & E).
  unfold rw. rewrite E, header24 by assumption. fold declared.
  rewrite Z.min_l by lia.
  set (iov := iov_of (w_out w)) in *.
  assert (Hok : it_ok iov iov_begin).
  { apply iov_begin_ok; [exact Hr|].
    unfold iov, iov_of. destruct (w_out w); [congruence|discriminate]. }
  change (dispatch callback_fd malloc512 fuel iov (kind_of 0) declared w1)
    with (bind fd_state (iov_read callback_fd iov iov_begin declared)
            (fun x => let '(ok, _) := x in ret fd_state ok) w1).
  unfold bind, iov_read.
  destruct (iov_read_loop fd_state callback_fd (Z.to_nat declared) iov
              iov_begin declared w1) as [r w'] eqn:El.
  destruct (iov_read_loop_spec iov Hr (Z.to_nat declared) w1 iov_begin
              declared Hb1 ltac:(rewrite Ho1; reflexivity) Hok
              ltac:(lia) ltac:(lia) ltac:(unfold it_off; simpl; lia)
              ltac:(rewrite Hst1; exact Hpay) r w' El)
    as (Hflat & Hiov & Hb' & Hst' & Hret & _).
  destruct (Hret ltac:(unfold it_off; simpl; lia)) as (out' & -> & _).
  cbn [fst snd ret].
  split; [reflexivity|]. split.
  - rewrite Hflat, Hst1, Ho1.
    change (it_off iov iov_begin) with 0.
    unfold splice. change (Z.to_nat 0) with 0%nat.
    cbn [firstn app]. f_equal.
    rewrite length_firstn. f_equal. unfold len in Hpay. lia.
  - split; [exact Hiov|]. split; [exact Hb'|].
    rewrite Hst', Hst1. reflexivity.
Qed.

(** X15.  A stored block (kind 0x00) whose three size bytes declare, lowest
    byte first, fewer bytes than the regions hold, on an input that has
    them: [Tex3DS_DecompressV] returns [true], the declared number of
    payload bytes is at the start of the regions, however they are cut,
    with the bytes behind them as they were, and the input is left behind
    the payload. *)
Theorem X15_stored_block (malloc512 : option (list Z)) (fuel : nat)
        (w : world fd_state) (b1 b2 b3 : Z) (payload : list Z) :
  input_ok w -> regions_ok (iov_of (w_out w)) ->
  sum_sizes (iov_of (w_out w)) <= SIZE_MAX ->
  in_stream w = 0 :: b1 :: b2 :: b3 :: payload ->
  is_byte b1 -> is_byte b2 -> is_byte b3 ->
  let declared := b1 + 256 * b2 + 65536 * b3 in
  declared < sum_sizes (iov_of (w_out w)) -> declared <= len payload ->
  let rw := Tex3DS_DecompressV callback_fd malloc512 fuel w in
  fst rw = Ok true /\
  concat (w_out (snd rw))
  = firstn (Z.to_nat declared) payload
      ++ skipn (Z.to_nat declared) (concat (w_out w)) /\
  iov_of (w_out (snd rw)) = iov_of (w_out w) /\
  input_ok (snd rw) /\
  in_stream (snd rw) = skipn (Z.to_nat declared) payload.
Proof. exact (stored_block malloc512 fuel w b1 b2 b3 payload). Qed.

Lemma X15_stored_block_witness :
  let w := fd_world 3 [0; 3; 0; 0; 7; 8; 9; 10] [2] [[1; 2]; [3; 4; 5]] in
  let rw := Tex3DS_DecompressV callback_fd None 0 w in
  fst rw = Ok true /\
  concat (w_out (snd rw)) = [7; 8; 9] ++ [4; 5] /\
  iov_of (w_out (snd rw)) = [2; 3] /\
  input_ok (snd rw) /\
  in_stream (snd rw) = [10].
Proof.
  refine (X15_stored_block None 0
            (fd_world 3 [0; 3; 0; 0; 7; 8; 9; 10] [2] [[1; 2]; [3; 4; 5]])
            3 0 0 [7; 8; 9; 10] _ _ _ _ _ _ _ _ _).
  - unfold input_ok, buffer_ok. vm_compute. intuition discriminate.
  - repeat constructor.
  - vm_compute. discriminate.
  - reflexivity.
  - unfold is_byte. lia.
  - unfold is_byte. lia.
  - unfold is_byte. lia.
  - vm_compute. reflexivity.
  - vm_compute. discriminate.
Defined.

(** X16.  [Tex3DS_Decompress] of a stored block into one buffer with more
    room than the block declares, from an input that has the bytes:
    the call returns [true] and the buffer holds the payload followed by
    what it held behind it. *)
Theorem X16_Decompress_stored (malloc512 : option (list Z)) (fuel : nat)
        (b : Tex3DS_Buffer) (u : fd_state) (output : region)
        (b1 b2 b3 : Z) (payload : list Z) :
  buffer_ok b -> len output <= SIZE_MAX ->
  resident b ++ supply b u = 0 :: b1 :: b2 :: b3 :: payload ->
  is_byte b1 -> is_byte b2 -> is_byte b3 ->
  let declared := b1 + 256 * b2 + 65536 * b3 in
  declared < len output -> declared <= len payload ->
  let rw := Tex3DS_Decompress callback_fd malloc512 fuel b output u in
  fst rw = Ok true /\
  w_out (snd rw)
  = [firstn (Z.to_nat declared) payload ++ skipn (Z.to_nat declared) output].
Proof.
  intros Hb Hmax Hst H1 H2 H3 declared Hroom Hpay rw.
  pose proof (len_nonneg output) as Hnn.
  assert (Hd : 0 <= declared) by (unfold declared, is_byte in *; lia).
  set (w := {| w_buf := b; w_user := u; w_out := [output] |}).
  assert (Hsum : sum_sizes (iov_of (w_out w)) = len output).
  { unfold w, sum_sizes. cbn [w_out iov_of map fold_right]. lia. }
  destruct (stored_block malloc512 fuel w b1 b2 b3 payload Hb)
    as (Hret & Hflat & Hiov & _).
  - unfold w. cbn [w_out iov_of map]. constructor; [lia|constructor].
  - rewrite Hsum. exact Hmax.
  - exact Hst.
  - exact H1.
  - exact H2.
  - exact H3.
  - rewrite Hsum. exact Hroom.
  - exact Hpay.
  - unfold rw, Tex3DS_Decompress. fold w. split; [exact Hret|].
    destruct (w_out (snd (Tex3DS_DecompressV callback_fd malloc512 fuel w)))
      as [|r [|r' m]]; try discriminate Hiov.
    cbn [concat] in Hflat. rewrite !app_nil_r in Hflat.
    unfold w in Hflat. cbn [w_out concat] in Hflat.
    rewrite app_nil_r in Hflat. rewrite Hflat. reflexivity.
Qed.

Lemma X16_Decompress_stored_witness :
  let rw := Tex3DS_Decompress callback_fd None 0
              (Tex3DS_BufferInit [0; 0; 0; 0] 4 0) [1; 2; 3; 4]
              {| fd_file := [0; 2; 0; 0; 7; 8; 9]; fd_sched := [3] |} in
  fst rw = Ok true /\ w_out (snd rw) = [[7; 8] ++ [3; 4]].
Proof.
  refine (X16_Decompress_stored None 0
            (Tex3DS_BufferInit [0; 0; 0; 0] 4 0)
            {| fd_file := [0; 2; 0; 0; 7; 8; 9]; fd_sched := [3] |}
            [1; 2; 3; 4] 2 0 0 [7; 8; 9] _ _ _ _ _ _ _ _).
  - unfold buffer_ok. vm_compute. intuition discriminate.
  - vm_compute. discriminate.
  - reflexivity.
  - unfold is_byte. lia.
  - unfold is_byte. lia.
  - unfold is_byte. lia.
  - vm_compute. reflexivity.
  - vm_compute. discriminate.
Defined.

(** X17.  A stored block whose payload ends before the declared size and
    before the regions are full: [Tex3DS_DecompressV] returns [false], and
    the payload bytes that did arrive are at the start of the regions. *)
Theorem X17_stored_block_truncated (malloc512 : option (list Z)) (fuel : nat)
        (w : world fd_state) (b1 b2 b3 : Z) (payload : list Z) :
  input_ok w -> regions_ok (iov_of (w_out w)) -> w_out w <> [] ->
  sum_sizes (iov_of (w_out w)) <= SIZE_MAX ->
  in_stream w = 0 :: b1 :: b2 :: b3 :: payload ->
  is_byte b1 -> is_byte b2 -> is_byte b3 ->
  let declared := b1 + 256 * b2 + 65536 * b3 in
  len payload < declared -> len payload < sum_sizes (iov_of (w_out w)) ->
  let rw := Tex3DS_DecompressV callback_fd malloc512 fuel w in
  fst rw = Ok false /\
  concat (w_out (snd rw))
  = payload ++ skipn (length payload) (concat (w_out w)) /\
  iov_of (w_out (snd rw)) = iov_of (w_out w).
Proof.
  intros Hb Hr Hne Hcap Hst H1 H2 H3 declared Hshort Hroom rw.
  assert (Hd : 0 <= declared) by (unfold declared, is_byte in *; lia).
  destruct (DecompressV_header malloc512 fuel w 0 b1 b2 b3 payload
              Hb Hne Hcap Hst ltac:(lia)) as (Hplain & _ & _).
  destruct (Hplain eq_refl) as (w1 & Hb1 & Hst1 & Ho1 & E).
  unfold rw. rewrite E, header24 by assumption. fold declared.
  set (iov := iov_of (w_out w)) in *.
  set (size := Z.min declared (sum_sizes iov)).
  assert (Hok : it_ok iov iov_begin).
  { apply iov_begin_ok; [exact Hr|].
    unfold iov, iov_of. destruct (w_out w); [congruence|discriminate]. }
  change (dispatch callback_fd malloc512 fuel iov (kind_of 0) size w1)
    with (bind fd_state (iov_read callback_fd iov iov_begin size)
            (fun x => let '(ok, _) := x in ret fd_state ok) w1).
  pose proof (len_nonneg payload) as Hnn.
  assert (Hsz : 0 <= size <= SIZE_MAX /\ size <= sum_sizes iov /\
                len payload < size) by (unfold size; lia).
  destruct (iov_read_loop_short iov Hr (Z.to_nat size) w1 iov_begin size
              Hb1 ltac:(rewrite Ho1; reflexivity) Hok
              ltac:(lia) ltac:(lia)
              ltac:(unfold it_off; simpl; lia)
              ltac:(rewrite Hst1; lia))
    as (out' & w' & El & Hflat & Hiov).
  unfold bind, iov_read. rewrite El. cbn [fst snd ret].
  split; [reflexivity|]. split; [|exact Hiov].
  rewrite Hflat, Hst1, Ho1.
  change (it_off iov iov_begin) with 0.
  unfold splice. change (Z.to_nat 0) with 0%nat. reflexivity.
Qed.

Lemma X17_stored_block_truncated_witness :
  let w := fd_world 3 [0; 4; 0; 0; 7; 8] [2] [[1; 2]; [3; 4; 5]] in
  let rw := Tex3DS_DecompressV callback_fd None 0 w in
  fst rw = Ok false /\
  concat (w_out (snd rw)) = [7; 8] ++ [3; 4; 5] /\
  iov_of (w_out (snd rw)) = [2; 3].
Proof.
  refine (X17_stored_block_truncated None 0
            (fd_world 3 [0; 4; 0; 0; 7; 8] [2] [[1; 2]; [3; 4; 5]])
            4 0 0 [7; 8] _ _ _ _ _ _ _ _ _ _).
  - unfold input_ok, buffer_ok. vm_compute. intuition discriminate.
  - repeat constructor.
  - discriminate.
  - vm_compute. discriminate.
  - reflexivity.
  - unfold is_byte. lia.
  - unfold is_byte. lia.
  - unfold is_byte. lia.
  - vm_compute. reflexivity.
  - vm_compute. reflexivity.
Defined.

(** X18.  What [Tex3DS_DecompressV] refuses before it looks at a kind:
    with no region it returns [false] and leaves buffer, source and
    output alone, whatever the source is; with an input of fewer than
    four bytes it returns [false] and the regions are as they were. *)
Theorem X18_DecompressV_refuses (malloc512 : option (list Z)) (fuel : nat) :
  (forall (U : Type) (cb : U -> list Z -> Z -> Z * list Z * U) (w : world U),
      w_out w = [] ->
      Tex3DS_DecompressV cb malloc512 fuel w = (Ok false, w)) /\
  (forall w : world fd_state,
      input_ok w -> len (in_stream w) < 4 ->
      exists w',
        Tex3DS_DecompressV callback_fd malloc512 fuel w = (Ok false, w') /\
        w_out w' = w_out w).
Proof.
  split.
  - intros U cb w Hout. unfold Tex3DS_DecompressV.
    rewrite bind_get_out, Hout. reflexivity.
  - intros w Hb Hshort. unfold Tex3DS_DecompressV.
    rewrite bind_get_out.
    destruct (len (iov_of (w_out w)) =? 0); [exists w; split; reflexivity|].
    destruct (BufferRead_short w 4 Hb) as (w' & E & Ho & _).
    { unfold SIZE_MAX, size_bits. simpl. lia. }
    { exact Hshort. }
    rewrite (bind_ok _ _ _ _ _ E). cbn [negb].
    exists w'. split; [reflexivity|exact Ho].
Qed.

Lemma X18_DecompressV_refuses_witness :
  Tex3DS_DecompressV callback_fd None 0 (fd_world 4 [0; 1; 0; 0; 5] [] [])
  = (Ok false, fd_world 4 [0; 1; 0; 0; 5] [] []) /\
  exists w',
    Tex3DS_DecompressV callback_fd None 0 (fd_world 4 [0; 1; 0] [] [[9]])
    = (Ok false, w') /\
    w_out w' = [[9]].
Proof.
  split.
  - refine (proj1 (X18_DecompressV_refuses None 0) fd_state callback_fd
              (fd_world 4 [0; 1; 0; 0; 5] [] []) _).
    reflexivity.
  - refine (proj2 (X18_DecompressV_refuses None 0)
              (fd_world 4 [0; 1; 0] [] [[9]]) _ _).
    + unfold input_ok, buffer_ok. vm_compute. intuition discriminate.
    + vm_compute. reflexivity.
Defined.

(** * The readers of [tex3ds.c] *)

(** X19.  [decode_u16] and [decode_u32] on an input that has the bytes
    return the value whose lowest byte comes first, and leave the input
    behind the two or four bytes they used. *)
Theorem X19_decode_little_endian (w : world fd_state) (a b : Z) :
  input_ok w -> is_byte a -> is_byte b ->
  (forall rest, in_stream w = a :: b :: rest ->
     exists w',
       decode_u16 callback_fd w = (Ok (Some (a + 256 * b)), w') /\
       input_ok w' /\ in_stream w' = rest) /\
  (forall c d rest, is_byte c -> is_byte d ->
     in_stream w = a :: b :: c :: d :: rest ->
     exists w',
       decode_u32 callback_fd w
       = (Ok (Some (a + 256 * b + 65536 * c + 16777216 * d)), w') /\
       input_ok w' /\ in_stream w' = rest).
Proof.
  intros Hb Ha Hbb. split.
  - intros rest Hst.
    destruct (get_var_stream w a _ Hb Hst) as (w1 & E1 & Hb1 & Hst1 & _).
    destruct (get_var_stream w1 b _ Hb1 Hst1) as (w2 & E2 & Hb2 & Hst2 & _).
    exists w2. split; [|split; assumption].
    unfold decode_u16.
    rewrite (bind_ok _ _ _ _ _ E1), (bind_ok _ _ _ _ _ E2).
    unfold ret. do 3 f_equal.
    unfold is_byte in *.
    rewrite (lor_shiftl_add a b 8) by (change (2 ^ 8) with 256; lia).
    change (2 ^ 8) with 256. unfold wrap16.
    change (2 ^ 16) with 65536. rewrite Z.mod_small by lia. lia.
  - intros c d rest Hc Hd Hst.
    destruct (get_var_stream w a _ Hb Hst) as (w1 & E1 & Hb1 & Hst1 & _).
    destruct (get_var_stream w1 b _ Hb1 Hst1) as (w2 & E2 & Hb2 & Hst2 & _).
    destruct (get_var_stream w2 c _ Hb2 Hst2) as (w3 & E3 & Hb3 & Hst3 & _).
    destruct (get_var_stream w3 d _ Hb3 Hst3) as (w4 & E4 & Hb4 & Hst4 & _).
    exists w4. split; [|split; assumption].
    unfold decode_u32.
    rewrite (bind_ok _ _ _ _ _ E1), (bind_ok _ _ _ _ _ E2),
            (bind_ok _ _ _ _ _ E3), (bind_ok _ _ _ _ _ E4).
    unfold ret. do 3 f_equal.
    rewrite (header24 a b c) by assumption.
    unfold is_byte in *.
    rewrite lor_shiftl_add by (change (2 ^ 24) with 16777216; lia).
    change (2 ^ 24) with 16777216. unfold wrap32.
    change (2 ^ 32) with 4294967296. rewrite Z.mod_small by lia. lia.
Qed.

Lemma X19_decode_little_endian_witness :
  (exists w',
     decode_u16 callback_fd (fd_world 3 [52; 18; 120; 86; 9] [1] [])
     = (Ok (Some (52 + 256 * 18)), w') /\
     input_ok w' /\ in_stream w' = [120; 86; 9]) /\
  (exists w',
     decode_u32 callback_fd (fd_world 3 [52; 18; 120; 86; 9] [1] [])
     = (Ok (Some (52 + 256 * 18 + 65536 * 120 + 16777216 * 86)), w') /\
     input_ok w' /\ in_stream w' = [9]).
Proof.
  assert (Hb : input_ok (fd_world 3 [52; 18; 120; 86; 9] [1] [])).
  { unfold input_ok, buffer_ok. vm_compute. intuition discriminate. }
  assert (H52 : is_byte 52) by (unfold is_byte; lia).
  assert (H18 : is_byte 18) by (unfold is_byte; lia).
  assert (H120 : is_byte 120) by (unfold is_byte; lia).
  assert (H86 : is_byte 86) by (unfold is_byte; lia).
  split.
  - exact (proj1 (X19_decode_little_endian _ 52 18 Hb H52 H18)
             [120; 86; 9] eq_refl).
  - exact (proj2 (X19_decode_little_endian _ 52 18 Hb H52 H18)
             120 86 [9] H120 H86 eq_refl).
Defined.

(** X20.  [decode_u16] on an input of fewer than two bytes and
    [decode_u32] on an input of fewer than four return [false]. *)
Theorem X20_decode_truncated (w : world fd_state) :
  input_ok w ->
  (len (in_stream w) < 2 -> fst (decode_u16 callback_fd w) = Ok None) /\
  (len (in_stream w) < 4 -> fst (decode_u32 callback_fd w) = Ok None).
Proof.
  intros Hb.
  assert (Hget : forall w0 : world fd_state, input_ok w0 ->
            (in_stream w0 = [] /\
             exists w', get_var callback_fd w0 = (Ok None, w')) \/
            (exists v rest w',
               in_stream w0 = v :: rest /\
               get_var callback_fd w0 = (Ok (Some v), w') /\
               input_ok w' /\ in_stream w' = rest)).
  { intros w0 H0. destruct (in_stream w0) as [|v rest] eqn:Es.
    - left. split; [reflexivity|].
      destruct (get_var_eof w0 H0 Es) as (w' & E & _). exists w'. exact E.
    - right. destruct (get_var_stream w0 v rest H0 Es) as (w' & E & H1 & H2 & _).
      exists v, rest, w'. auto. }
  split; intros Hlen.
  - unfold decode_u16.
    destruct (Hget w Hb) as [(_ & w1 & E1)|(v1 & r1 & w1 & S1 & E1 & Hb1 & Hs1)];
      rewrite (bind_ok _ _ _ _ _ E1); [reflexivity|].
    destruct (Hget w1 Hb1) as [(_ & w2 & E2)|(v2 & r2 & w2 & S2 & E2 & _)];
      rewrite (bind_ok _ _ _ _ _ E2); [reflexivity|].
    rewrite S1, <- Hs1, S2 in Hlen. unfold len in Hlen. simpl in Hlen. lia.
  - unfold decode_u32.
    destruct (Hget w Hb) as [(_ & w1 & E1)|(v1 & r1 & w1 & S1 & E1 & Hb1 & Hs1)];
      rewrite (bind_ok _ _ _ _ _ E1); [reflexivity|].
    destruct (Hget w1 Hb1) as [(_ & w2 & E2)|(v2 & r2 & w2 & S2 & E2 & Hb2 & Hs2)];
      rewrite (bind_ok _ _ _ _ _ E2); [reflexivity|].
    destruct (Hget w2 Hb2) as [(_ & w3 & E3)|(v3 & r3 & w3 & S3 & E3 & Hb3 & Hs3)];
      rewrite (bind_ok _ _ _ _ _ E3); [reflexivity|].
    destruct (Hget w3 Hb3) as [(_ & w4 & E4)|(v4 & r4 & w4 & S4 & E4 & _)];
      rewrite (bind_ok _ _ _ _ _ E4); [reflexivity|].
    rewrite S1, <- Hs1, S2, <- Hs2, S3, <- Hs3, S4 in Hlen.
    unfold len in Hlen. simpl in Hlen. lia.
Qed.

Lemma X20_decode_truncated_witness :
  fst (decode_u16 callback_fd (fd_world 3 [52] [1] [])) = Ok None /\
  fst (decode_u32 callback_fd (fd_world 3 [52; 18; 120] [1] [])) = Ok None.
Proof.
  split.
  - refine (proj1 (X20_decode_truncated (fd_world 3 [52] [1] []) _) _).
    + unfold input_ok, buffer_ok. vm_compute. intuition discriminate.
    + vm_compute. reflexivity.
  - refine (proj2 (X20_decode_truncated (fd_world 3 [52; 18; 120] [1] []) _) _).
    + unfold input_ok, buffer_ok. vm_compute. intuition discriminate.
    + vm_compute. reflexivity.
Defined.

(** * The whole run-length decode *)

Lemma high_bit (c : Z) : truthy (Z.land c 128) = Z.testbit c 7.
Proof.
  unfold truthy. destruct (Z.testbit c 7) eqn:E.
  - destruct (Z.eqb_spec (Z.land c 128) 0) as [H|]; [|reflexivity].
    assert (Hbit : Z.testbit (Z.land c 128) 7 = true)
      by (rewrite Z.land_spec, E; reflexivity).
    rewrite H, Z.bits_0 in Hbit. discriminate.
  - assert (H : Z.land c 128 = 0).
    { apply Z.bits_inj'. intros n Hn. rewrite Z.land_spec, Z.bits_0.
      change 128 with (2 ^ 7). rewrite Z.pow2_bits_eqb by lia.
      destruct (Z.eqb_spec 7 n) as [<-|]; [rewrite E; reflexivity|].
      apply andb_false_r. }
    rewrite H. reflexivity.
Qed.

(** One round of the loop of [rle_decode] against one round of the
    payload of the specification. *)
Lemma rle_step_refines (iov : list Z) (w : world fd_state) (out : iov_iter)
      (size : Z) :
  regions_ok iov -> sum_sizes iov <= SIZE_MAX ->
  input_ok w -> iov_of (w_out w) = iov -> it_ok iov out ->
  0 < size -> it_off iov out + size < sum_sizes iov ->
  let off := it_off iov out in
  let gone := exists w', rle_step callback_fd iov out size w = (Ok None, w') /\
                         iov_of (w_out w') = iov in
  let done (n : Z) (bs more : list Z) :=
    exists out' w',
      rle_step callback_fd iov out size w = (Ok (Some (out', size - n)), w') /\
      concat (w_out w') = splice (concat (w_out w)) off bs /\
      iov_of (w_out w') = iov /\ input_ok w' /\ in_stream w' = more /\
      it_ok iov out' /\ it_off iov out' = off + n in
  match in_stream w with
  | [] => gone
  | c :: rest =>
      if Z.testbit c 7 then
        let n := Z.min (Z.land c 127 + 3) size in
        match rest with
        | [] => gone
        | v :: rest' => done n (repeat v (Z.to_nat n)) rest'
        end
      else
        let n := Z.min (Z.land c 127 + 1) size in
        if n <=? len rest
        then done n (firstn (Z.to_nat n) rest) (skipn (Z.to_nat n) rest)
        else gone
  end.
Proof.
  intros Hr Hcap Hb Hiov Hok Hpos Hfit off gone done.
  pose proof (it_off_bound iov out Hr Hok) as Hbound.
  destruct (in_stream w) as [|c rest] eqn:Hst.
  { (* no control byte *)
    destruct (get_var_eof w Hb Hst) as (w1 & E1 & Ho1).
    exists w1. unfold rle_step. rewrite (bind_ok _ _ _ _ _ E1).
    split; [reflexivity|]. rewrite Ho1. exact Hiov. }
  destruct (get_var_stream w c rest Hb Hst) as (w1 & E1 & Hb1 & Hst1 & Ho1).
  assert (Hland : 0 <= Z.land c 127) by (apply Z.land_nonneg; lia).
  assert (Hiov1 : iov_of (w_out w1) = iov) by (rewrite Ho1; exact Hiov).
  destruct (Z.testbit c 7) eqn:Ebit.
  - (* a repeat-run *)
    intros n. assert (Hn : 0 < n <= size) by (unfold n; lia).
    destruct rest as [|v rest'].
    { destruct (get_var_eof w1 Hb1 Hst1) as (w2 & E2 & Ho2).
      exists w2. unfold rle_step. rewrite (bind_ok _ _ _ _ _ E1).
      cbv iota beta. rewrite high_bit, Ebit. cbv zeta.
      rewrite (bind_ok _ _ _ _ _ E2).
      split; [reflexivity|]. rewrite Ho2. exact Hiov1. }
    destruct (get_var_stream w1 v rest' Hb1 Hst1)
      as (w2 & E2 & Hb2 & Hst2 & Ho2).
    assert (Hiov2 : iov_of (w_out w2) = iov) by (rewrite Ho2; exact Hiov1).
    assert (Hrw : rle_step callback_fd iov out size w
                  = bind fd_state (iov_memset iov out v n)
                      (fun out => ret fd_state (Some (out, size - n))) w2).
    { unfold rle_step. rewrite (bind_ok _ _ _ _ _ E1). cbv iota beta.
      rewrite high_bit, Ebit. cbv zeta. rewrite clamp_min. fold n.
      rewrite (bind_ok _ _ _ _ _ E2). reflexivity. }
    unfold done. rewrite Hrw. unfold bind, iov_memset.
    destruct (iov_memset_loop fd_state (Z.to_nat n) iov out v n w2)
      as [r w3] eqn:E3.
    destruct (iov_memset_loop_spec fd_state iov v Hr (Z.to_nat n) w2 out n
                Hiov2 Hok ltac:(lia) ltac:(lia) ltac:(lia) r w3 E3)
      as (Hflat & Hiov3 & Hbuf & Huser & Hret & _).
    destruct (Hret ltac:(lia)) as (out' & -> & Hok' & Hoff').
    exists out', w3. cbn [ret].
    split; [reflexivity|].
    split; [rewrite Hflat, Ho2, Ho1; reflexivity|].
    split; [exact Hiov3|].
    split; [unfold input_ok; rewrite Hbuf; exact Hb2|].
    split; [unfold in_stream; rewrite Hbuf, Huser; exact Hst2|].
    split; [exact Hok'|exact Hoff'].
  - (* a literal run *)
    intros n. assert (Hn : 0 < n <= size) by (unfold n; lia).
    assert (Hrw : rle_step callback_fd iov out size w
                  = bind fd_state (iov_read callback_fd iov out n)
                      (fun x => let '(ok, out) := x in
                                if negb ok then ret fd_state None
                                else ret fd_state (Some (out, size - n)))
                      w1).
    { unfold rle_step. rewrite (bind_ok _ _ _ _ _ E1). cbv iota beta.
      rewrite high_bit, Ebit. cbv zeta. rewrite clamp_min. fold n.
      reflexivity. }
    destruct (Z.leb_spec n (len rest)) as [Hhave|Hshort].
    + unfold done. rewrite Hrw. unfold bind, iov_read.
      destruct (iov_read_loop fd_state callback_fd (Z.to_nat n) iov out n w1)
        as [r w3] eqn:E3.
      destruct (iov_read_loop_spec iov Hr (Z.to_nat n) w1 out n
                  Hb1 Hiov1 Hok ltac:(lia) ltac:(lia) ltac:(lia)
                  ltac:(rewrite Hst1; lia) r w3 E3)
        as (Hflat & Hiov3 & Hb3 & Hst3 & Hret & _).
      destruct (Hret ltac:(lia)) as (out' & -> & Hok' & Hoff').
      exists out', w3. cbn [ret negb].
      split; [reflexivity|].
      split; [rewrite Hflat, Ho1, Hst1; reflexivity|].
      split; [exact Hiov3|]. split; [exact Hb3|].
      split; [rewrite Hst3, Hst1; reflexivity|].
      split; [exact Hok'|exact Hoff'].
    + destruct (iov_read_loop_short iov Hr (Z.to_nat n) w1 out n
                  Hb1 Hiov1 Hok ltac:(lia) ltac:(lia) ltac:(lia)
                  ltac:(rewrite Hst1; lia))
        as (out' & w3 & E3 & _ & Hiov3).
      exists w3. rewrite Hrw. unfold bind, iov_read. rewrite E3.
      split; [reflexivity|exact Hiov3].
Qed.

(** The loop of [rle_decode] follows the payload of the specification, as
    long as the decoded bytes end before the last region does. *)
Lemma rle_loop_refines (iov : list Z) :
  regions_ok iov -> sum_sizes iov <= SIZE_MAX ->
  forall (fuel : nat) (w : world fd_state) (out : iov_iter) (size : Z),
    input_ok w -> iov_of (w_out w) = iov -> it_ok iov out ->
    0 <= size -> (Z.to_nat size <= fuel)%nat ->
    it_off iov out + size < sum_sizes iov ->
    match rle_expand fuel (in_stream w) size with
    | Some (bytes, more) =>
        exists w',
          rle_loop callback_fd fuel iov out size w = (Ok true, w') /\
          concat (w_out w')
          = splice (concat (w_out w)) (it_off iov out) bytes /\
          len bytes = size /\ iov_of (w_out w') = iov /\
          input_ok w' /\ in_stream w' = more
    | None =>
        exists w',
          rle_loop callback_fd fuel iov out size w = (Ok false, w') /\
          iov_of (w_out w') = iov
    end.
Proof.
  intros Hr Hcap. induction fuel as [|fuel IH];
    intros w out size Hb Hiov Hok Hs Hf Hfit.
  - assert (size = 0) by lia. subst size. cbn [rle_expand rle_loop].
    change (0 <=? 0) with true. change (0 >? 0) with false. cbv iota.
    cbn [negb]. exists w. rewrite splice_nil.
    repeat split; try reflexivity; try assumption; apply Hb.
  - cbn [rle_expand rle_loop].
    destruct (Z.leb_spec size 0) as [Hz|Hpos].
    { assert (size = 0) by lia. subst size.
      change (0 >? 0) with false. cbn [negb]. exists w. rewrite splice_nil.
      repeat split; try reflexivity; try assumption; apply Hb. }
    destruct (Z.gtb_spec size 0) as [_|]; [|lia]. cbn [negb].
    pose proof (it_off_bound iov out Hr Hok) as Hbound.
    pose proof (rle_step_refines iov w out size Hr Hcap Hb Hiov Hok Hpos Hfit)
      as Hstep.
    cbv zeta in Hstep.
    assert (Hcat : len (concat (w_out w)) = sum_sizes iov)
      by (rewrite sum_sizes_concat, Hiov; reflexivity).
    destruct (in_stream w) as [|c rest].
    { destruct Hstep as (w1 & E1 & Hiov1). exists w1.
      rewrite (bind_ok _ _ _ _ _ E1). split; [reflexivity|exact Hiov1]. }
    assert (Hland : 0 <= Z.land c 127) by (apply Z.land_nonneg; lia).
    destruct (Z.testbit c 7).
    + destruct rest as [|v rest'].
      { destruct Hstep as (w1 & E1 & Hiov1). exists w1.
        rewrite (bind_ok _ _ _ _ _ E1). split; [reflexivity|exact Hiov1]. }
      set (n := Z.min (Z.land c 127 + 3) size) in *.
      assert (Hn : 0 < n <= size) by (unfold n; lia).
      destruct Hstep as (out' & w1 & E1 & Hflat & Hiov1 & Hb1 & Hst1 & Hok' & Hoff').
      specialize (IH w1 out' (size - n) Hb1 Hiov1 Hok' ltac:(lia) ltac:(lia)
                    ltac:(lia)).
      rewrite Hst1 in IH.
      destruct (rle_expand fuel rest' (size - n)) as [[bs more]|].
      * destruct IH as (w' & E & Hf' & Hlen & Hiov' & Hb' & Hst').
        exists w'. rewrite (bind_ok _ _ _ _ _ E1).
        split; [exact E|].
        split.
        { rewrite Hf', Hflat, Hoff'.
          rewrite <- (len_repeat v n) at 2 by lia.
          apply splice_splice; [lia|].
          rewrite len_repeat by lia. lia. }
        split; [rewrite len_app, len_repeat by lia; lia|].
        auto.
      * destruct IH as (w' & E & Hiov'). exists w'.
        rewrite (bind_ok _ _ _ _ _ E1). auto.
    + set (n := Z.min (Z.land c 127 + 1) size) in *.
      assert (Hn : 0 < n <= size) by (unfold n; lia).
      destruct (Z.leb_spec n (len rest)) as [Hhave|Hshort].
      * destruct Hstep as (out' & w1 & E1 & Hflat & Hiov1 & Hb1 & Hst1 & Hok' & Hoff').
        specialize (IH w1 out' (size - n) Hb1 Hiov1 Hok' ltac:(lia) ltac:(lia)
                      ltac:(lia)).
        rewrite Hst1 in IH.
        destruct (rle_expand fuel (skipn (Z.to_nat n) rest) (size - n))
          as [[bs more]|].
        { destruct IH as (w' & E & Hf' & Hlen & Hiov' & Hb' & Hst').
          exists w'. rewrite (bind_ok _ _ _ _ _ E1).
          split; [exact E|].
          split.
          { rewrite Hf', Hflat, Hoff'.
            rewrite <- (len_firstn rest n) at 2 by lia.
            apply splice_splice; [lia|].
            rewrite len_firstn by lia. lia. }
          split; [rewrite len_app, len_firstn by lia; lia|].
          auto. }
        { destruct IH as (w' & E & Hiov'). exists w'.
          rewrite (bind_ok _ _ _ _ _ E1). auto. }
      * destruct Hstep as (w1 & E1 & Hiov1). exists w1.
        rewrite (bind_ok _ _ _ _ _ E1). split; [reflexivity|exact Hiov1].
Qed.

(** A run-length block with a header that declares fewer bytes than the
    regions hold: the call is the loop on the payload. *)
Lemma rle_block (malloc512 : option (list Z)) (fuel : nat)
      (w : world fd_state) (b1 b2 b3 : Z) (payload : list Z) :
  input_ok w -> regions_ok (iov_of (w_out w)) ->
  sum_sizes (iov_of (w_out w)) <= SIZE_MAX ->
  in_stream w = 48 :: b1 :: b2 :: b3 :: payload ->
  is_byte b1 -> is_byte b2 -> is_byte b3 ->
  let declared := b1 + 256 * b2 + 65536 * b3 in
  declared < sum_sizes (iov_of (w_out w)) ->
  match rle_expand (Z.to_nat declared) payload declared with
  | Some (bytes, more) =>
      exists w',
        Tex3DS_DecompressV callback_fd malloc512 fuel w = (Ok true, w') /\
        concat (w_out w')
        = bytes ++ skipn (Z.to_nat declared) (concat (w_out w)) /\
        len bytes = declared /\ iov_of (w_out w') = iov_of (w_out w) /\
        input_ok w' /\ in_stream w' = more
  | None =>
      exists w',
        Tex3DS_DecompressV callback_fd malloc512 fuel w = (Ok false, w') /\
        iov_of (w_out w') = iov_of (w_out w)
  end.
Proof.
  intros Hb Hr Hcap Hst H1 H2 H3 declared Hroom.
  assert (Hd : 0 <= declared) by (unfold declared, is_byte in *; lia).
  assert (Hne : w_out w <> []).
  { intros E. rewrite E in Hroom. simpl in Hroom. lia. }
  destruct (DecompressV_header malloc512 fuel w 48 b1 b2 b3 payload
              Hb Hne Hcap Hst ltac:(lia)) as (Hplain & _ & _).
  destruct (Hplain eq_refl) as (w1 & Hb1 & Hst1 & Ho1 & E).
  rewrite E, header24 by assumption. fold declared.
  rewrite Z.min_l by lia.
  set (iov := iov_of (w_out w)) in *.
  assert (Hok : it_ok iov iov_begin).
  { apply iov_begin_ok; [exact Hr|].
    unfold iov, iov_of. destruct (w_out w); [congruence|discriminate]. }
  change (dispatch callback_fd malloc512 fuel iov (kind_of 48) declared w1)
    with (rle_loop callback_fd (Z.to_nat declared) iov iov_begin declared w1).
  pose proof (rle_loop_refines iov Hr Hcap (Z.to_nat declared) w1 iov_begin
                declared Hb1 ltac:(rewrite Ho1; reflexivity) Hok Hd
                ltac:(lia) ltac:(unfold it_off; simpl; lia)) as Hloop.
  rewrite Hst1 in Hloop.
  destruct (rle_expand (Z.to_nat declared) payload declared) as [[bytes more]|].
  - destruct Hloop as (w' & El & Hflat & Hlen & Hiov' & Hb' & Hst').
    exists w'. split; [exact El|]. split; [|auto].
    rewrite Hflat, Ho1. change (it_off iov iov_begin) with 0.
    unfold splice. change (Z.to_nat 0) with 0%nat. cbn [firstn app].
    do 2 f_equal. unfold len in Hlen. lia.
  - exact Hloop.
Qed.

(** X21.  A run-length block (kind 0x30) that declares fewer bytes than the
    regions hold, on an input whose payload decodes: [Tex3DS_DecompressV]
    returns [true]; the start of the regions holds what the payload stands
    for by the grammar of the specification, which is the declared number
    of bytes; the bytes behind are as they were, and the input is left
    behind the last run used. *)
Theorem X21_rle_block (malloc512 : option (list Z)) (fuel : nat)
        (w : world fd_state) (b1 b2 b3 : Z) (payload bytes more : list Z) :
  input_ok w -> regions_ok (iov_of (w_out w)) ->
  sum_sizes (iov_of (w_out w)) <= SIZE_MAX ->
  in_stream w = 48 :: b1 :: b2 :: b3 :: payload ->
  is_byte b1 -> is_byte b2 -> is_byte b3 ->
  let declared := b1 + 256 * b2 + 65536 * b3 in
  declared < sum_sizes (iov_of (w_out w)) ->
  rle_expand (Z.to_nat declared) payload declared = Some (bytes, more) ->
  exists w',
    Tex3DS_DecompressV callback_fd malloc512 fuel w = (Ok true, w') /\
    concat (w_out w')
    = bytes ++ skipn (Z.to_nat declared) (concat (w_out w)) /\
    len bytes = declared /\ iov_of (w_out w') = iov_of (w_out w) /\
    input_ok w' /\ in_stream w' = more.
Proof.
  intros Hb Hr Hcap Hst H1 H2 H3 declared Hroom Hexp.
  pose proof (rle_block malloc512 fuel w b1 b2 b3 payload
                Hb Hr Hcap Hst H1 H2 H3 Hroom) as H.
  cbv zeta in H. fold declared in H. rewrite Hexp in H. exact H.
Qed.

Lemma X21_rle_block_witness :
  exists w',
    Tex3DS_DecompressV callback_fd None 0
      (fd_world 3 [48; 6; 0; 0; 129; 255; 1; 10; 11; 77] [2]
         [[1; 2; 3]; [4; 5]; [6; 7; 8]])
    = (Ok true, w') /\
    concat (w_out w') = [255; 255; 255; 255; 10; 11] ++ [7; 8] /\
    len [255; 255; 255; 255; 10; 11] = 6 /\
    iov_of (w_out w') = [3; 2; 3] /\
    input_ok w' /\ in_stream w' = [77].
Proof.
  refine (X21_rle_block None 0
            (fd_world 3 [48; 6; 0; 0; 129; 255; 1; 10; 11; 77] [2]
               [[1; 2; 3]; [4; 5]; [6; 7; 8]])
            6 0 0 [129; 255; 1; 10; 11; 77]
            [255; 255; 255; 255; 10; 11] [77] _ _ _ _ _ _ _ _ _).
  - unfold input_ok, buffer_ok. vm_compute. intuition discriminate.
  - repeat constructor.
  - vm_compute. discriminate.
  - reflexivity.
  - unfold is_byte. lia.
  - unfold is_byte. lia.
  - unfold is_byte. lia.
  - vm_compute. reflexivity.
  - vm_compute. reflexivity.
Defined.

(** X22.  A run-length block that declares fewer bytes than the regions
    hold, on an input that ends before the payload has given them (in a
    control byte, in the byte of a repeat-run or inside a literal run):
    [Tex3DS_DecompressV] returns [false]. *)
Theorem X22_rle_block_truncated (malloc512 : option (list Z)) (fuel : nat)
        (w : world fd_state) (b1 b2 b3 : Z) (payload : list Z) :
  input_ok w -> regions_ok (iov_of (w_out w)) ->
  sum_sizes (iov_of (w_out w)) <= SIZE_MAX ->
  in_stream w = 48 :: b1 :: b2 :: b3 :: payload ->
  is_byte b1 -> is_byte b2 -> is_byte b3 ->
  let declared := b1 + 256 * b2 + 65536 * b3 in
  declared < sum_sizes (iov_of (w_out w)) ->
  rle_expand (Z.to_nat declared) payload declared = None ->
  exists w',
    Tex3DS_DecompressV callback_fd malloc512 fuel w = (Ok false, w') /\
    iov_of (w_out w') = iov_of (w_out w).
Proof.
  intros Hb Hr Hcap Hst H1 H2 H3 declared Hroom Hexp.
  pose proof (rle_block malloc512 fuel w b1 b2 b3 payload
                Hb Hr Hcap Hst H1 H2 H3 Hroom) as H.
  cbv zeta in H. fold declared in H. rewrite Hexp in H. exact H.
Qed.

Lemma X22_rle_block_truncated_witness :
  exists w',
    Tex3DS_DecompressV callback_fd None 0
      (fd_world 3 [48; 6; 0; 0; 129; 255; 1; 10] [2]
         [[1; 2; 3]; [4; 5]; [6; 7; 8]])
    = (Ok false, w') /\
    iov_of (w_out w') = [3; 2; 3].
Proof.
  refine (X22_rle_block_truncated None 0
            (fd_world 3 [48; 6; 0; 0; 129; 255; 1; 10] [2]
               [[1; 2; 3]; [4; 5]; [6; 7; 8]])
            6 0 0 [129; 255; 1; 10] _ _ _ _ _ _ _ _ _).
  - unfold input_ok, buffer_ok. vm_compute. intuition discriminate.
  - repeat constructor.
  - vm_compute. discriminate.
  - reflexivity.
  - unfold is_byte. lia.
  - unfold is_byte. lia.
  - unfold is_byte. lia.
  - vm_compute. reflexivity.
  - vm_compute. reflexivity.
Defined.

(** * Further properties of the Huffman table *)

(** X23.  The two reads of [huff_decode] that fill the table, into a block
    of 512 bytes: whatever the input is, the table stays inside the block,
    since a size byte asks for at most 511 bytes behind it.  The reads
    give the table of the specification when the input has the size byte
    [n] and the [2 * (n + 1) - 1] bytes behind it, and fail when it ends
    before; the output regions are untouched in both cases. *)
Theorem X23_huff_tree_safe (w : world fd_state) (tree0 : list Z) :
  input_ok w -> length tree0 = 512%nat ->
  (forall n rest, in_stream w = n :: rest -> is_byte n) ->
  exists r w',
    huff_tree callback_fd (Some tree0) w = (Ok r, w') /\
    w_out w' = w_out w /\
    match r with
    | Some tree =>
        length tree = 512%nat /\
        exists n table,
          in_stream w = n :: table ++ in_stream w' /\
          len table = 2 * (n + 1) - 1 /\ tree = tree_of n table tree0
    | None =>
        forall n rest, in_stream w = n :: rest -> len rest < 2 * (n + 1) - 1
    end.
Proof.
  intros Hb Ht Hbyte.
  assert (HM : SIZE_MAX = 4294967295) by reflexivity.
  destruct (in_stream w) as [|n rest] eqn:Hst.
  { (* no size byte *)
    destruct (BufferRead_short w 1 Hb ltac:(lia)) as (w1 & E1 & Ho1 & _).
    { rewrite Hst. unfold len. simpl. lia. }
    rewrite Hst in E1.
    assert (Hw0 : tree_write tree0 0 [] = Ok (splice tree0 0 [])).
    { unfold tree_write, len. rewrite Ht. reflexivity. }
    exists None, w1. split; [|split; [exact Ho1|discriminate]].
    unfold huff_tree. rewrite (bind_ok _ _ _ _ _ E1). cbv iota beta.
    rewrite (bind_lift _ _ _ _ Hw0). reflexivity. }
  pose proof (Hbyte n rest eq_refl) as Hn. unfold is_byte in Hn.
  destruct (BufferRead_stream w 1 Hb ltac:(lia))
    as (w1 & E1 & Hb1 & Hst1 & Ho1 & _).
  { rewrite Hst. unfold len. simpl length. lia. }
  rewrite Hst in E1, Hst1.
  change (firstn (Z.to_nat 1) (n :: rest)) with [n] in E1.
  change (skipn (Z.to_nat 1) (n :: rest)) with rest in Hst1.
  assert (Hw0 : tree_write tree0 0 [n] = Ok (n :: skipn 1 tree0)).
  { unfold tree_write, len. rewrite Ht. reflexivity. }
  assert (Ha0 : tree_at (n :: skipn 1 tree0) 0 = Ok n) by reflexivity.
  assert (Hl1 : len (n :: skipn 1 tree0) = 512).
  { unfold len. cbn [length]. rewrite length_skipn, Ht. reflexivity. }
  destruct (Z.le_gt_cases ((n + 1) * 2 - 1) (len rest)) as [Hhave|Hshort].
  - (* the table is there *)
    set (table := firstn (Z.to_nat ((n + 1) * 2 - 1)) rest).
    assert (Hlen : len table = 2 * (n + 1) - 1)
      by (unfold table; rewrite len_firstn; lia).
    assert (Hsplit : n :: rest
                     = n :: table
                         ++ skipn (Z.to_nat ((n + 1) * 2 - 1)) rest)
      by (unfold table; rewrite firstn_skipn; reflexivity).
    destruct (huff_tree_stream w tree0 n table
                (skipn (Z.to_nat ((n + 1) * 2 - 1)) rest)
                Hb Ht Hn Hlen ltac:(rewrite Hst; exact Hsplit))
      as (w2 & E & _ & Hst2 & Ho2 & Hlt).
    exists (Some (tree_of n table tree0)), w2.
    split; [exact E|]. split; [exact Ho2|]. split; [exact Hlt|].
    exists n, table. rewrite Hst2. auto.
  - (* the input ends inside the table *)
    destruct (BufferRead_short w1 ((n + 1) * 2 - 1) Hb1 ltac:(lia))
      as (w2 & E2 & Ho2 & _).
    { rewrite Hst1. exact Hshort. }
    rewrite Hst1 in E2.
    assert (Hw1 : tree_write (n :: skipn 1 tree0) 1 rest
                  = Ok (splice (n :: skipn 1 tree0) 1 rest)).
    { unfold tree_write. rewrite Hl1.
      destruct (Z.leb_spec (1 + len rest) 512); [reflexivity|lia]. }
    exists None, w2.
    split; [|split; [congruence|]].
    + unfold huff_tree. rewrite (bind_ok _ _ _ _ _ E1). cbv iota beta.
      rewrite (bind_lift _ _ _ _ Hw0). cbn [negb].
      rewrite (bind_lift _ _ _ _ Ha0).
      rewrite (bind_ok _ _ _ _ _ E2). cbv iota beta.
      rewrite (bind_lift _ _ _ _ Hw1). reflexivity.
    + intros n' rest' Heq. inversion Heq; subst. lia.
Qed.

Lemma X23_huff_tree_safe_witness :
  exists r w',
    huff_tree callback_fd (Some (repeat 0 512))
      (fd_world 4 [1; 192; 65; 66; 0; 0; 0; 64] [3] [[9; 9]])
    = (Ok r, w') /\
    w_out w' = [[9; 9]] /\
    match r with
    | Some tree =>
        length tree = 512%nat /\
        exists n table,
          [1; 192; 65; 66; 0; 0; 0; 64] = n :: table ++ in_stream w' /\
          len table = 2 * (n + 1) - 1 /\
          tree = tree_of n table (repeat 0 512)
    | None =>
        forall n rest,
          [1; 192; 65; 66; 0; 0; 0; 64] = n :: rest ->
          len rest < 2 * (n + 1) - 1
    end.
Proof.
  refine (X23_huff_tree_safe
            (fd_world 4 [1; 192; 65; 66; 0; 0; 0; 64] [3] [[9; 9]])
            (repeat 0 512) _ _ _).
  - unfold input_ok, buffer_ok. vm_compute. intuition discriminate.
  - apply repeat_length.
  - intros n rest H. change (in_stream _) with [1; 192; 65; 66; 0; 0; 0; 64] in H.
    inversion H. unfold is_byte. lia.
Defined.

(** X24.  What makes [huff_decode] give up before it decodes: when
    [malloc] fails it returns [false] and has read nothing, whatever the
    source is; when the input ends inside the table it returns [false] and
    the output regions are untouched. *)
Theorem X24_huff_decode_refuses (fuel : nat) (iov : list Z) (size : Z) :
  (forall (U : Type) (cb : U -> list Z -> Z -> Z * list Z * U) (w : world U),
      huff_decode cb None fuel iov size w = (Ok false, w)) /\
  (forall (w : world fd_state) (tree0 : list Z),
      input_ok w -> length tree0 = 512%nat ->
      (forall n rest, in_stream w = n :: rest ->
                      is_byte n /\ len rest < 2 * (n + 1) - 1) ->
      exists w',
        huff_decode callback_fd (Some tree0) fuel iov size w = (Ok false, w') /\
        w_out w' = w_out w).
Proof.
  split.
  - intros U cb w. reflexivity.
  - intros w tree0 Hb Ht Hin.
    assert (HM : SIZE_MAX = 4294967295) by reflexivity.
    unfold huff_decode.
    destruct (in_stream w) as [|n rest] eqn:Hst.
    { destruct (BufferRead_short w 1 Hb ltac:(lia)) as (w1 & E1 & Ho1 & _).
      { rewrite Hst. unfold len. simpl. lia. }
      rewrite Hst in E1.
      assert (Hw0 : tree_write tree0 0 [] = Ok (splice tree0 0 [])).
      { unfold tree_write, len. rewrite Ht. reflexivity. }
      exists w1. split; [|exact Ho1].
      assert (E : huff_tree callback_fd (Some tree0) w = (Ok None, w1)).
      { unfold huff_tree. rewrite (bind_ok _ _ _ _ _ E1). cbv iota beta.
        rewrite (bind_lift _ _ _ _ Hw0). reflexivity. }
      rewrite (bind_ok _ _ _ _ _ E). reflexivity. }
    destruct (Hin n rest eq_refl) as [Hn Hshort]. unfold is_byte in Hn.
    destruct (BufferRead_stream w 1 Hb ltac:(lia))
      as (w1 & E1 & Hb1 & Hst1 & Ho1 & _).
    { rewrite Hst. unfold len. simpl length. lia. }
    rewrite Hst in E1, Hst1.
    change (firstn (Z.to_nat 1) (n :: rest)) with [n] in E1.
    change (skipn (Z.to_nat 1) (n :: rest)) with rest in Hst1.
    assert (Hw0 : tree_write tree0 0 [n] = Ok (n :: skipn 1 tree0)).
    { unfold tree_write, len. rewrite Ht. reflexivity. }
    assert (Ha0 : tree_at (n :: skipn 1 tree0) 0 = Ok n) by reflexivity.
    assert (Hl1 : len (n :: skipn 1 tree0) = 512).
    { unfold len. cbn [length]. rewrite length_skipn, Ht. reflexivity. }
    destruct (BufferRead_short w1 ((n + 1) * 2 - 1) Hb1 ltac:(lia))
      as (w2 & E2 & Ho2 & _).
    { rewrite Hst1. lia. }
    rewrite Hst1 in E2.
    assert (Hw1 : tree_write (n :: skipn 1 tree0) 1 rest
                  = Ok (splice (n :: skipn 1 tree0) 1 rest)).
    { unfold tree_write. rewrite Hl1.
      destruct (Z.leb_spec (1 + len rest) 512); [reflexivity|lia]. }
    exists w2. split; [|congruence].
    assert (E : huff_tree callback_fd (Some tree0) w = (Ok None, w2)).
    { unfold huff_tree. rewrite (bind_ok _ _ _ _ _ E1). cbv iota beta.
      rewrite (bind_lift _ _ _ _ Hw0). cbn [negb].
      rewrite (bind_lift _ _ _ _ Ha0).
      rewrite (bind_ok _ _ _ _ _ E2). cbv iota beta.
      rewrite (bind_lift _ _ _ _ Hw1). reflexivity. }
    rewrite (bind_ok _ _ _ _ _ E). reflexivity.
Qed.

Lemma X24_huff_decode_refuses_witness :
  huff_decode callback_fd None 8 [2] 2 (fd_world 4 [1; 192; 65; 66] [] [[9; 9]])
  = (Ok false, fd_world 4 [1; 192; 65; 66] [] [[9; 9]]) /\
  exists w',
    huff_decode callback_fd (Some (repeat 0 512)) 8 [2] 2
      (fd_world 4 [1; 192; 65] [] [[9; 9]])
    = (Ok false, w') /\
    w_out w' = [[9; 9]].
Proof.
  split.
  - exact (proj1 (X24_huff_decode_refuses 8 [2] 2) fd_state callback_fd
             (fd_world 4 [1; 192; 65; 66] [] [[9; 9]])).
  - refine (proj2 (X24_huff_decode_refuses 8 [2] 2)
              (fd_world 4 [1; 192; 65] [] [[9; 9]]) (repeat 0 512) _ _ _).
    + unfold input_ok, buffer_ok. vm_compute. intuition discriminate.
    + apply repeat_length.
    + intros n rest H. change (in_stream _) with [1; 192; 65] in H.
      inversion H. unfold is_byte, len. simpl. lia.
Defined.

(** * Literal bytes in LZSS and LZ11 *)

Lemma bind_bind_ok (U A B C : Type) (c : M U A) (g : A -> M U B)
      (k : B -> M U C) (w w' : world U) (a : A) :
  c w = (Ok a, w') -> bind U (bind U c g) k w = bind U (g a) k w'.
Proof. intros E. unfold bind. rewrite E. reflexivity. Qed.

Lemma it_ok_before_end (iov : list Z) (it : iov_iter) :
  it_ok iov it \/ it_end iov it -> it_off iov it < sum_sizes iov ->
  it_ok iov it.
Proof.
  intros [H|H] Hlt; [exact H|]. rewrite (it_off_end iov it H) in Hlt. lia.
Qed.

Lemma it_off_nonneg (iov : list Z) (it : iov_iter) :
  regions_ok iov -> it_ok iov it \/ it_end iov it -> 0 <= it_off iov it.
Proof.
  intros Hr [H|H].
  - apply (it_off_bound iov it Hr H).
  - rewrite (it_off_end iov it H). apply sum_sizes_nonneg. exact Hr.
Qed.

(** The uncompressed block of both decoders: [Tex3DS_BufferGet] into
    [iov_addr(&out)], then [iov_increment(&out)]. *)
Lemma literal_ok (iov : list Z) (w : world fd_state) (out : iov_iter)
      (v : Z) (rest : list Z) :
  regions_ok iov -> input_ok w -> iov_of (w_out w) = iov -> it_ok iov out ->
  in_stream w = v :: rest ->
  exists w1 out',
    to_out (it_num out, it_pos out) (Tex3DS_BufferGet callback_fd) w
    = (Ok true, w1) /\
    iov_increment iov out = Ok out' /\
    concat (w_out w1) = splice (concat (w_out w)) (it_off iov out) [v] /\
    iov_of (w_out w1) = iov /\ input_ok w1 /\ in_stream w1 = rest /\
    it_off iov out' = it_off iov out + 1 /\
    (it_ok iov out' \/ it_end iov out').
Proof.
  intros Hr Hb Hiov Hok Hst.
  destruct (BufferGet_stream w v rest Hb Hst) as (w1 & E & Hb1 & Hst1 & Ho1).
  destruct (store_flat (w_out w1) out v) as (m' & Es & Hiov' & Hflat);
    try (rewrite Ho1, Hiov; assumption).
  rewrite Ho1, Hiov in Hiov', Hflat.
  destruct (iov_increment_spec iov out Hr Hok) as (out' & Ei & Hoff & Hcase).
  eexists. exists out'.
  split; [exact (to_out_ok fd_state _ _ w w1 true [v] m' E Es)|].
  cbn [w_out]. auto 10.
Qed.

(** *** LZSS *)

Lemma lzss_flags_step (iov : list Z) (fuel : nat) (w : world fd_state)
      (out : iov_iter) (flags size f : Z) (rest : list Z) :
  input_ok w -> in_stream w = f :: rest -> 0 < size ->
  exists w1,
    lzss_loop fd_state callback_fd (S fuel) iov out flags 0 size w
    = lzss_loop fd_state callback_fd (S fuel) iov out f 128 size w1 /\
    input_ok w1 /\ in_stream w1 = rest /\ w_out w1 = w_out w.
Proof.
  intros Hb Hst Hpos.
  destruct (get_var_stream w f rest Hb Hst) as (w1 & E & Hb1 & Hst1 & Ho1).
  exists w1. split; [|auto].
  cbn [lzss_loop].
  destruct (Z.gtb_spec size 0); [|lia]. cbn [negb].
  change (0 =? 0) with true. change (128 =? 0) with false. cbv iota.
  rewrite (bind_bind_ok _ _ _ _ _ _ _ _ _ _ E). reflexivity.
Qed.

Lemma lzss_literal_step (iov : list Z) (fuel : nat) (w : world fd_state)
      (out : iov_iter) (mask size v : Z) (rest : list Z) :
  regions_ok iov -> input_ok w -> iov_of (w_out w) = iov -> it_ok iov out ->
  in_stream w = v :: rest -> 0 < size -> mask <> 0 ->
  exists w1 out',
    lzss_loop fd_state callback_fd (S fuel) iov out 0 mask size w
    = lzss_loop fd_state callback_fd fuel iov out' 0 (Z.shiftr mask 1)
        (size - 1) w1 /\
    concat (w_out w1) = splice (concat (w_out w)) (it_off iov out) [v] /\
    iov_of (w_out w1) = iov /\ input_ok w1 /\ in_stream w1 = rest /\
    it_off iov out' = it_off iov out + 1 /\
    (it_ok iov out' \/ it_end iov out').
Proof.
  intros Hr Hb Hiov Hok Hst Hpos Hmask.
  destruct (literal_ok iov w out v rest Hr Hb Hiov Hok Hst)
    as (w1 & out' & Eget & Einc & H).
  exists w1, out'. split; [|exact H].
  cbn [lzss_loop].
  destruct (Z.gtb_spec size 0); [|lia]. cbn [negb].
  destruct (Z.eqb_spec mask 0); [contradiction|].
  rewrite bind_ret. rewrite Z.land_0_l. change (truthy 0) with false.
  cbv iota.
  rewrite (bind_lift _ _ _ _ (iov_addr_ok iov out Hok)).
  rewrite (bind_ok _ _ _ _ _ Eget). cbn [negb].
  rewrite (bind_lift _ _ _ _ Einc). reflexivity.
Qed.

Lemma lzss_run (iov : list Z) :
  regions_ok iov ->
  forall (lits : list Z) (fuel : nat) (w : world fd_state) (out : iov_iter)
         (mask size : Z) (more : list Z),
    input_ok w -> iov_of (w_out w) = iov ->
    it_ok iov out \/ it_end iov out ->
    in_stream w = lits ++ more -> len lits <= size ->
    it_off iov out + len lits <= sum_sizes iov ->
    (lits <> [] -> 2 ^ len lits <= 2 * mask) ->
    exists w' out',
      lzss_loop fd_state callback_fd (length lits + fuel) iov out 0 mask size w
      = lzss_loop fd_state callback_fd fuel iov out' 0
          (Z.shiftr mask (len lits)) (size - len lits) w' /\
      concat (w_out w') = splice (concat (w_out w)) (it_off iov out) lits /\
      iov_of (w_out w') = iov /\ input_ok w' /\ in_stream w' = more /\
      it_off iov out' = it_off iov out + len lits /\
      (it_ok iov out' \/ it_end iov out').
Proof.
  intros Hr. induction lits as [|v lits IH];
    intros fuel w out mask size more Hb Hiov Hcase Hst Hsz Hfit Hmask.
  - exists w, out. cbn [length Nat.add]. change (len (@nil Z)) with 0.
    rewrite Z.shiftr_0_r, Z.sub_0_r, Z.add_0_r, splice_nil. auto 10.
  - assert (Hl : len (v :: lits) = 1 + len lits)
      by (unfold len; cbn [length]; lia).
    pose proof (len_nonneg lits) as Hnn.
    rewrite Hl in *.
    assert (Hok : it_ok iov out) by (apply it_ok_before_end; [exact Hcase|lia]).
    pose proof (it_off_bound iov out Hr Hok) as Hbound.
    assert (Hm : 2 ^ len lits <= mask).
    { specialize (Hmask ltac:(discriminate)).
      rewrite Z.pow_add_r in Hmask by lia. change (2 ^ 1) with 2 in Hmask. lia. }
    assert (Hm0 : mask <> 0).
    { pose proof (Z.pow_pos_nonneg 2 (len lits) ltac:(lia) Hnn). lia. }
    destruct (lzss_literal_step iov (length lits + fuel) w out mask size v
                (lits ++ more) Hr Hb Hiov Hok Hst ltac:(lia) Hm0)
      as (w1 & out1 & E1 & Hflat1 & Hiov1 & Hb1 & Hst1 & Hoff1 & Hcase1).
    destruct (IH fuel w1 out1 (Z.shiftr mask 1) (size - 1) more
                Hb1 Hiov1 Hcase1 Hst1 ltac:(lia) ltac:(lia))
      as (w' & out' & E' & Hflat' & Hiov' & Hb' & Hst' & Hoff' & Hcase').
    { intros Hne. rewrite Z.shiftr_div_pow2 by lia. change (2 ^ 1) with 2.
      assert (Hpos : 0 < len lits).
      { destruct lits; [congruence|]. unfold len. cbn [length]. lia. }
      replace (len lits) with (1 + (len lits - 1)) in * by lia.
      rewrite Z.pow_add_r in * by lia. change (2 ^ 1) with 2 in *.
      pose proof (Z.div_le_lower_bound mask 2 (2 ^ (len lits - 1))
                    ltac:(lia) Hm).
      lia. }
    exists w', out'.
    split.
    { cbn [length Nat.add]. rewrite E1, E'.
      rewrite Z.shiftr_shiftr by lia.
      replace (size - 1 - len lits) with (size - (1 + len lits)) by lia.
      reflexivity. }
    split.
    { rewrite Hflat', Hflat1, Hoff1.
      change (it_off iov out + 1) with (it_off iov out + len [v]).
      rewrite splice_splice; [reflexivity|lia|].
      rewrite sum_sizes_concat, Hiov. change (len [v]) with 1. lia. }
    split; [exact Hiov'|]. split; [exact Hb'|]. split; [exact Hst'|].
    split; [lia|exact Hcase'].
Qed.

Lemma loop_done_lzss (iov : list Z) (fuel : nat) (out : iov_iter)
      (flags mask : Z) (w : world fd_state) :
  lzss_loop fd_state callback_fd fuel iov out flags mask 0 w = (Ok true, w).
Proof. destruct fuel; reflexivity. Qed.

Lemma lz_literals_done (groups : nat) (input : list Z) :
  lz_literals groups input 0 = Some ([], input).
Proof. destruct groups; reflexivity. Qed.

(** The loop of [lzss_decode] on literal groups. *)
Lemma lzss_loop_literals (iov : list Z) :
  regions_ok iov ->
  forall (groups fuel : nat) (w : world fd_state) (out : iov_iter)
         (flags mask size : Z) (bytes more : list Z),
    input_ok w -> iov_of (w_out w) = iov ->
    it_ok iov out \/ it_end iov out ->
    0 <= size -> (Z.to_nat size <= fuel)%nat -> (0 < size -> mask = 0) ->
    it_off iov out + size <= sum_sizes iov ->
    lz_literals groups (in_stream w) size = Some (bytes, more) ->
    exists w',
      lzss_loop fd_state callback_fd fuel iov out flags mask size w
      = (Ok true, w') /\
      concat (w_out w') = splice (concat (w_out w)) (it_off iov out) bytes /\
      len bytes = size /\ iov_of (w_out w') = iov /\
      input_ok w' /\ in_stream w' = more.
Proof.
  intros Hr. induction groups as [|groups IH];
    intros fuel w out flags mask size bytes more Hb Hiov Hcase Hs Hf Hmask
           Hfit Hlit.
  - cbn [lz_literals] in Hlit.
    destruct (Z.leb_spec size 0); [|discriminate].
    assert (size = 0) by lia. subst size. inversion Hlit; subst.
    exists w. rewrite loop_done_lzss, splice_nil. auto 10.
  - cbn [lz_literals] in Hlit.
    destruct (Z.leb_spec size 0) as [Hz|Hpos].
    { assert (size = 0) by lia. subst size. inversion Hlit; subst.
      exists w. rewrite loop_done_lzss, splice_nil. auto 10. }
    rewrite (Hmask Hpos).
    destruct (in_stream w) as [|f rest] eqn:Hst; [discriminate|].
    destruct f; try discriminate.
    set (n := Z.min 8 size) in *.
    assert (Hn : 0 < n <= size /\ n <= 8) by (unfold n; lia).
    destruct (Z.leb_spec n (len rest)) as [Hhave|]; [|discriminate].
    destruct (lz_literals groups (skipn (Z.to_nat n) rest) (size - n))
      as [[bs more']|] eqn:Erec; [|discriminate].
    inversion Hlit; subst bytes more'. clear Hlit.
    destruct fuel as [|fuel]; [lia|].
    destruct (lzss_flags_step iov fuel w out flags size 0 rest Hb Hst Hpos)
      as (w1 & E1 & Hb1 & Hst1 & Ho1).
    set (lits := firstn (Z.to_nat n) rest) in *.
    assert (Hll : len lits = n) by (unfold lits; apply len_firstn; lia).
    assert (Hfuel : S fuel = (length lits + (S fuel - length lits))%nat)
      by (unfold len in Hll; lia).
    destruct (lzss_run iov Hr lits (S fuel - length lits) w1 out 128 size
                (skipn (Z.to_nat n) rest) Hb1 ltac:(rewrite Ho1; exact Hiov)
                Hcase ltac:(rewrite Hst1; unfold lits;
                            rewrite firstn_skipn; reflexivity)
                ltac:(lia) ltac:(lia))
      as (w2 & out2 & E2 & Hflat2 & Hiov2 & Hb2 & Hst2 & Hoff2 & Hcase2).
    { intros _. rewrite Hll.
      assert (H8 : 2 ^ n <= 2 ^ 8) by (apply Z.pow_le_mono_r; lia).
      change (2 ^ 8) with 256 in H8. lia. }
    rewrite <- Hfuel in E2. rewrite Hll in E2, Hoff2.
    destruct (IH (S fuel - length lits)%nat w2 out2 0 (Z.shiftr 128 n)
                (size - n) bs more Hb2 Hiov2 Hcase2 ltac:(lia)
                ltac:(unfold len in Hll; lia))
      as (w' & E' & Hflat' & Hlen' & Hiov' & Hb' & Hst').
    { intros Hleft. assert (n = 8) by lia.
      replace n with 8 by lia. reflexivity. }
    { lia. }
    { rewrite Hst2. exact Erec. }
    exists w'. split; [rewrite E1, E2; exact E'|].
    split.
    { rewrite Hflat', Hflat2, Ho1, Hoff2. rewrite <- Hll at 1.
      apply splice_splice.
      - apply (it_off_nonneg iov out Hr Hcase).
      - rewrite sum_sizes_concat, Hiov. lia. }
    split; [rewrite len_app; lia|]. auto.
Qed.

(** *** LZ11 *)

Lemma lz11_for_literals (iov : list Z) :
  regions_ok iov ->
  forall (rounds : nat) (lits : list Z) (w : world fd_state) (out : iov_iter)
         (size : Z) (more : list Z),
    input_ok w -> iov_of (w_out w) = iov ->
    it_ok iov out \/ it_end iov out ->
    in_stream w = lits ++ more -> 0 <= size ->
    len lits = Z.min (Z.of_nat rounds) size ->
    it_off iov out + len lits <= sum_sizes iov ->
    exists w' out',
      lz11_for fd_state callback_fd rounds iov out 0 size w
      = (Ok (Some (out', size - len lits)), w') /\
      concat (w_out w') = splice (concat (w_out w)) (it_off iov out) lits /\
      iov_of (w_out w') = iov /\ input_ok w' /\ in_stream w' = more /\
      it_off iov out' = it_off iov out + len lits /\
      (it_ok iov out' \/ it_end iov out').
Proof.
  intros Hr. induction rounds as [|rounds IH];
    intros lits w out size more Hb Hiov Hcase Hst Hs Hlen Hfit.
  - assert (lits = []).
    { destruct lits; [reflexivity|]. unfold len in Hlen. cbn [length] in Hlen.
      lia. }
    subst lits. exists w, out. cbn [lz11_for]. change (len (@nil Z)) with 0.
    rewrite Z.sub_0_r, Z.add_0_r, splice_nil. auto 10.
  - cbn [lz11_for].
    destruct (Z.gtb_spec size 0) as [Hpos|Hz]; cbn [negb].
    2:{ assert (lits = []).
        { destruct lits; [reflexivity|]. unfold len in Hlen.
          cbn [length] in Hlen. lia. }
        subst lits. exists w, out. change (len (@nil Z)) with 0.
        rewrite Z.sub_0_r, Z.add_0_r, splice_nil. auto 10. }
    destruct lits as [|v lits].
    { unfold len in Hlen. cbn [length] in Hlen. lia. }
    assert (Hl : len (v :: lits) = 1 + len lits)
      by (unfold len; cbn [length]; lia).
    pose proof (len_nonneg lits) as Hnn.
    rewrite Hl in *.
    assert (Hok : it_ok iov out) by (apply it_ok_before_end; [exact Hcase|lia]).
    pose proof (it_off_bound iov out Hr Hok) as Hbound.
    destruct (literal_ok iov w out v (lits ++ more) Hr Hb Hiov Hok Hst)
      as (w1 & out1 & Eget & Einc & Hflat1 & Hiov1 & Hb1 & Hst1 & Hoff1 & Hcase1).
    destruct (IH lits w1 out1 (size - 1) more Hb1 Hiov1 Hcase1 Hst1
                ltac:(lia) ltac:(lia) ltac:(lia))
      as (w' & out' & E' & Hflat' & Hiov' & Hb' & Hst' & Hoff' & Hcase').
    exists w', out'.
    split.
    { change (truthy (Z.land 0 128)) with false. cbv iota.
      rewrite (bind_lift _ _ _ _ (iov_addr_ok iov out Hok)).
      rewrite (bind_ok _ _ _ _ _ Eget). cbn [negb].
      rewrite (bind_lift _ _ _ _ Einc).
      change (wrap8 (Z.shiftl 0 1)) with 0. rewrite E'.
      replace (size - 1 - len lits) with (size - (1 + len lits)) by lia.
      reflexivity. }
    split.
    { rewrite Hflat', Hflat1, Hoff1.
      change (it_off iov out + 1) with (it_off iov out + len [v]).
      rewrite splice_splice; [reflexivity|lia|].
      rewrite sum_sizes_concat, Hiov. change (len [v]) with 1. lia. }
    split; [exact Hiov'|]. split; [exact Hb'|]. split; [exact Hst'|].
    split; [lia|exact Hcase'].
Qed.

Lemma loop_done_lz11 (iov : list Z) (fuel : nat) (out : iov_iter)
      (w : world fd_state) :
  lz11_loop fd_state callback_fd fuel iov out 0 w = (Ok true, w).
Proof. destruct fuel; reflexivity. Qed.

(** The loop of [lz11_decode] on literal groups. *)
Lemma lz11_loop_literals (iov : list Z) :
  regions_ok iov ->
  forall (groups fuel : nat) (w : world fd_state) (out : iov_iter)
         (size : Z) (bytes more : list Z),
    input_ok w -> iov_of (w_out w) = iov ->
    it_ok iov out \/ it_end iov out ->
    0 <= size -> (Z.to_nat size <= fuel)%nat ->
    it_off iov out + size <= sum_sizes iov ->
    lz_literals groups (in_stream w) size = Some (bytes, more) ->
    exists w',
      lz11_loop fd_state callback_fd fuel iov out size w = (Ok true, w') /\
      concat (w_out w') = splice (concat (w_out w)) (it_off iov out) bytes /\
      len bytes = size /\ iov_of (w_out w') = iov /\
      input_ok w' /\ in_stream w' = more.
Proof.
  intros Hr. induction groups as [|groups IH];
    intros fuel w out size bytes more Hb Hiov Hcase Hs Hf Hfit Hlit.
  - cbn [lz_literals] in Hlit.
    destruct (Z.leb_spec size 0); [|discriminate].
    assert (size = 0) by lia. subst size. inversion Hlit; subst.
    exists w. rewrite loop_done_lz11, splice_nil. auto 10.
  - cbn [lz_literals] in Hlit.
    destruct (Z.leb_spec size 0) as [Hz|Hpos].
    { assert (size = 0) by lia. subst size. inversion Hlit; subst.
      exists w. rewrite loop_done_lz11, splice_nil. auto 10. }
    destruct (in_stream w) as [|f rest] eqn:Hst; [discriminate|].
    destruct f; try discriminate.
    set (n := Z.min 8 size) in *.
    assert (Hn : 0 < n <= size /\ n <= 8) by (unfold n; lia).
    destruct (Z.leb_spec n (len rest)) as [Hhave|]; [|discriminate].
    destruct (lz_literals groups (skipn (Z.to_nat n) rest) (size - n))
      as [[bs more']|] eqn:Erec; [|discriminate].
    inversion Hlit; subst bytes more'. clear Hlit.
    destruct fuel as [|fuel]; [lia|].
    destruct (get_var_stream w 0 rest Hb Hst) as (w1 & E1 & Hb1 & Hst1 & Ho1).
    set (lits := firstn (Z.to_nat n) rest) in *.
    assert (Hll : len lits = n) by (unfold lits; apply len_firstn; lia).
    destruct (lz11_for_literals iov Hr 8 lits w1 out size
                (skipn (Z.to_nat n) rest) Hb1 ltac:(rewrite Ho1; exact Hiov)
                Hcase ltac:(rewrite Hst1; unfold lits;
                            rewrite firstn_skipn; reflexivity)
                ltac:(lia) ltac:(rewrite Hll; reflexivity) ltac:(lia))
      as (w2 & out2 & E2 & Hflat2 & Hiov2 & Hb2 & Hst2 & Hoff2 & Hcase2).
    rewrite Hll in E2, Hoff2.
    destruct (IH fuel w2 out2 (size - n) bs more Hb2 Hiov2 Hcase2
                ltac:(lia) ltac:(lia) ltac:(lia)
                ltac:(rewrite Hst2; exact Erec))
      as (w' & E' & Hflat' & Hlen' & Hiov' & Hb' & Hst').
    exists w'. split.
    { cbn [lz11_loop]. destruct (Z.gtb_spec size 0); [|lia]. cbn [negb].
      rewrite (bind_ok _ _ _ _ _ E1). rewrite (bind_ok _ _ _ _ _ E2).
      exact E'. }
    split.
    { rewrite Hflat', Hflat2, Ho1, Hoff2. rewrite <- Hll at 1.
      apply splice_splice.
      - apply (it_off_nonneg iov out Hr Hcase).
      - rewrite sum_sizes_concat, Hiov. lia. }
    split; [rewrite len_app; lia|]. auto.
Qed.

(** An LZSS or LZ11 block made of literal groups, through the dispatcher. *)
Lemma lz_block_literals (malloc512 : option (list Z)) (fuel groups : nat)
      (w : world fd_state) (kind b1 b2 b3 : Z) (payload bytes more : list Z) :
  kind = 16 \/ kind = 17 ->
  input_ok w -> regions_ok (iov_of (w_out w)) -> w_out w <> [] ->
  sum_sizes (iov_of (w_out w)) <= SIZE_MAX ->
  in_stream w = kind :: b1 :: b2 :: b3 :: payload ->
  is_byte b1 -> is_byte b2 -> is_byte b3 ->
  let size := Z.min (b1 + 256 * b2 + 65536 * b3)
                    (sum_sizes (iov_of (w_out w))) in
  lz_literals groups payload size = Some (bytes, more) ->
  exists w',
    Tex3DS_DecompressV callback_fd malloc512 fuel w = (Ok true, w') /\
    concat (w_out w') = bytes ++ skipn (Z.to_nat size) (concat (w_out w)) /\
    len bytes = size /\ iov_of (w_out w') = iov_of (w_out w) /\
    input_ok w' /\ in_stream w' = more.
Proof.
  intros Hkind Hb Hr Hne Hcap Hst H1 H2 H3 size Hlit.
  assert (Hk : 0 <= kind < 256 /\ truthy (Z.land kind 128) = false)
    by (destruct Hkind; subst kind; split; [lia|reflexivity|lia|reflexivity]).
  destruct (DecompressV_header malloc512 fuel w kind b1 b2 b3 payload
              Hb Hne Hcap Hst (proj1 Hk)) as (Hplain & _ & _).
  destruct (Hplain (proj2 Hk)) as (w1 & Hb1 & Hst1 & Ho1 & E).
  rewrite E, header24 by assumption. fold size.
  set (iov := iov_of (w_out w)) in *.
  assert (Hbegin : 0 < sum_sizes iov /\ it_ok iov iov_begin).
  { apply iov_begin_ok; [exact Hr|].
    unfold iov, iov_of. destruct (w_out w); [congruence|discriminate]. }
  destruct Hbegin as [Hsum Hok].
  assert (Hs : 0 <= size <= sum_sizes iov)
    by (unfold size, is_byte in *; lia).
  assert (Hflatten :
            forall w' : world fd_state,
              concat (w_out w')
              = splice (concat (w_out w1)) (it_off iov iov_begin) bytes ->
              len bytes = size ->
              concat (w_out w')
              = bytes ++ skipn (Z.to_nat size) (concat (w_out w))).
  { intros w' Hflat Hlen. rewrite Hflat, Ho1.
    change (it_off iov iov_begin) with 0.
    unfold splice. change (Z.to_nat 0) with 0%nat. cbn [firstn app].
    do 2 f_equal. unfold len in Hlen. lia. }
  destruct Hkind; subst kind.
  - change (dispatch callback_fd malloc512 fuel iov (kind_of 16) size w1)
      with (lzss_loop fd_state callback_fd (Z.to_nat size) iov iov_begin
              0 0 size w1).
    destruct (lzss_loop_literals iov Hr groups (Z.to_nat size) w1 iov_begin
                0 0 size bytes more Hb1 ltac:(rewrite Ho1; reflexivity)
                (or_introl Hok) ltac:(lia) ltac:(lia) ltac:(reflexivity)
                ltac:(unfold it_off; simpl; lia)
                ltac:(rewrite Hst1; exact Hlit))
      as (w' & El & Hflat & Hlen & Hiov' & Hb' & Hst').
    exists w'. split; [exact El|]. split; [|auto].
    apply Hflatten; assumption.
  - change (dispatch callback_fd malloc512 fuel iov (kind_of 17) size w1)
      with (lz11_loop fd_state callback_fd (Z.to_nat size) iov iov_begin
              size w1).
    destruct (lz11_loop_literals iov Hr groups (Z.to_nat size) w1 iov_begin
                size bytes more Hb1 ltac:(rewrite Ho1; reflexivity)
                (or_introl Hok) ltac:(lia) ltac:(lia)
                ltac:(unfold it_off; simpl; lia)
                ltac:(rewrite Hst1; exact Hlit))
      as (w' & El & Hflat & Hlen & Hiov' & Hb' & Hst').
    exists w'. split; [exact El|]. split; [|auto].
    apply Hflatten; assumption.
Qed.

(** X25.  An LZSS block (kind 0x10) whose payload is made of literal
    groups, a zero flags byte followed by eight raw bytes (or by as many
    as are left of the size): [Tex3DS_DecompressV] returns [true], the
    literals are at the start of the regions up to the smaller of the
    declared size and the capacity, also when they fill the regions to
    the last byte, the bytes behind are as they were, and the input is
    left behind the last literal. *)
Theorem X25_lzss_literals (malloc512 : option (list Z)) (fuel groups : nat)
        (w : world fd_state) (b1 b2 b3 : Z) (payload bytes more : list Z) :
  input_ok w -> regions_ok (iov_of (w_out w)) -> w_out w <> [] ->
  sum_sizes (iov_of (w_out w)) <= SIZE_MAX ->
  in_stream w = 16 :: b1 :: b2 :: b3 :: payload ->
  is_byte b1 -> is_byte b2 -> is_byte b3 ->
  let size := Z.min (b1 + 256 * b2 + 65536 * b3)
                    (sum_sizes (iov_of (w_out w))) in
  lz_literals groups payload size = Some (bytes, more) ->
  exists w',
    Tex3DS_DecompressV callback_fd malloc512 fuel w = (Ok true, w') /\
    concat (w_out w') = bytes ++ skipn (Z.to_nat size) (concat (w_out w)) /\
    len bytes = size /\ iov_of (w_out w') = iov_of (w_out w) /\
    input_ok w' /\ in_stream w' = more.
Proof.
  exact (lz_block_literals malloc512 fuel groups w 16 b1 b2 b3 payload bytes
           more (or_introl eq_refl)).
Qed.

Lemma X25_lzss_literals_witness :
  exists w',
    Tex3DS_DecompressV callback_fd None 0
      (fd_world 3 [16; 10; 0; 0; 0; 1; 2; 3; 4; 5; 6; 7; 8; 0; 9; 10; 77] [2]
         [[0; 0; 0]; [0; 0; 0; 0; 0; 0; 0]])
    = (Ok true, w') /\
    concat (w_out w') = [1; 2; 3; 4; 5; 6; 7; 8; 9; 10] ++ [] /\
    len [1; 2; 3; 4; 5; 6; 7; 8; 9; 10] = 10 /\
    iov_of (w_out w') = [3; 7] /\
    input_ok w' /\ in_stream w' = [77].
Proof.
  refine (X25_lzss_literals None 0 2
            (fd_world 3 [16; 10; 0; 0; 0; 1; 2; 3; 4; 5; 6; 7; 8; 0; 9; 10; 77]
               [2] [[0; 0; 0]; [0; 0; 0; 0; 0; 0; 0]])
            10 0 0 [0; 1; 2; 3; 4; 5; 6; 7; 8; 0; 9; 10; 77]
            [1; 2; 3; 4; 5; 6; 7; 8; 9; 10] [77] _ _ _ _ _ _ _ _ _).
  - unfold input_ok, buffer_ok. vm_compute. intuition discriminate.
  - repeat constructor.
  - discriminate.
  - vm_compute. discriminate.
  - reflexivity.
  - unfold is_byte. lia.
  - unfold is_byte. lia.
  - unfold is_byte. lia.
  - vm_compute. reflexivity.
Defined.

(** X26.  An LZ11 block (kind 0x11) whose payload is made of literal
    groups decodes as the LZSS block does: [Tex3DS_DecompressV] returns
    [true], the literals are at the start of the regions up to the smaller
    of the declared size and the capacity, the bytes behind are as they
    were, and the input is left behind the last literal. *)
Theorem X26_lz11_literals (malloc512 : option (list Z)) (fuel groups : nat)
        (w : world fd_state) (b1 b2 b3 : Z) (payload bytes more : list Z) :
  input_ok w -> regions_ok (iov_of (w_out w)) -> w_out w <> [] ->
  sum_sizes (iov_of (w_out w)) <= SIZE_MAX ->
  in_stream w = 17 :: b1 :: b2 :: b3 :: payload ->
  is_byte b1 -> is_byte b2 -> is_byte b3 ->
  let size := Z.min (b1 + 256 * b2 + 65536 * b3)
                    (sum_sizes (iov_of (w_out w))) in
  lz_literals groups payload size = Some (bytes, more) ->
  exists w',
    Tex3DS_DecompressV callback_fd malloc512 fuel w = (Ok true, w') /\
    concat (w_out w') = bytes ++ skipn (Z.to_nat size) (concat (w_out w)) /\
    len bytes = size /\ iov_of (w_out w') = iov_of (w_out w) /\
    input_ok w' /\ in_stream w' = more.
Proof.
  exact (lz_block_literals malloc512 fuel groups w 17 b1 b2 b3 payload bytes
           more (or_intror eq_refl)).
Qed.

Lemma X26_lz11_literals_witness :
  exists w',
    Tex3DS_DecompressV callback_fd None 0
      (fd_world 3 [17; 12; 0; 0; 0; 1; 2; 3; 4; 5; 6; 7; 8; 0; 9; 10; 77] [2]
         [[0; 0; 0]; [0; 0; 0; 0; 0; 0]])
    = (Ok true, w') /\
    concat (w_out w') = [1; 2; 3; 4; 5; 6; 7; 8; 9] ++ [] /\
    len [1; 2; 3; 4; 5; 6; 7; 8; 9] = 9 /\
    iov_of (w_out w') = [3; 6] /\
    input_ok w' /\ in_stream w' = [10; 77].
Proof.
  refine (X26_lz11_literals None 0 2
            (fd_world 3 [17; 12; 0; 0; 0; 1; 2; 3; 4; 5; 6; 7; 8; 0; 9; 10; 77]
               [2] [[0; 0; 0]; [0; 0; 0; 0; 0; 0]])
            12 0 0 [0; 1; 2; 3; 4; 5; 6; 7; 8; 0; 9; 10; 77]
            [1; 2; 3; 4; 5; 6; 7; 8; 9] [10; 77] _ _ _ _ _ _ _ _ _).
  - unfold input_ok, buffer_ok. vm_compute. intuition discriminate.
  - repeat constructor.
  - discriminate.
  - vm_compute. discriminate.
  - reflexivity.
  - unfold is_byte. lia.
  - unfold is_byte. lia.
  - unfold is_byte. lia.
  - vm_compute. reflexivity.
Defined.

(** * The head of a texture file *)

Lemma Forall_firstn_bytes (k : nat) (l : list Z) :
  Forall is_byte l ->
  Forall is_byte (firstn k l) /\ Forall is_byte (skipn k l).
Proof.
  intros H. rewrite <- (firstn_skipn k l) in H.
  apply Forall_app in H. exact H.
Qed.

Lemma one_byte (bs : list Z) :
  len bs = 1 -> exists v, bs = [v].
Proof.
  intros H. destruct bs as [|v [|]];
    try (unfold len in H; cbn [length] in H; lia).
  exists v. reflexivity.
Qed.

Lemma two_bytes (bs : list Z) :
  len bs = 2 -> exists a b, bs = [a; b].
Proof.
  intros H. destruct bs as [|a [|b [|]]];
    try (unfold len in H; cbn [length] in H; lia).
  exists a, b. reflexivity.
Qed.

Lemma reads_ret (A : Type) (x : A) (f : list Z -> A) :
  f [] = x -> reads 0 (ret fd_state (Some x)) f.
Proof.
  intros Hf w Hb Hbytes. split.
  - intros _. exists w. change (firstn (Z.to_nat 0) (in_stream w)) with (@nil Z).
    rewrite Hf. auto.
  - intros H. pose proof (len_nonneg (in_stream w)). lia.
Qed.

(** A reader followed by a reader that depends on its value: the value of
    the whole, [F], is known as soon as the second reader gives [F] of the
    bytes of both. *)
Lemma reads_bind (A B : Type) (k k1 k2 : Z) (c1 : M fd_state (option A))
      (c2 : A -> M fd_state (option B)) (f1 : list Z -> A)
      (F : list Z -> B) :
  k = k1 + k2 -> 0 <= k1 -> 0 <= k2 ->
  reads k1 c1 f1 ->
  (forall bs1, len bs1 = k1 -> Forall is_byte bs1 ->
               reads k2 (c2 (f1 bs1)) (fun bs2 => F (bs1 ++ bs2))) ->
  reads k
    (bind fd_state c1 (fun a => match a with
                                | None => ret fd_state None
                                | Some a => c2 a
                                end))
    F.
Proof.
  intros -> Hk1 Hk2 H1 H2 w Hb Hbytes.
  destruct (H1 w Hb Hbytes) as [Hs1 Hf1].
  destruct (Forall_firstn_bytes (Z.to_nat k1) _ Hbytes) as [Hby0 Hby1].
  split.
  - intros Hlen.
    destruct (Hs1 ltac:(lia)) as (w1 & E1 & Hb1 & Hst1 & Ho1).
    rewrite <- Hst1 in Hby1.
    destruct (H2 (firstn (Z.to_nat k1) (in_stream w))
                ltac:(apply len_firstn; lia) Hby0 w1 Hb1 Hby1) as [Hs2 _].
    destruct (Hs2 ltac:(rewrite Hst1, len_skipn; lia))
      as (w2 & E2 & Hb2 & Hst2 & Ho2).
    exists w2. rewrite (bind_ok _ _ _ _ _ E1), E2.
    rewrite Z2Nat.inj_add, firstn_plus, <- Hst1 by lia.
    split; [reflexivity|]. split; [exact Hb2|].
    split; [|congruence].
    rewrite Hst2, Hst1, skipn_skipn. f_equal. lia.
  - intros Hlen.
    destruct (Z.le_gt_cases k1 (len (in_stream w))) as [Hhave|Hshort].
    + destruct (Hs1 Hhave) as (w1 & E1 & Hb1 & Hst1 & Ho1).
      rewrite <- Hst1 in Hby1.
      destruct (H2 (firstn (Z.to_nat k1) (in_stream w))
                  ltac:(apply len_firstn; lia) Hby0 w1 Hb1 Hby1) as [_ Hf2].
      destruct (Hf2 ltac:(rewrite Hst1, len_skipn; lia)) as (w2 & E2 & Ho2).
      exists w2. rewrite (bind_ok _ _ _ _ _ E1), E2.
      split; [reflexivity|congruence].
    + destruct (Hf1 Hshort) as (w1 & E1 & Ho1).
      exists w1. rewrite (bind_ok _ _ _ _ _ E1). auto.
Qed.

Lemma reads_get_var : reads 1 (get_var callback_fd) (fun bs => nth 0 bs 0).
Proof.
  intros w Hb Hbytes. split; intros Hlen.
  - destruct (in_stream w) as [|v rest] eqn:Hst;
      [unfold len in Hlen; cbn [length] in Hlen; lia|].
    destruct (get_var_stream w v rest Hb Hst) as (w' & E & Hb' & Hst' & Ho').
    exists w'. auto.
  - destruct (in_stream w) as [|v rest] eqn:Hst;
      [|unfold len in Hlen; cbn [length] in Hlen; lia].
    exact (get_var_eof w Hb Hst).
Qed.

Lemma raw16_le16 (a b : Z) :
  is_byte a -> is_byte b -> wrap16 (Z.lor a (Z.shiftl b 8)) = a + 256 * b.
Proof.
  unfold is_byte. intros Ha Hb.
  rewrite (lor_shiftl_add a b 8) by (change (2 ^ 8) with 256; lia).
  change (2 ^ 8) with 256. unfold wrap16.
  change (2 ^ 16) with 65536. rewrite Z.mod_small by lia. lia.
Qed.

Lemma reads_decode_u16 : reads 2 (decode_u16 callback_fd) le16.
Proof.
  unfold decode_u16.
  apply (reads_bind _ _ 2 1 1 _ _ (fun bs => nth 0 bs 0));
    [reflexivity|lia|lia|exact reads_get_var|].
  intros bs1 Hl1 Hby1.
  apply (reads_bind _ _ 1 1 0 _ _ (fun bs => nth 0 bs 0));
    [reflexivity|lia|lia|exact reads_get_var|].
  intros bs2 Hl2 Hby2. apply reads_ret.
  destruct (one_byte bs1 Hl1) as [a ->]. destruct (one_byte bs2 Hl2) as [b ->].
  inversion Hby1; subst. inversion Hby2; subst.
  symmetry. apply raw16_le16; assumption.
Qed.

Lemma reads_decode_float :
  reads 2 (decode_float callback_fd)
    (fun bs => QArith_base.Qmake (le16 bs) 1024).
Proof.
  unfold decode_float.
  apply (reads_bind _ _ 2 2 0 _ _ le16);
    [reflexivity|lia|lia|exact reads_decode_u16|].
  intros bs1 Hl1 _. apply reads_ret. rewrite app_nil_r. reflexivity.
Qed.

Lemma reads_decode_subtexture :
  reads 12 (decode_subtexture callback_fd) subtexture_of.
Proof.
  unfold decode_subtexture.
  apply (reads_bind _ _ 12 2 10 _ _ le16);
    [reflexivity|lia|lia|exact reads_decode_u16|].
  intros bs1 Hl1 _.
  apply (reads_bind _ _ 10 2 8 _ _ le16);
    [reflexivity|lia|lia|exact reads_decode_u16|].
  intros bs2 Hl2 _.
  apply (reads_bind _ _ 8 2 6 _ _ _ _ eq_refl ltac:(lia) ltac:(lia)
           reads_decode_float).
  intros bs3 Hl3 _.
  apply (reads_bind _ _ 6 2 4 _ _ _ _ eq_refl ltac:(lia) ltac:(lia)
           reads_decode_float).
  intros bs4 Hl4 _.
  apply (reads_bind _ _ 4 2 2 _ _ _ _ eq_refl ltac:(lia) ltac:(lia)
           reads_decode_float).
  intros bs5 Hl5 _.
  apply (reads_bind _ _ 2 2 0 _ _ _ _ eq_refl ltac:(lia) ltac:(lia)
           reads_decode_float).
  intros bs6 Hl6 _. apply reads_ret.
  destruct (two_bytes bs1 Hl1) as (? & ? & ->).
  destruct (two_bytes bs2 Hl2) as (? & ? & ->).
  destruct (two_bytes bs3 Hl3) as (? & ? & ->).
  destruct (two_bytes bs4 Hl4) as (? & ? & ->).
  destruct (two_bytes bs5 Hl5) as (? & ? & ->).
  destruct (two_bytes bs6 Hl6) as (? & ? & ->).
  reflexivity.
Qed.

Lemma reads_subtextures_loop (k : nat) :
  reads (12 * Z.of_nat k) (subtextures_loop callback_fd k) (subtextures_of k).
Proof.
  induction k as [|k IH].
  - apply reads_ret. reflexivity.
  - cbn [subtextures_loop].
    apply (reads_bind _ _ (12 * Z.of_nat (S k)) 12 (12 * Z.of_nat k) _ _ _ _
             ltac:(lia)
             ltac:(lia) ltac:(lia) reads_decode_subtexture).
    intros bs1 Hl1 _.
    apply (reads_bind _ _ (12 * Z.of_nat k) (12 * Z.of_nat k) 0 _ _ _ _
             ltac:(lia)
             ltac:(lia) ltac:(lia) IH).
    intros bs2 Hl2 _. apply reads_ret.
    rewrite app_nil_r. cbn [subtextures_of].
    assert (Hn : length bs1 = 12%nat) by (unfold len in Hl1; lia).
    rewrite firstn_app, skipn_app, Hn, Nat.sub_diag.
    rewrite <- Hn at 1 2. rewrite firstn_all, skipn_all.
    cbn [firstn skipn app]. rewrite app_nil_r. reflexivity.
Qed.

Lemma dimension_bits (p : Z) :
  is_byte p ->
  wrap16 (Z.shiftl 1 (Z.land (Z.shiftr p 0) 7 + 3)) = 2 ^ (p mod 8 + 3) /\
  wrap16 (Z.shiftl 1 (Z.land (Z.shiftr p 3) 7 + 3)) = 2 ^ ((p / 8) mod 8 + 3).
Proof.
  intros Hp.
  assert (Hall : forallb
                   (fun p =>
                      (wrap16 (Z.shiftl 1 (Z.land (Z.shiftr p 0) 7 + 3))
                       =? 2 ^ (p mod 8 + 3)) &&
                      (wrap16 (Z.shiftl 1 (Z.land (Z.shiftr p 3) 7 + 3))
                       =? 2 ^ ((p / 8) mod 8 + 3)))
                   (map Z.of_nat (seq 0 256)) = true)
    by (vm_compute; reflexivity).
  pose proof (byte_cases _ Hall p Hp) as H. cbv beta in H.
  apply andb_prop in H. destruct H as [H1 H2].
  split; apply Z.eqb_eq; assumption.
Qed.

Lemma reads_texture_fields (n : Z) :
  0 <= n ->
  reads (3 + 12 * n) (texture_fields callback_fd n)
    (fun bs => (texture_of n bs, nth 0 bs 0)).
Proof.
  intros Hn. unfold texture_fields, decode_u8.
  apply (reads_bind _ _ (3 + 12 * n) 1 (2 + 12 * n) _ _ _ _ ltac:(lia)
           ltac:(lia) ltac:(lia) reads_get_var).
  intros bs1 Hl1 Hby1. cbv zeta.
  apply (reads_bind _ _ (2 + 12 * n) 1 (1 + 12 * n) _ _ _ _ ltac:(lia)
           ltac:(lia) ltac:(lia) reads_get_var).
  intros bs2 Hl2 _.
  apply (reads_bind _ _ (1 + 12 * n) 1 (12 * n) _ _ _ _ ltac:(lia)
           ltac:(lia) ltac:(lia) reads_get_var).
  intros bs3 Hl3 _.
  apply (reads_bind _ _ (12 * n) (12 * Z.of_nat (Z.to_nat n)) 0 _ _ _ _
           ltac:(lia)
           ltac:(lia) ltac:(lia) (reads_subtextures_loop (Z.to_nat n))).
  intros bs4 Hl4 _. apply reads_ret.
  destruct (one_byte bs1 Hl1) as [p ->].
  destruct (one_byte bs2 Hl2) as [f ->].
  destruct (one_byte bs3 Hl3) as [m ->].
  inversion Hby1 as [|? ? Hp _]; subst.
  destruct (dimension_bits p Hp) as [Hw Hh].
  unfold texture_of. cbn [app nth skipn]. rewrite app_nil_r, Hw, Hh.
  reflexivity.
Qed.

Lemma dimension_range (e : Z) : 0 <= e < 8 -> 8 <= 2 ^ (e + 3) <= 1024.
Proof.
  intros He.
  pose proof (Z.pow_le_mono_r 2 3 (e + 3) ltac:(lia) ltac:(lia)) as Hlo.
  pose proof (Z.pow_le_mono_r 2 (e + 3) 10 ltac:(lia) ltac:(lia)) as Hhi.
  change (2 ^ 3) with 8 in Hlo. change (2 ^ 10) with 1024 in Hhi. lia.
Qed.

(** The head of [texture_import] on an input of bytes that starts with
    the count [a + 256 * b]. *)
Lemma texture_header_count (w : world fd_state) (a b : Z) (rest : list Z)
      (malloc_ok : bool) :
  input_ok w -> Forall is_byte (in_stream w) ->
  in_stream w = a :: b :: rest ->
  exists w1,
    texture_header callback_fd malloc_ok w
    = (if negb malloc_ok then ret fd_state None
       else texture_fields callback_fd (a + 256 * b)) w1 /\
    input_ok w1 /\ Forall is_byte (in_stream w1) /\ in_stream w1 = rest /\
    w_out w1 = w_out w /\ 0 <= a + 256 * b.
Proof.
  intros Hb Hbytes Hst.
  destruct (reads_decode_u16 w Hb Hbytes) as [Hs _].
  destruct (Hs ltac:(rewrite Hst; unfold len; cbn [length]; lia))
    as (w1 & E1 & Hb1 & Hst1 & Ho1).
  rewrite Hst in E1, Hst1, Hbytes.
  change (firstn (Z.to_nat 2) (a :: b :: rest)) with [a; b] in E1.
  change (skipn (Z.to_nat 2) (a :: b :: rest)) with rest in Hst1.
  change (le16 [a; b]) with (a + 256 * b) in E1.
  pose proof (Forall_inv Hbytes) as Ha.
  pose proof (Forall_inv (Forall_inv_tail Hbytes)) as Hb'.
  pose proof (Forall_inv_tail (Forall_inv_tail Hbytes)) as Hrest.
  exists w1. unfold texture_header. rewrite (bind_ok _ _ _ _ _ E1).
  split; [reflexivity|]. split; [exact Hb1|].
  split; [rewrite Hst1; exact Hrest|]. split; [exact Hst1|].
  split; [exact Ho1|]. unfold is_byte in *. lia.
Qed.

(** X27.  [decode_subtexture] on an input of bytes: when the input has
    twelve bytes, the sub-texture has width and height from the first four,
    lowest byte first, and left, top, right and bottom from the next eight
    as 16-bit values divided by 1024, and the input is left behind the
    twelve bytes; when it has fewer, the call returns [false].  The output
    regions are untouched. *)
Theorem X27_decode_subtexture (w : world fd_state) :
  input_ok w -> Forall is_byte (in_stream w) ->
  (12 <= len (in_stream w) ->
   exists w',
     decode_subtexture callback_fd w
     = (Ok (Some (subtexture_of (firstn 12 (in_stream w)))), w') /\
     input_ok w' /\ in_stream w' = skipn 12 (in_stream w) /\
     w_out w' = w_out w) /\
  (len (in_stream w) < 12 ->
   exists w', decode_subtexture callback_fd w = (Ok None, w') /\
              w_out w' = w_out w).
Proof. exact (reads_decode_subtexture w). Qed.

Lemma X27_decode_subtexture_witness :
  exists w',
    decode_subtexture callback_fd
      (fd_world 5 [16; 0; 32; 1; 0; 2; 0; 4; 0; 1; 0; 3; 99] [3] [])
    = (Ok (Some {| st_width := 16; st_height := 288;
                   st_left := QArith_base.Qmake 512 1024;
                   st_top := QArith_base.Qmake 1024 1024;
                   st_right := QArith_base.Qmake 256 1024;
                   st_bottom := QArith_base.Qmake 768 1024 |}), w') /\
    input_ok w' /\ in_stream w' = [99] /\ w_out w' = [].
Proof.
  refine (proj1 (X27_decode_subtexture
                   (fd_world 5 [16; 0; 32; 1; 0; 2; 0; 4; 0; 1; 0; 3; 99] [3] [])
                   _ _) _).
  - unfold input_ok, buffer_ok. vm_compute. intuition discriminate.
  - change (in_stream _) with [16; 0; 32; 1; 0; 2; 0; 4; 0; 1; 0; 3; 99].
    repeat constructor; unfold is_byte; lia.
  - vm_compute. discriminate.
Defined.

(** X28.  The head of [texture_import] on an input of bytes that starts
    with the count [n] of sub-textures (two bytes, lowest first), the byte
    of parameters, the format, the number of mipmap levels and [n]
    sub-textures of twelve bytes: when the allocation succeeds, the
    texture has these values, its width and height are [2 ^ (e + 3)] for
    the three-bit fields [e] at bits 0 and 3 of the parameters, so between
    8 and 1024, and the input is left behind the last sub-texture. *)
Theorem X28_texture_header (w : world fd_state) (a b : Z)
        (fields rest : list Z) :
  input_ok w -> Forall is_byte (in_stream w) ->
  in_stream w = a :: b :: fields ++ rest ->
  let n := a + 256 * b in
  len fields = 3 + 12 * n ->
  exists w',
    texture_header callback_fd true w
    = (Ok (Some (texture_of n fields, nth 0 fields 0)), w') /\
    input_ok w' /\ in_stream w' = rest /\ w_out w' = w_out w /\
    8 <= t_width (texture_of n fields) <= 1024 /\
    8 <= t_height (texture_of n fields) <= 1024 /\
    len (t_subTextures (texture_of n fields)) = n.
Proof.
  intros Hb Hbytes Hst n Hlen.
  destruct (texture_header_count w a b (fields ++ rest) true Hb Hbytes Hst)
    as (w1 & E1 & Hb1 & Hby1 & Hst1 & Ho1 & Hn).
  fold n in E1, Hn. cbn [negb] in E1.
  destruct (reads_texture_fields n Hn w1 Hb1 Hby1) as [Hs _].
  destruct (Hs ltac:(rewrite Hst1, len_app;
                     pose proof (len_nonneg rest); lia))
    as (w2 & E2 & Hb2 & Hst2 & Ho2).
  assert (Hk : Z.to_nat (3 + 12 * n) = length fields)
    by (unfold len in Hlen; lia).
  rewrite Hst1, Hk in E2, Hst2.
  rewrite firstn_app, Nat.sub_diag, firstn_all in E2.
  cbn [firstn] in E2. rewrite app_nil_r in E2.
  rewrite skipn_app, Nat.sub_diag, skipn_all in Hst2. cbn [skipn app] in Hst2.
  exists w2. rewrite E1, E2.
  split; [reflexivity|]. split; [exact Hb2|]. split; [exact Hst2|].
  split; [congruence|].
  unfold texture_of. cbn [t_width t_height t_subTextures].
  split; [apply dimension_range; apply Z.mod_pos_bound; lia|].
  split; [apply dimension_range; apply Z.mod_pos_bound; lia|].
  assert (Hcount : forall k bs, length (subtextures_of k bs) = k).
  { induction k as [|k IH]; intros bs; cbn [subtextures_of length];
      [reflexivity|]. rewrite IH. reflexivity. }
  unfold len. rewrite Hcount. lia.
Qed.

Lemma X28_texture_header_witness :
  exists w',
    texture_header callback_fd true
      (fd_world 4 [1; 0; 10; 4; 0;
                   16; 0; 32; 1; 0; 2; 0; 4; 0; 1; 0; 3; 0; 5] [3] [])
    = (Ok (Some (texture_of 1 [10; 4; 0;
                               16; 0; 32; 1; 0; 2; 0; 4; 0; 1; 0; 3], 10)),
       w') /\
    input_ok w' /\ in_stream w' = [0; 5] /\ w_out w' = [] /\
    8 <= 32 <= 1024 /\ 8 <= 16 <= 1024 /\
    len (t_subTextures (texture_of 1 [10; 4; 0;
                                      16; 0; 32; 1; 0; 2; 0; 4; 0; 1; 0; 3]))
    = 1.
Proof.
  refine (X28_texture_header
            (fd_world 4 [1; 0; 10; 4; 0;
                         16; 0; 32; 1; 0; 2; 0; 4; 0; 1; 0; 3; 0; 5] [3] [])
            1 0 [10; 4; 0; 16; 0; 32; 1; 0; 2; 0; 4; 0; 1; 0; 3] [0; 5]
            _ _ _ _).
  - unfold input_ok, buffer_ok. vm_compute. intuition discriminate.
  - change (in_stream _)
      with [1; 0; 10; 4; 0; 16; 0; 32; 1; 0; 2; 0; 4; 0; 1; 0; 3; 0; 5].
    repeat constructor; unfold is_byte; lia.
  - reflexivity.
  - reflexivity.
Defined.

(** X29.  What makes the head of [texture_import] give up, on an input of
    bytes: a failed allocation, an input that ends inside the count, and
    an input that ends before the last of the sub-textures the count
    announces.  In each case the result is [NULL] and the output regions
    are untouched. *)
Theorem X29_texture_header_refuses (w : world fd_state) :
  input_ok w -> Forall is_byte (in_stream w) ->
  (exists w', texture_header callback_fd false w = (Ok None, w') /\
              w_out w' = w_out w) /\
  (len (in_stream w) < 2 ->
   exists w', texture_header callback_fd true w = (Ok None, w') /\
              w_out w' = w_out w) /\
  (forall a b rest,
      in_stream w = a :: b :: rest ->
      len rest < 3 + 12 * (a + 256 * b) ->
      exists w', texture_header callback_fd true w = (Ok None, w') /\
                 w_out w' = w_out w).
Proof.
  intros Hb Hbytes.
  destruct (reads_decode_u16 w Hb Hbytes) as [Hs Hf].
  assert (Hshort : forall ok, len (in_stream w) < 2 ->
            exists w', texture_header callback_fd ok w = (Ok None, w') /\
                       w_out w' = w_out w).
  { intros ok Hlen. destruct (Hf Hlen) as (w1 & E1 & Ho1).
    exists w1. unfold texture_header. rewrite (bind_ok _ _ _ _ _ E1). auto. }
  split; [|split].
  - destruct (Z.lt_ge_cases (len (in_stream w)) 2) as [Hlt|Hge];
      [exact (Hshort false Hlt)|].
    destruct (Hs ltac:(lia)) as (w1 & E1 & _ & _ & Ho1).
    exists w1. unfold texture_header. rewrite (bind_ok _ _ _ _ _ E1). auto.
  - exact (Hshort true).
  - intros a b rest Hst Hlen.
    destruct (texture_header_count w a b rest true Hb Hbytes Hst)
      as (w1 & E1 & Hb1 & Hby1 & Hst1 & Ho1 & Hn).
    cbn [negb] in E1.
    destruct (reads_texture_fields (a + 256 * b) Hn w1 Hb1 Hby1) as [_ Hf2].
    destruct (Hf2 ltac:(rewrite Hst1; exact Hlen)) as (w2 & E2 & Ho2).
    exists w2. rewrite E1, E2. split; [reflexivity|congruence].
Qed.

Lemma X29_texture_header_refuses_witness :
  (exists w',
     texture_header callback_fd false
       (fd_world 4 [1; 0; 10; 4; 0; 16; 0; 32] [3] [])
     = (Ok None, w') /\ w_out w' = []) /\
  (exists w',
     texture_header callback_fd true (fd_world 4 [1] [3] [])
     = (Ok None, w') /\ w_out w' = []) /\
  (exists w',
     texture_header callback_fd true
       (fd_world 4 [1; 0; 10; 4; 0; 16; 0; 32] [3] [])
     = (Ok None, w') /\ w_out w' = []).
Proof.
  assert (Hb : forall file, input_ok (fd_world 4 file [3] [])).
  { intros file. unfold input_ok, buffer_ok. vm_compute.
    intuition discriminate. }
  split; [|split].
  - refine (proj1 (X29_texture_header_refuses
                     (fd_world 4 [1; 0; 10; 4; 0; 16; 0; 32] [3] [])
                     (Hb _) _)).
    change (in_stream _) with [1; 0; 10; 4; 0; 16; 0; 32].
    repeat constructor; unfold is_byte; lia.
  - refine (proj1 (proj2 (X29_texture_header_refuses
                            (fd_world 4 [1] [3] []) (Hb _) _)) _).
    + change (in_stream _) with [1]. repeat constructor; unfold is_byte; lia.
    + vm_compute. reflexivity.
  - refine (proj2 (proj2 (X29_texture_header_refuses
                            (fd_world 4 [1; 0; 10; 4; 0; 16; 0; 32] [3] [])
                            (Hb _) _)) 1 0 [10; 4; 0; 16; 0; 32] _ _).
    + change (in_stream _) with [1; 0; 10; 4; 0; 16; 0; 32].
      repeat constructor; unfold is_byte; lia.
    + reflexivity.
    + vm_compute. reflexivity.
Defined.
